(** * trans_shm.c: the shared-memory transport of mooshika

    A shallow embedding of [src/trans_shm.c].  The C heap is a finite map
    from block addresses to typed blocks, the calls into the operating
    system (malloc, shmget, shmat, semget, semop, the pthread calls that
    return a status) take their results from a script carried by the world,
    and everything a peer or a caller can observe (semaphore operations,
    stores into the shared segment, callbacks, allocator and lock calls) is
    appended to a trace.  Each C function is a computation in a small
    state-and-error monad and is written statement by statement. *)

From Stdlib Require Import ZArith List Lia.
From stdpp Require Import base option list gmap.

#[local] Open Scope Z_scope.

(** ** Constants of the source *)

Definition SHM_KEY : Z := 4213.
Definition SHM_SIZE : Z := 100 * 1024 * 1025.
Definition SHM_SEM_KEY : Z := 4241.
Definition SERVER_SEND_SEM_KEY : Z := 4242.
Definition CLIENT_SEND_SEM_KEY : Z := 4243.
Definition RECV_SEM : Z := 0.
Definition SEND_SEM : Z := 1.
Definition SHM_SEM : Z := 2.

(** errno.h and sys/ipc.h values used by the file (Linux). *)
Definition ENOMEM : Z := 12.
Definition EINVAL : Z := 22.
Definition IPC_CREAT : Z := 512.
Definition SHM_FLAGS : Z := Z.lor 438 IPC_CREAT.

(** ** Values *)

Abbreviation loc := positive.

(** A C pointer: NULL, the address of a block, or a value that designates
    no block (a member of a block that malloc returned and nobody has
    written, or the [(void * )-1] of a failed shmat). *)
Inductive pval : Type :=
| Null
| Junk
| Ptr (a : loc).

(** [ctx_callback_t] values: a function of the caller, or the file's own
    [msk_wait_callback]. *)
Inductive fnptr : Type :=
| UserFn (id : Z)
| WaitFn.

(** Modelled from the spec: the connection states of mooshika.h, which is
    not among the sources; the spec names INIT, CONNECTED and CLOSED. *)
Inductive msk_state : Type :=
| MSK_INIT
| MSK_CONNECTED
| MSK_CLOSED.

(** A slot address [buf + i]: the pool block and the index in it. *)
Record ctxref : Type := CtxRef { cbase : pval; cidx : nat }.

Record msk_ctx : Type := MskCtx {
  used : Z;
  pdata : pval;
  callback : option fnptr;
  callback_arg : Z }.

Record msk_list : Type := MskList {
  ctx : ctxref;
  next : pval }.

Record msk_shm : Type := MskShm {
  shmid : Z;
  shmkey : Z;
  len : Z;
  shm : pval;
  shm_semkey : Z;
  shm_semid : Z }.

Record msk_sem : Type := MskSem {
  semkey : Z;
  semid : Z;
  ctx_head : pval;
  ctx_last : pval }.

(** The members of [struct ibv_qp] and [struct ibv_cq] that the file uses. *)
Record ibv_qp : Type := IbvQp {
  qp_context : pval;
  send_cq : pval;
  recv_cq : pval }.

Record ibv_cq : Type := IbvCq { cq_context : pval }.

(** Modelled from the spec: [msk_data_t] of mooshika.h (a length and a
    pointer to the bytes); [data] is an address in the byte memory. *)
Record msk_data : Type := MskData {
  max_size : Z;
  size : Z;
  data : Z }.

(** The attached segment, which the code reads and writes through an
    [msk_data_t] view: [seg_size] is the view's [size] member and
    [seg_payload] the address of its [data] member, where the bytes of the
    message start. *)
Record segment : Type := Segment {
  seg_size : Z;
  seg_payload : Z }.

(** Modelled from the spec: the members of [msk_trans_t] (mooshika.h) that
    trans_shm.c touches. *)
Record msk_trans : Type := MskTrans {
  state : msk_state;
  server : Z;
  timeout : Z;
  sq_depth : Z;
  rq_depth : Z;
  disconnect_callback : option fnptr;
  send_buf : pval;
  recv_buf : pval;
  qp : pval }.

(** Modelled from the spec: the members of [msk_trans_attr_t] read by
    [msk_init]. *)
Record msk_trans_attr : Type := MskTransAttr {
  attr_server : Z;
  attr_timeout : Z;
  attr_sq_depth : Z;
  attr_rq_depth : Z;
  attr_disconnect_callback : option fnptr }.

Inductive obj : Type :=
| OTrans (t : msk_trans)
| OCtxs (l : list msk_ctx)
| OQp (q : ibv_qp)
| OCq (c : ibv_cq)
| OShm (s : msk_shm)
| OSem (s : msk_sem)
| ONode (n : msk_list)
| OData (d : msk_data)
| OSeg (g : segment).

Inductive worker : Type := Sender | Receiver.

Inductive mutex : Type :=
| TransLock (t : pval)
| LocalLock (addr : Z).

Inductive event : Type :=
| EvShmget (key sz flags : Z)
| EvShmat (id : Z)
| EvSemget (key nsems flags : Z)
| EvSemop (id op : Z)
| EvSemctlRmid (id : Z)
| EvShmctlRmid (id : Z)
| EvShmStore (src : pval) (n : Z) (payload : list Z)
| EvCallback (who : worker) (f : fnptr) (trans pd : pval) (arg : Z)
| EvDisconnect (f : fnptr) (trans : pval)
| EvMalloc (p : pval)
| EvFree (p : pval)
| EvMutexInit (m : mutex)
| EvMutexDestroy (m : mutex)
| EvMutexLock (m : mutex)
| EvMutexUnlock (m : mutex)
| EvCondInit (t : pval)
| EvCondDestroy (t : pval)
| EvCondWait (t : pval)
| EvCondBroadcast (t : pval)
| EvSpawn (who : worker) (arg : pval)
| EvThreadExit.

(** What the operating system answers to a call: the value returned and the
    value [errno] has afterwards. *)
Record answer : Type := Answer { a_ret : Z; a_errno : Z }.

Record world : Type := World {
  heap : gmap loc obj;
  live : gset loc;
  bytes : gmap Z Z;
  errno : Z;
  env : list answer;
  trace : list event }.

(** ** Record updates *)

Definition set_heap (h : gmap loc obj) (w : world) : world :=
  World h (live w) (bytes w) (errno w) (env w) (trace w).
Definition set_live (l : gset loc) (w : world) : world :=
  World (heap w) l (bytes w) (errno w) (env w) (trace w).
Definition set_bytes (b : gmap Z Z) (w : world) : world :=
  World (heap w) (live w) b (errno w) (env w) (trace w).
Definition set_errno (e : Z) (w : world) : world :=
  World (heap w) (live w) (bytes w) e (env w) (trace w).
Definition set_env (e : list answer) (w : world) : world :=
  World (heap w) (live w) (bytes w) (errno w) e (trace w).
Definition set_trace (t : list event) (w : world) : world :=
  World (heap w) (live w) (bytes w) (errno w) (env w) t.

Definition set_used (v : Z) (c : msk_ctx) : msk_ctx :=
  MskCtx v (pdata c) (callback c) (callback_arg c).
Definition set_pdata (v : pval) (c : msk_ctx) : msk_ctx :=
  MskCtx (used c) v (callback c) (callback_arg c).
Definition set_callback (v : option fnptr) (c : msk_ctx) : msk_ctx :=
  MskCtx (used c) (pdata c) v (callback_arg c).
Definition set_callback_arg (v : Z) (c : msk_ctx) : msk_ctx :=
  MskCtx (used c) (pdata c) (callback c) v.

Definition set_ctx (v : ctxref) (n : msk_list) : msk_list := MskList v (next n).
Definition set_next (v : pval) (n : msk_list) : msk_list := MskList (ctx n) v.

Definition set_shmid (v : Z) (s : msk_shm) : msk_shm :=
  MskShm v (shmkey s) (len s) (shm s) (shm_semkey s) (shm_semid s).
Definition set_shmkey (v : Z) (s : msk_shm) : msk_shm :=
  MskShm (shmid s) v (len s) (shm s) (shm_semkey s) (shm_semid s).
Definition set_len (v : Z) (s : msk_shm) : msk_shm :=
  MskShm (shmid s) (shmkey s) v (shm s) (shm_semkey s) (shm_semid s).
Definition set_shm (v : pval) (s : msk_shm) : msk_shm :=
  MskShm (shmid s) (shmkey s) (len s) v (shm_semkey s) (shm_semid s).
Definition set_shm_semkey (v : Z) (s : msk_shm) : msk_shm :=
  MskShm (shmid s) (shmkey s) (len s) (shm s) v (shm_semid s).
Definition set_shm_semid (v : Z) (s : msk_shm) : msk_shm :=
  MskShm (shmid s) (shmkey s) (len s) (shm s) (shm_semkey s) v.

Definition set_semkey (v : Z) (s : msk_sem) : msk_sem :=
  MskSem v (semid s) (ctx_head s) (ctx_last s).
Definition set_semid (v : Z) (s : msk_sem) : msk_sem :=
  MskSem (semkey s) v (ctx_head s) (ctx_last s).
Definition set_ctx_head (v : pval) (s : msk_sem) : msk_sem :=
  MskSem (semkey s) (semid s) v (ctx_last s).
Definition set_ctx_last (v : pval) (s : msk_sem) : msk_sem :=
  MskSem (semkey s) (semid s) (ctx_head s) v.

Definition set_qp_context (v : pval) (q : ibv_qp) : ibv_qp :=
  IbvQp v (send_cq q) (recv_cq q).
Definition set_send_cq (v : pval) (q : ibv_qp) : ibv_qp :=
  IbvQp (qp_context q) v (recv_cq q).
Definition set_recv_cq (v : pval) (q : ibv_qp) : ibv_qp :=
  IbvQp (qp_context q) (send_cq q) v.
Definition set_cq_context (v : pval) (c : ibv_cq) : ibv_cq := IbvCq v.

Definition set_size (v : Z) (d : msk_data) : msk_data :=
  MskData (max_size d) v (data d).
Definition set_seg_size (v : Z) (g : segment) : segment :=
  Segment v (seg_payload g).

Definition set_state (v : msk_state) (t : msk_trans) : msk_trans :=
  MskTrans v (server t) (timeout t) (sq_depth t) (rq_depth t)
    (disconnect_callback t) (send_buf t) (recv_buf t) (qp t).
Definition set_server (v : Z) (t : msk_trans) : msk_trans :=
  MskTrans (state t) v (timeout t) (sq_depth t) (rq_depth t)
    (disconnect_callback t) (send_buf t) (recv_buf t) (qp t).
Definition set_timeout (v : Z) (t : msk_trans) : msk_trans :=
  MskTrans (state t) (server t) v (sq_depth t) (rq_depth t)
    (disconnect_callback t) (send_buf t) (recv_buf t) (qp t).
Definition set_sq_depth (v : Z) (t : msk_trans) : msk_trans :=
  MskTrans (state t) (server t) (timeout t) v (rq_depth t)
    (disconnect_callback t) (send_buf t) (recv_buf t) (qp t).
Definition set_rq_depth (v : Z) (t : msk_trans) : msk_trans :=
  MskTrans (state t) (server t) (timeout t) (sq_depth t) v
    (disconnect_callback t) (send_buf t) (recv_buf t) (qp t).
Definition set_disconnect_callback (v : option fnptr) (t : msk_trans) : msk_trans :=
  MskTrans (state t) (server t) (timeout t) (sq_depth t) (rq_depth t)
    v (send_buf t) (recv_buf t) (qp t).
Definition set_send_buf (v : pval) (t : msk_trans) : msk_trans :=
  MskTrans (state t) (server t) (timeout t) (sq_depth t) (rq_depth t)
    (disconnect_callback t) v (recv_buf t) (qp t).
Definition set_recv_buf (v : pval) (t : msk_trans) : msk_trans :=
  MskTrans (state t) (server t) (timeout t) (sq_depth t) (rq_depth t)
    (disconnect_callback t) (send_buf t) v (qp t).
Definition set_qp (v : pval) (t : msk_trans) : msk_trans :=
  MskTrans (state t) (server t) (timeout t) (sq_depth t) (rq_depth t)
    (disconnect_callback t) (send_buf t) (recv_buf t) v.

(** ** The monad *)

(** A call returns a value, is suspended in a blocking call (a condition
    wait or an OS call the script has no answer for yet, the lock of a
    mutex that is locked), or faults (dereference of NULL or of an
    indeterminate pointer, access outside a block, read of a block that
    has been freed, free of a block that is not allocated). *)
Inductive outcome (A : Type) : Type :=
| Ret (a : A) (w : world)
| Blocked (w : world)
| Fault (w : world).
Arguments Ret {A} a w.
Arguments Blocked {A} w.
Arguments Fault {A} w.

Definition M (A : Type) : Type := world → outcome A.

Definition ret {A} (a : A) : M A := λ w, Ret a w.
Definition bind {A B} (m : M A) (k : A → M B) : M B :=
  λ w, match m w with
       | Ret a w' => k a w'
       | Blocked w' => Blocked w'
       | Fault w' => Fault w'
       end.

#[global] Instance M_ret : MRet M := @ret.
#[global] Instance M_bind : MBind M := λ A B k m, bind m k.

Definition fault {A} : M A := λ w, Fault w.
Definition block {A} : M A := λ w, Blocked w.
Definition emit (e : event) : M unit :=
  λ w, Ret tt (set_trace (trace w ++ [e]) w).
Definition ask : M answer :=
  λ w, match env w with
       | [] => Blocked w
       | a :: rest => Ret a (set_errno (a_errno a) (set_env rest w))
       end.
Definition get_errno : M Z := λ w, Ret (errno w) w.

(** [if (p)] on a pointer. *)
Definition truthy (p : pval) : M bool :=
  match p with
  | Null => mret false
  | Ptr _ => mret true
  | Junk => fault
  end.

Definition load (p : pval) : M obj :=
  λ w, match p with
       | Ptr a => match heap w !! a with
                  | Some o => Ret o w
                  | None => Fault w
                  end
       | _ => Fault w
       end.

Definition store (p : pval) (o : obj) : M unit :=
  λ w, match p with
       | Ptr a => match heap w !! a with
                  | Some _ => Ret tt (set_heap (<[a:=o]> (heap w)) w)
                  | None => Fault w
                  end
       | _ => Fault w
       end.

(** The view of a block as one type: a cast that the block's type has to
    match. *)
Definition as_trans (o : obj) : option msk_trans :=
  match o with OTrans t => Some t | _ => None end.
Definition as_ctxs (o : obj) : option (list msk_ctx) :=
  match o with OCtxs l => Some l | _ => None end.
Definition as_qp (o : obj) : option ibv_qp :=
  match o with OQp q => Some q | _ => None end.
Definition as_cq (o : obj) : option ibv_cq :=
  match o with OCq c => Some c | _ => None end.
Definition as_shm (o : obj) : option msk_shm :=
  match o with OShm s => Some s | _ => None end.
Definition as_sem (o : obj) : option msk_sem :=
  match o with OSem s => Some s | _ => None end.
Definition as_node (o : obj) : option msk_list :=
  match o with ONode n => Some n | _ => None end.
Definition as_data (o : obj) : option msk_data :=
  match o with OData d => Some d | _ => None end.
Definition as_seg (o : obj) : option segment :=
  match o with OSeg g => Some g | _ => None end.

Definition load_as {A} (view : obj → option A) (p : pval) : M A :=
  o ← load p; match view o with Some x => mret x | None => fault end.

(** [p->member = v]. *)
Definition upd_as {A} (view : obj → option A) (mk : A → obj) (p : pval)
    (f : A → A) : M unit :=
  x ← load_as view p; store p (mk (f x)).

Definition load_trans : pval → M msk_trans := load_as as_trans.
Definition load_ctxs : pval → M (list msk_ctx) := load_as as_ctxs.
Definition load_qp : pval → M ibv_qp := load_as as_qp.
Definition load_cq : pval → M ibv_cq := load_as as_cq.
Definition load_shm : pval → M msk_shm := load_as as_shm.
Definition load_sem : pval → M msk_sem := load_as as_sem.
Definition load_node : pval → M msk_list := load_as as_node.
Definition load_data : pval → M msk_data := load_as as_data.
Definition load_seg : pval → M segment := load_as as_seg.

Definition upd_trans : pval → (msk_trans → msk_trans) → M unit := upd_as as_trans OTrans.
Definition upd_qp : pval → (ibv_qp → ibv_qp) → M unit := upd_as as_qp OQp.
Definition upd_cq : pval → (ibv_cq → ibv_cq) → M unit := upd_as as_cq OCq.
Definition upd_shm : pval → (msk_shm → msk_shm) → M unit := upd_as as_shm OShm.
Definition upd_sem : pval → (msk_sem → msk_sem) → M unit := upd_as as_sem OSem.
Definition upd_node : pval → (msk_list → msk_list) → M unit := upd_as as_node ONode.
Definition upd_data : pval → (msk_data → msk_data) → M unit := upd_as as_data OData.
Definition upd_seg : pval → (segment → segment) → M unit := upd_as as_seg OSeg.

(** A slot [buf[i]]: an index past the end of the pool is outside the
    block. *)
Definition load_ctx (r : ctxref) : M msk_ctx :=
  l ← load_ctxs (cbase r);
  match l !! cidx r with Some c => mret c | None => fault end.
Definition upd_ctx (r : ctxref) (f : msk_ctx → msk_ctx) : M unit :=
  l ← load_ctxs (cbase r);
  match l !! cidx r with
  | Some c => store (cbase r) (OCtxs (<[cidx r:=f c]> l))
  | None => fault
  end.

(** ** The C library and the operating system *)

(** A block nobody has had before: its address was never handed out. *)
Definition fresh_block (init : obj) (is_malloc : bool) : M pval :=
  λ w, let l := fresh (dom (heap w)) in
       Ret (Ptr l)
         (set_live (if is_malloc then {[l]} ∪ live w else live w)
            (set_heap (<[l:=init]> (heap w)) w)).

(** [malloc]: the script says whether it succeeds; the new block holds
    [init], the block's type with indeterminate pointer members. *)
Definition malloc (init : obj) : M pval :=
  a ← ask;
  if a_ret a =? 0 then
    _ ← emit (EvMalloc Null); mret Null
  else
    p ← fresh_block init true; _ ← emit (EvMalloc p); mret p.

(** [free]: the block stops being allocated.  The heap keeps what the
    block held, so that its address is not handed out again; reading a
    block after it has been freed is undefined, and the one read of this
    kind in the file, [sem->ctx_head->next] right after
    [free(sem->ctx_head)], goes through [allocated]. *)
Definition release_block (a : loc) : M unit :=
  λ w, if decide (a ∈ live w)
       then Ret tt (set_live (live w ∖ {[a]}) w)
       else Fault w.

(** A use of the block [p] points to, which has to be allocated still. *)
Definition allocated (p : pval) : M unit :=
  λ w, match p with
       | Ptr a => if decide (a ∈ live w) then Ret tt w else Fault w
       | _ => Fault w
       end.

Definition free (p : pval) : M unit :=
  match p with
  | Null => emit (EvFree Null)
  | Junk => fault
  | Ptr a => _ ← release_block a; emit (EvFree p)
  end.

Definition read_bytes (b : gmap Z Z) (src : Z) (n : Z) : list Z :=
  (λ i, default 0 (b !! (src + i))) <$> seqZ 0 n.

Fixpoint write_bytes (b : gmap Z Z) (dst : Z) (l : list Z) : gmap Z Z :=
  match l with
  | [] => b
  | x :: l' => write_bytes (<[dst:=x]> b) (dst + 1) l'
  end.

Definition get_bytes : M (gmap Z Z) := λ w, Ret (bytes w) w.
Definition put_bytes (b : gmap Z Z) : M unit := λ w, Ret tt (set_bytes b w).

Definition memcpy (dst src n : Z) : M unit :=
  b ← get_bytes; put_bytes (write_bytes b dst (read_bytes b src n)).

Definition oscall (e : event) : M Z :=
  _ ← emit e; a ← ask; mret (a_ret a).

Definition shmget (key sz flags : Z) : M Z := oscall (EvShmget key sz flags).
Definition semget (key nsems flags : Z) : M Z := oscall (EvSemget key nsems flags).
Definition semop (id op : Z) : M Z := oscall (EvSemop id op).
Definition semctl_rmid (id : Z) : M unit := emit (EvSemctlRmid id).
Definition shmctl_rmid (id : Z) : M unit := emit (EvShmctlRmid id).

(** [shmat]: -1 is the failure value [(void * )-1]; any other answer is the
    address at which the segment's payload is mapped. *)
Definition shmat (id : Z) : M pval :=
  r ← oscall (EvShmat id);
  if r =? -1 then mret Junk
  else fresh_block (OSeg (Segment 0 r)) false.

(** The pthread calls on [&trans->lock] and [&trans->cond] read the
    connection block; a mutex on the caller's stack needs no block. *)
Definition touch (m : mutex) : M unit :=
  match m with
  | TransLock t => _ ← load_trans t; mret tt
  | LocalLock _ => mret tt
  end.

(** Whether the mutex at [addr] on a caller's stack is locked after the
    calls of a trace: the last call on it says. *)
Definition lock_event (addr : Z) (e : event) : option bool :=
  match e with
  | EvMutexLock (LocalLock a) => if a =? addr then Some true else None
  | EvMutexInit (LocalLock a) | EvMutexUnlock (LocalLock a)
  | EvMutexDestroy (LocalLock a) => if a =? addr then Some false else None
  | _ => None
  end.

Definition locked (addr : Z) (tr : list event) : bool :=
  default false (last (omap (lock_event addr) tr)).

(** When [pthread_mutex_lock] gets the mutex.  A mutex on a caller's stack
    is used by the calls of the trace only, and a caller that locks it
    while it is locked is suspended.  The lock of the connection changes
    hands inside [pthread_cond_wait], between threads of which one call
    shows nothing: a call on it is recorded and returns. *)
Definition acquire (m : mutex) : M unit :=
  match m with
  | TransLock _ => mret tt
  | LocalLock a => λ w, if locked a (trace w) then Blocked w else Ret tt w
  end.

Definition pthread_mutex_init (trans : pval) : M Z :=
  _ ← load_trans trans; oscall (EvMutexInit (TransLock trans)).
Definition pthread_cond_init (trans : pval) : M Z :=
  _ ← load_trans trans; oscall (EvCondInit trans).
Definition pthread_mutex_destroy (m : mutex) : M unit :=
  _ ← touch m; emit (EvMutexDestroy m).
Definition pthread_cond_destroy (trans : pval) : M unit :=
  _ ← load_trans trans; emit (EvCondDestroy trans).
Definition pthread_mutex_lock (m : mutex) : M unit :=
  _ ← touch m; _ ← acquire m; emit (EvMutexLock m).
Definition pthread_mutex_unlock (m : mutex) : M unit :=
  _ ← touch m; emit (EvMutexUnlock m).
Definition pthread_cond_broadcast (trans : pval) : M unit :=
  _ ← load_trans trans; emit (EvCondBroadcast trans).
Definition pthread_cond_wait (trans : pval) : M Z :=
  _ ← load_trans trans; oscall (EvCondWait trans).
Definition pthread_create (who : worker) (arg : pval) : M unit :=
  emit (EvSpawn who arg).
Definition pthread_exit : M unit := emit EvThreadExit.

(** ** trans_shm.c *)

(** [msk_semop]: the operation [op] on the semaphore that [send] selects.
    The SHM_SEM branch reads [semid] through an [msk_sem_t] view of the
    block [qp_context] points to, which is an [msk_shm_t]; the int that
    lies where the view has [semid] (after one [key_t]) is the block's
    [shmkey] (after one [int]). *)
Definition semid_view (p : pval) : M Z :=
  o ← load p;
  match o with
  | OSem s => mret (semid s)
  | OShm s => mret (shmkey s)
  | _ => fault
  end.

Definition msk_semop (trans : pval) (send op : Z) : M Z :=
  if send =? SEND_SEM then
    t ← load_trans trans; q ← load_qp (qp t); c ← load_cq (send_cq q);
    s ← load_sem (cq_context c);
    semop (semid s) op
  else if send =? RECV_SEM then
    t ← load_trans trans; q ← load_qp (qp t); c ← load_cq (recv_cq q);
    s ← load_sem (cq_context c);
    semop (semid s) op
  else if send =? SHM_SEM then
    t ← load_trans trans; q ← load_qp (qp t);
    id ← semid_view (qp_context q);
    semop id op
  else mret EINVAL.

(** [msk_wait_callback] (lines 720-723). *)
Definition msk_wait_callback (trans pd : pval) (arg : Z) : M unit :=
  pthread_mutex_unlock (LocalLock arg).

(** A call through a [ctx_callback_t].  A caller's function is opaque: its
    call is recorded and it is taken not to touch the connection. *)
Definition call_callback (who : worker) (f : fnptr) (trans pd : pval) (arg : Z) : M unit :=
  _ ← emit (EvCallback who f trans pd arg);
  match f with
  | WaitFn => msk_wait_callback trans pd arg
  | UserFn _ => mret tt
  end.

(** [if (!p || ...)]: true as soon as [p] is NULL. *)
Definition null_or (p : pval) (k : M bool) : M bool :=
  b ← truthy p; if (b : bool) then k else mret true.

(** [while (cond) body], unrolled at most [fuel] times; the loop that has
    not ended by then is still running. *)
Fixpoint loop (fuel : nat) (iter : M bool) : M unit :=
  match fuel with
  | O => block
  | S n => b ← iter; if (b : bool) then loop n iter else mret tt
  end.

(** After the message is in the segment the trace records what a reader of
    the segment finds there and the descriptor it was taken from. *)
Definition publish (src seg : pval) : M unit :=
  g ← load_seg seg; b ← get_bytes;
  emit (EvShmStore src (seg_size g) (read_bytes b (seg_payload g) (seg_size g))).

(** Lines 201-204 and 232-235: [free(sem->ctx_head);
    sem->ctx_head = sem->ctx_head->next; if (!sem->ctx_head)
    sem->ctx_last = NULL;].  The node whose [next] is read is the block
    the statement before has freed. *)
Definition drop_head (sem : pval) : M unit :=
  s ← load_sem sem; _ ← free (ctx_head s);
  s ← load_sem sem; _ ← allocated (ctx_head s); hd ← load_node (ctx_head s);
  _ ← upd_sem sem (set_ctx_head (next hd));
  s ← load_sem sem; b ← truthy (ctx_head s);
  if (b : bool) then mret tt else upd_sem sem (set_ctx_last Null).

(** Lines 193-200 of [msk_send_thread]. *)
Definition send_transfer (trans sem shmp : pval) : M ctxref :=
  s ← load_sem sem; hd ← load_node (ctx_head s);
  let c := ctx hd in
  _ ← msk_semop trans SHM_SEM (-1);
  sh ← load_shm shmp; cx ← load_ctx c; d ← load_data (pdata cx);
  _ ← upd_seg (shm sh) (set_seg_size (size d));
  sh ← load_shm shmp; g ← load_seg (shm sh);
  cx ← load_ctx c; d ← load_data (pdata cx);
  _ ← memcpy (seg_payload g) (data d) (size d);
  _ ← publish (pdata cx) (shm sh);
  _ ← msk_semop trans SHM_SEM 1;
  _ ← msk_semop trans SEND_SEM 1;
  cx ← load_ctx c;
  _ ← match callback cx with
      | Some f => call_callback Sender f trans (pdata cx) (callback_arg cx)
      | None => mret tt
      end;
  mret c.

(** Lines 205-206. *)
Definition send_release (trans : pval) (c : ctxref) : M unit :=
  _ ← upd_ctx c (set_used 0);
  pthread_cond_broadcast trans.

(** The body of the sender's loop, lines 192-207. *)
Definition send_service (trans sem shmp : pval) : M unit :=
  s ← load_sem sem; b ← truthy (ctx_head s);
  if (b : bool) then
    c ← send_transfer trans sem shmp;
    _ ← drop_head sem;
    send_release trans c
  else mret tt.

(** One turn of [while (!pthread_cond_wait(...))]: false when the loop ends. *)
Definition send_turn (trans sem shmp : pval) : M bool :=
  r ← pthread_cond_wait trans;
  if r =? 0 then _ ← send_service trans sem shmp; mret true
  else mret false.

Definition send_thread_unready (trans : pval) : M bool :=
  null_or trans (
    t ← load_trans trans;
    null_or (qp t) (
      q ← load_qp (qp t);
      null_or (send_cq q) (
        c ← load_cq (send_cq q);
        null_or (cq_context c) (
          q ← load_qp (qp t);
          null_or (qp_context q) (mret false))))).

Definition msk_send_thread (fuel : nat) (arg : pval) : M unit :=
  let trans := arg in
  bad ← send_thread_unready trans;
  if (bad : bool) then pthread_exit
  else
    t ← load_trans trans; q ← load_qp (qp t); c ← load_cq (send_cq q);
    let sem := cq_context c in
    let shmp := qp_context q in
    _ ← loop fuel (send_turn trans sem shmp);
    pthread_exit.

(** Lines 225-231 of [msk_recv_thread]. *)
Definition recv_transfer (trans sem shmp : pval) : M ctxref :=
  s ← load_sem sem; hd ← load_node (ctx_head s);
  let c := ctx hd in
  _ ← msk_semop trans SHM_SEM (-1);
  sh ← load_shm shmp; g ← load_seg (shm sh);
  cx ← load_ctx c;
  _ ← upd_data (pdata cx) (set_size (seg_size g));
  sh ← load_shm shmp; g ← load_seg (shm sh);
  cx ← load_ctx c; d ← load_data (pdata cx);
  _ ← memcpy (data d) (seg_payload g) (size d);
  _ ← msk_semop trans SHM_SEM 1;
  cx ← load_ctx c;
  _ ← match callback cx with
      | Some f => call_callback Receiver f trans (pdata cx) (callback_arg cx)
      | None => mret tt
      end;
  mret c.

(** Lines 236-239. *)
Definition recv_release (trans : pval) (c : ctxref) : M unit :=
  _ ← upd_ctx c (set_used 0);
  _ ← pthread_mutex_lock (TransLock trans);
  _ ← pthread_cond_broadcast trans;
  pthread_mutex_unlock (TransLock trans).

(** The body of the receiver's loop, lines 224-240. *)
Definition recv_service (trans sem shmp : pval) : M unit :=
  s ← load_sem sem; b ← truthy (ctx_head s);
  if (b : bool) then
    c ← recv_transfer trans sem shmp;
    _ ← drop_head sem;
    recv_release trans c
  else mret tt.

(** One turn of [while (!msk_semop(trans, RECV_SEM, -1))]. *)
Definition recv_turn (trans sem shmp : pval) : M bool :=
  r ← msk_semop trans RECV_SEM (-1);
  if r =? 0 then _ ← recv_service trans sem shmp; mret true
  else mret false.

Definition recv_thread_unready (trans : pval) : M bool :=
  null_or trans (
    t ← load_trans trans;
    null_or (qp t) (
      q ← load_qp (qp t);
      null_or (recv_cq q) (
        c ← load_cq (recv_cq q);
        null_or (cq_context c) (
          q ← load_qp (qp t);
          null_or (qp_context q) (mret false))))).

(** Lines 243-247: what the receiver does once its loop has ended. *)
Definition recv_thread_exit (trans : pval) : M unit :=
  _ ← upd_trans trans (set_state MSK_CLOSED);
  t ← load_trans trans;
  _ ← match disconnect_callback t with
      | Some f => emit (EvDisconnect f trans)
      | None => mret tt
      end;
  pthread_exit.

Definition msk_recv_thread (fuel : nat) (arg : pval) : M unit :=
  let trans := arg in
  bad ← recv_thread_unready trans;
  if (bad : bool) then pthread_exit
  else
    t ← load_trans trans; q ← load_qp (qp t); c ← load_cq (recv_cq q);
    let sem := cq_context c in
    let shmp := qp_context q in
    _ ← loop fuel (recv_turn trans sem shmp);
    recv_thread_exit trans.

Definition when (b : bool) (m : M unit) : M unit := if b then m else mret tt.

(** [msk_destroy_buffer] (lines 255-279). *)
Definition msk_destroy_buffer (trans : pval) : M unit :=
  t ← load_trans trans; b ← truthy (send_buf t);
  _ ← when b (t ← load_trans trans; free (send_buf t));
  t ← load_trans trans; b ← truthy (recv_buf t);
  _ ← when b (t ← load_trans trans; free (recv_buf t));
  t ← load_trans trans; q ← load_qp (qp t); c ← load_cq (send_cq q);
  b ← truthy (cq_context c);
  _ ← when b (
        s ← load_sem (cq_context c);
        _ ← semctl_rmid (semid s);
        free (cq_context c));
  t ← load_trans trans; q ← load_qp (qp t); b ← truthy (send_cq q);
  _ ← when b (free (send_cq q));
  t ← load_trans trans; q ← load_qp (qp t); c ← load_cq (recv_cq q);
  b ← truthy (cq_context c);
  _ ← when b (
        s ← load_sem (cq_context c);
        _ ← semctl_rmid (semid s);
        free (cq_context c));
  t ← load_trans trans; q ← load_qp (qp t); b ← truthy (qp_context q);
  _ ← when b (
        sh ← load_shm (qp_context q);
        _ ← shmctl_rmid (shmid sh);
        free (qp_context q));
  t ← load_trans trans; b ← truthy (qp t);
  when b (free (qp t)).

(** [msk_destroy_trans] (lines 287-297); the argument is [*ptrans]. *)
Definition msk_destroy_trans (trans : pval) : M unit :=
  _ ← msk_destroy_buffer trans;
  _ ← pthread_mutex_destroy (TransLock trans);
  _ ← pthread_cond_destroy trans;
  free trans.

(** What [memset(trans, 0, sizeof(msk_trans_t))] leaves, and what malloc
    hands out before it. *)
Definition zero_trans : msk_trans := MskTrans MSK_INIT 0 0 0 0 None Null Null Null.
Definition junk_trans : msk_trans := MskTrans MSK_INIT 0 0 0 0 None Junk Junk Junk.
Definition zero_ctx : msk_ctx := MskCtx 0 Null None 0.
Definition junk_ctx : msk_ctx := MskCtx 0 Junk None 0.
Definition junk_qp : ibv_qp := IbvQp Junk Junk Junk.
Definition junk_cq : ibv_cq := IbvCq Junk.
Definition junk_shm : msk_shm := MskShm 0 0 0 Junk 0 0.
Definition junk_sem : msk_sem := MskSem 0 0 Junk Junk.
Definition junk_node : msk_list := MskList (CtxRef Junk 0) Junk.

(** [msk_init] (lines 307-344); the result is the value returned and the
    pointer left in [*ptrans]. *)
Definition msk_init (attr : msk_trans_attr) : M (Z * pval) :=
  ptrans ← malloc (OTrans junk_trans);
  b ← truthy ptrans;
  if negb b then mret (ENOMEM, ptrans)
  else
    let trans := ptrans in
    _ ← store trans (OTrans zero_trans);
    _ ← upd_trans trans (set_state MSK_INIT);
    _ ← upd_trans trans (set_server (attr_server attr));
    _ ← upd_trans trans (set_timeout
          (if attr_timeout attr =? 0 then 3000000 else attr_timeout attr));
    _ ← upd_trans trans (set_sq_depth
          (if attr_sq_depth attr =? 0 then 5 else attr_sq_depth attr));
    _ ← upd_trans trans (set_rq_depth
          (if attr_rq_depth attr =? 0 then 5 else attr_rq_depth attr));
    _ ← upd_trans trans (set_disconnect_callback (attr_disconnect_callback attr));
    r ← pthread_mutex_init trans;
    if negb (r =? 0) then
      _ ← msk_destroy_trans trans; mret (r, ptrans)
    else
      r ← pthread_cond_init trans;
      if negb (r =? 0) then
        _ ← msk_destroy_trans trans; mret (r, ptrans)
      else mret (0, ptrans).

(** [ptr == (void * )-1]. *)
Definition is_minus_one (p : pval) : bool :=
  match p with Junk => true | _ => false end.

(** [msk_setup_buffer] (lines 352-459). *)
Definition msk_setup_buffer (trans : pval) : M Z :=
  t ← load_trans trans;
  p ← malloc (OCtxs (replicate (Z.to_nat (rq_depth t)) junk_ctx));
  _ ← upd_trans trans (set_recv_buf p);
  t ← load_trans trans; b ← truthy (recv_buf t);
  if negb b then mret ENOMEM
  else
  t ← load_trans trans;
  _ ← store (recv_buf t) (OCtxs (replicate (Z.to_nat (rq_depth t)) zero_ctx));
  t ← load_trans trans;
  p ← malloc (OCtxs (replicate (Z.to_nat (sq_depth t)) junk_ctx));
  _ ← upd_trans trans (set_send_buf p);
  t ← load_trans trans; b ← truthy (send_buf t);
  if negb b then _ ← msk_destroy_buffer trans; mret ENOMEM
  else
  t ← load_trans trans;
  _ ← store (send_buf t) (OCtxs (replicate (Z.to_nat (sq_depth t)) zero_ctx));
  p ← malloc (OQp junk_qp);
  _ ← upd_trans trans (set_qp p);
  t ← load_trans trans; b ← truthy (qp t);
  if negb b then _ ← msk_destroy_buffer trans; mret ENOMEM
  else
  p ← malloc (OShm junk_shm);
  t ← load_trans trans;
  _ ← upd_qp (qp t) (set_qp_context p);
  t ← load_trans trans; q ← load_qp (qp t); b ← truthy (qp_context q);
  if negb b then _ ← msk_destroy_buffer trans; mret ENOMEM
  else
  t ← load_trans trans; q ← load_qp (qp t);
  let shmp := qp_context q in
  _ ← upd_shm shmp (set_len SHM_SIZE);
  _ ← upd_shm shmp (set_shmkey SHM_KEY);
  sh ← load_shm shmp;
  id ← shmget (shmkey sh) SHM_SIZE SHM_FLAGS;
  _ ← upd_shm shmp (set_shmid id);
  sh ← load_shm shmp;
  if shmid sh =? -1 then e ← get_errno; mret e
  else
  sh ← load_shm shmp;
  m ← shmat (shmid sh);
  _ ← upd_shm shmp (set_shm m);
  sh ← load_shm shmp;
  if is_minus_one (shm sh) then e ← get_errno; mret e
  else
  _ ← upd_shm shmp (set_shm_semkey SHM_SEM_KEY);
  sh ← load_shm shmp;
  id ← semget (shm_semkey sh) 1 SHM_FLAGS;
  _ ← upd_shm shmp (set_shm_semid id);
  sh ← load_shm shmp;
  if shm_semid sh =? 0 then e ← get_errno; mret e
  else
  p ← malloc (OCq junk_cq);
  t ← load_trans trans;
  _ ← upd_qp (qp t) (set_send_cq p);
  t ← load_trans trans; q ← load_qp (qp t); b ← truthy (send_cq q);
  if negb b then _ ← msk_destroy_buffer trans; mret ENOMEM
  else
  p ← malloc (OSem junk_sem);
  t ← load_trans trans; q ← load_qp (qp t);
  _ ← upd_cq (send_cq q) (set_cq_context p);
  t ← load_trans trans; q ← load_qp (qp t); c ← load_cq (send_cq q);
  b ← truthy (cq_context c);
  if negb b then _ ← msk_destroy_buffer trans; mret ENOMEM
  else
  t ← load_trans trans; q ← load_qp (qp t); c ← load_cq (send_cq q);
  let sem := cq_context c in
  t ← load_trans trans;
  _ ← upd_sem sem (set_semkey
        (if server t =? 0 then CLIENT_SEND_SEM_KEY else SERVER_SEND_SEM_KEY));
  s ← load_sem sem;
  id ← semget (semkey s) 1 SHM_FLAGS;
  _ ← upd_sem sem (set_semid id);
  s ← load_sem sem;
  if semid s =? 0 then e ← get_errno; mret e
  else
  p ← malloc (OCq junk_cq);
  t ← load_trans trans;
  _ ← upd_qp (qp t) (set_recv_cq p);
  t ← load_trans trans; q ← load_qp (qp t); b ← truthy (recv_cq q);
  if negb b then _ ← msk_destroy_buffer trans; mret ENOMEM
  else
  p ← malloc (OSem junk_sem);
  t ← load_trans trans; q ← load_qp (qp t);
  _ ← upd_cq (recv_cq q) (set_cq_context p);
  t ← load_trans trans; q ← load_qp (qp t); c ← load_cq (recv_cq q);
  b ← truthy (cq_context c);
  if negb b then _ ← msk_destroy_buffer trans; mret ENOMEM
  else
  t ← load_trans trans; q ← load_qp (qp t); c ← load_cq (recv_cq q);
  let sem := cq_context c in
  t ← load_trans trans;
  _ ← upd_sem sem (set_semkey
        (if server t =? 0 then SERVER_SEND_SEM_KEY else CLIENT_SEND_SEM_KEY));
  s ← load_sem sem;
  id ← semget (semkey s) 1 SHM_FLAGS;
  _ ← upd_sem sem (set_semid id);
  s ← load_sem sem;
  if semid s =? 0 then e ← get_errno; mret e
  else mret 0.

Definition msk_bind_server (trans : pval) : M Z := mret 0.
Definition msk_start_cm_thread (trans : pval) : M Z := mret 0.

(** [msk_finalize_accept] (lines 493-499). *)
Definition msk_finalize_accept (trans : pval) : M Z :=
  _ ← msk_semop trans SHM_SEM (-1);
  _ ← msk_semop trans SHM_SEM 0;
  _ ← msk_semop trans SHM_SEM 1;
  mret 0.

(** [msk_accept_one] (lines 508-540).  The three [pthread_attr_*] calls
    only log when they fail and are left out. *)
Definition msk_accept_one (trans : pval) : M pval :=
  b ← truthy trans;
  if negb b then mret Null
  else
    r ← msk_setup_buffer trans;
    if negb (r =? 0) then mret Null
    else
      _ ← pthread_mutex_lock (TransLock trans);
      _ ← pthread_create Sender trans;
      _ ← pthread_create Receiver trans;
      _ ← msk_semop trans SHM_SEM 1;
      mret trans.

(** [msk_finalize_connect] (lines 546-551). *)
Definition msk_finalize_connect (trans : pval) : M Z :=
  _ ← msk_semop trans SHM_SEM (-1);
  _ ← msk_semop trans SHM_SEM 0;
  mret 0.

(** [msk_connect] (lines 560-592). *)
Definition msk_connect (trans : pval) : M Z :=
  b ← truthy trans;
  if negb b then mret EINVAL
  else
    r ← msk_setup_buffer trans;
    if negb (r =? 0) then mret r
    else
      _ ← pthread_mutex_lock (TransLock trans);
      _ ← pthread_create Sender trans;
      _ ← pthread_create Receiver trans;
      _ ← msk_semop trans SHM_SEM 1;
      mret 0.

(** The scan [for (i = 0, ctx = buf; i < depth; i++, ctx++) if (!ctx->used)
    break;]: the index it stops at ([depth] when every slot is in use), or
    nothing when it reads past the end of the pool. *)
Fixpoint first_unused (l : list msk_ctx) (n : nat) (i : nat) : option nat :=
  match n with
  | O => Some i
  | S n' =>
      match l !! i with
      | None => None
      | Some c => if used c =? 0 then Some i else first_unused l n' (S i)
      end
  end.

(** Lines 634-637 and 692-695: the slot is taken and filled. *)
Definition fill_slot (c : ctxref) (pd : pval) (cb : option fnptr) (arg : Z) : M unit :=
  _ ← upd_ctx c (set_used 1);
  _ ← upd_ctx c (set_pdata pd);
  _ ← upd_ctx c (set_callback cb);
  upd_ctx c (set_callback_arg arg).

(** Lines 640-649 and 698-707: a node for the slot is appended to the
    list anchored at [sem]. *)
Definition enqueue (sem : pval) (c : ctxref) : M unit :=
  elem ← malloc (ONode junk_node);
  _ ← upd_node elem (set_ctx c);
  _ ← upd_node elem (set_next Null);
  s ← load_sem sem; b ← truthy (ctx_last s);
  _ ← (if (b : bool) then upd_node (ctx_last s) (set_next elem)
       else upd_sem sem (set_ctx_head elem));
  upd_sem sem (set_ctx_last elem).

(** The do-while of lines 618-630 and 676-688: the scan for a free slot
    of the pool that [buf] and [depth] select, and, for as long as the
    scan ends at [depth], a wait on the condition and another scan.  The
    result is the slot the last scan stopped at.  [n] bounds the number
    of scans. *)
Fixpoint find_slot (n : nat) (trans : pval) (buf : msk_trans → pval)
    (depth : msk_trans → Z) : M ctxref :=
  match n with
  | O => block
  | S n' =>
      t ← load_trans trans; l ← load_ctxs (buf t);
      match first_unused l (Z.to_nat (depth t)) 0 with
      | None => fault
      | Some i =>
          if Z.of_nat i =? depth t then
            _ ← pthread_cond_wait trans; find_slot n' trans buf depth
          else mret (CtxRef (buf t) i)
      end
  end.

(** A wait that returns has taken an answer from the script, so the
    do-while makes at most one scan more than the script has answers. *)
Definition scans : M nat := λ w, Ret (S (length (env w))) w.

(** [msk_post_n_recv] (lines 609-654). *)
Definition msk_post_n_recv (trans pd : pval) (num_sge : Z) (mr : pval)
    (cb err_callback : option fnptr) (arg : Z) : M Z :=
  _ ← pthread_mutex_lock (TransLock trans);
  n ← scans;
  rctx ← find_slot n trans recv_buf rq_depth;
  _ ← fill_slot rctx pd cb arg;
  t ← load_trans trans; q ← load_qp (qp t); c ← load_cq (recv_cq q);
  let sem := cq_context c in
  _ ← enqueue sem rctx;
  _ ← pthread_mutex_unlock (TransLock trans);
  mret 0.

(** [msk_post_n_send] (lines 668-714). *)
Definition msk_post_n_send (trans pd : pval) (num_sge : Z) (mr : pval)
    (cb err_callback : option fnptr) (arg : Z) : M Z :=
  _ ← pthread_mutex_lock (TransLock trans);
  n ← scans;
  wctx ← find_slot n trans send_buf sq_depth;
  _ ← fill_slot wctx pd cb arg;
  t ← load_trans trans; q ← load_qp (qp t); c ← load_cq (send_cq q);
  let sem := cq_context c in
  _ ← enqueue sem wctx;
  _ ← pthread_cond_broadcast trans;
  _ ← pthread_mutex_unlock (TransLock trans);
  mret 0.

(** Lines 742-748 and 766-772: when the post has returned 0 the caller
    locks its mutex a second time, which suspends it until
    [msk_wait_callback] has unlocked the mutex; [lock] is the address of
    the mutex on the caller's stack. *)
Definition wait_done (lock : Z) (r : Z) : M Z :=
  _ ← when (r =? 0) (
        _ ← pthread_mutex_lock (LocalLock lock);
        _ ← pthread_mutex_unlock (LocalLock lock);
        pthread_mutex_destroy (LocalLock lock));
  mret r.

(** [msk_wait_n_recv] (lines 735-749); the mutex starts from
    [PTHREAD_MUTEX_INITIALIZER]. *)
Definition msk_wait_n_recv (lock : Z) (trans pd : pval) (num_sge : Z) (mr : pval) : M Z :=
  _ ← emit (EvMutexInit (LocalLock lock));
  _ ← pthread_mutex_lock (LocalLock lock);
  r ← msk_post_n_recv trans pd num_sge mr (Some WaitFn) (Some WaitFn) lock;
  wait_done lock r.

(** [msk_wait_n_send] (lines 759-773). *)
Definition msk_wait_n_send (lock : Z) (trans pd : pval) (num_sge : Z) (mr : pval) : M Z :=
  _ ← emit (EvMutexInit (LocalLock lock));
  _ ← pthread_mutex_lock (LocalLock lock);
  r ← msk_post_n_send trans pd num_sge mr (Some WaitFn) (Some WaitFn) lock;
  wait_done lock r.

(** The four remote-memory entry points (lines 776-791). *)
Definition msk_post_n_read (trans pd : pval) (num_sge : Z) (mr rloc : pval)
    (cb err_callback : option fnptr) (arg : Z) : M Z := mret 0.
Definition msk_post_n_write (trans pd : pval) (num_sge : Z) (mr rloc : pval)
    (cb err_callback : option fnptr) (arg : Z) : M Z := mret 0.
Definition msk_wait_n_read (trans pd : pval) (num_sge : Z) (mr rloc : pval) : M Z :=
  mret 0.
Definition msk_wait_n_write (trans pd : pval) (num_sge : Z) (mr rloc : pval) : M Z :=
  mret 0.

(** The peer process writes a message of [n] bytes into the segment. *)
Definition peer_store (shmp : pval) (n : Z) (payload : list Z) : M unit :=
  sh ← load_shm shmp;
  _ ← upd_seg (shm sh) (set_seg_size n);
  g ← load_seg (shm sh);
  b ← get_bytes;
  put_bytes (write_bytes b (seg_payload g) payload).

(** ** What a trace shows to the outside *)
Definition stores (tr : list event) : list pval :=
  omap (λ e, match e with EvShmStore src _ _ => Some src | _ => None end) tr.

Definition is_worker (a b : worker) : bool :=
  match a, b with
  | Sender, Sender | Receiver, Receiver => true
  | _, _ => false
  end.

Definition completions (who : worker) (tr : list event) : list (fnptr * pval * Z) :=
  omap (λ e, match e with
             | EvCallback who' f _ pd arg =>
                 if is_worker who who' then Some (f, pd, arg) else None
             | _ => None
             end) tr.

Definition disconnects (tr : list event) : list fnptr :=
  omap (λ e, match e with EvDisconnect f _ => Some f | _ => None end) tr.

Definition semops (id : Z) (tr : list event) : list Z :=
  omap (λ e, match e with
             | EvSemop id' o => if id' =? id then Some o else None
             | _ => None
             end) tr.

(** ** The queue as a linked list in the heap *)

(** [chain h buf p ns]: from pointer [p] the [next] members lead through
    the nodes [ns] (address and slot index, in order) to NULL. *)
Fixpoint chain (h : gmap loc obj) (buf : pval) (p : pval) (ns : list (loc * nat)) : Prop :=
  match ns with
  | [] => p = Null
  | ni :: ns' =>
      p = Ptr ni.1 ∧
      ∃ nx, h !! ni.1 = Some (ONode (MskList (CtxRef buf ni.2) nx)) ∧ chain h buf nx ns'
  end.

Definition last_ptr (ns : list (loc * nat)) : pval :=
  match last ns with
  | Some ni => Ptr ni.1
  | None => Null
  end.

(** The in-use flag of the slot [c] is set. *)
Definition slot_in_use (h : gmap loc obj) (c : ctxref) : Prop :=
  ∃ b l x, cbase c = Ptr b ∧ h !! b = Some (OCtxs l) ∧ l !! cidx c = Some x ∧ used x ≠ 0.

(** ** Specifications of computations *)

(** [wpx true m w Q]: from [w] the computation returns, and [Q] holds of
    the value and the world it returns.  [wpx false m w Q]: [Q] holds if
    it returns. *)
Definition wpx (strict : bool) {A} (m : M A) (w : world) (Q : A → world → Prop) : Prop :=
  match m w with
  | Ret a w' => Q a w'
  | _ => strict = false
  end.

Abbreviation wp := (wpx true).
Abbreviation wlp := (wpx false).


(** ** A connection to try things on

    A client connection with queues of depth 2 in both directions, its
    blocks laid out as [msk_init] and [msk_connect] allocate them.  The
    anchors of its two queues, which setup leaves as [malloc] handed them
    out, are NULL here: the queues are empty lists.  With it come four
    descriptors of the caller: the payloads of scenario A of the
    specification (4, 8 and 16 bytes) and an empty buffer of 4 bytes. *)
Definition demo_heap : gmap loc obj :=
  list_to_map
    [ (1%positive, OTrans (MskTrans MSK_INIT 0 3000000 2 2 (Some (UserFn 99))
                             (Ptr 3) (Ptr 2) (Ptr 4)));
      (2%positive, OCtxs [zero_ctx; zero_ctx]);
      (3%positive, OCtxs [zero_ctx; zero_ctx]);
      (4%positive, OQp (IbvQp (Ptr 5) (Ptr 7) (Ptr 9)));
      (5%positive, OShm (MskShm 7 SHM_KEY SHM_SIZE (Ptr 6) SHM_SEM_KEY 8));
      (6%positive, OSeg (Segment 0 4096));
      (7%positive, OCq (IbvCq (Ptr 8)));
      (8%positive, OSem (MskSem CLIENT_SEND_SEM_KEY 9 Null Null));
      (9%positive, OCq (IbvCq (Ptr 10)));
      (10%positive, OSem (MskSem SERVER_SEND_SEM_KEY 10 Null Null));
      (11%positive, OData (MskData 4 4 1000));
      (12%positive, OData (MskData 8 8 2000));
      (13%positive, OData (MskData 16 16 3000));
      (14%positive, OData (MskData 4 0 5000)) ].

Definition demo_live : gset loc :=
  list_to_set [1; 2; 3; 4; 5; 7; 8; 9; 10]%positive.

Definition demo_bytes : gmap Z Z :=
  write_bytes (write_bytes (write_bytes ∅ 1000 (replicate 4 65))
                 2000 (replicate 8 66)) 3000 (replicate 16 67).

Definition demo_world (script : list answer) : world :=
  World demo_heap demo_live demo_bytes 0 script [].

Definition empty_world (script : list answer) : world :=
  World ∅ ∅ ∅ 0 script [].

Definition demo_attr : msk_trans_attr := MskTransAttr 0 0 2 0 (Some (UserFn 99)).

(** An answer of the operating system that reports success. *)
Definition ok (r : Z) : answer := Answer r 0.

(** The world [msk_init] leaves for [demo_attr] when it starts from
    nothing. *)
Definition init_world (script : list answer) : world :=
  World {[ 1%positive := OTrans (MskTrans MSK_INIT 0 3000000 2 5 (Some (UserFn 99))
                                   Null Null Null) ]}
        {[ 1%positive ]} ∅ 0 script
        [EvMalloc (Ptr 1); EvMutexInit (TransLock (Ptr 1)); EvCondInit (Ptr 1)].

Definition frees (tr : list event) : list pval :=
  omap (λ e, match e with EvFree p => Some p | _ => None end) tr.

(** [pres I m]: the computation keeps [I] whenever it returns. *)
Definition pres {A} (I : world → Prop) (m : M A) : Prop :=
  ∀ w, I w → wlp m w (λ _ w', I w').

(** The connection block at [a] holds [t0] and the disconnect callback has
    been called for [d]. *)
Definition keeps (a : loc) (t0 : msk_trans) (d : list fnptr) (w : world) : Prop :=
  heap w !! a = Some (OTrans t0) ∧ disconnects (trace w) = d.

Definition is_disconnect (e : event) : bool :=
  match e with EvDisconnect _ _ => true | _ => false end.

(** ** A connection with well-formed queues *)

(** Where the blocks of a connection are, and the depths of its pools. *)
Record conn : Type := Conn {
  c_trans : loc;
  c_sbuf : loc;
  c_rbuf : loc;
  c_qp : loc;
  c_scq : loc;
  c_rcq : loc;
  c_ssem : loc;
  c_rsem : loc;
  c_shm : loc;
  c_sdepth : Z;
  c_rdepth : Z }.

(** The pointers of the connection lead to those blocks. *)
Definition skeleton (k : conn) (h : gmap loc obj) : Prop :=
  ∃ tr qv,
    h !! c_trans k = Some (OTrans tr) ∧
    send_buf tr = Ptr (c_sbuf k) ∧ recv_buf tr = Ptr (c_rbuf k) ∧
    qp tr = Ptr (c_qp k) ∧
    sq_depth tr = c_sdepth k ∧ rq_depth tr = c_rdepth k ∧
    h !! c_qp k = Some (OQp qv) ∧
    send_cq qv = Ptr (c_scq k) ∧ recv_cq qv = Ptr (c_rcq k) ∧
    qp_context qv = Ptr (c_shm k) ∧
    h !! c_scq k = Some (OCq (IbvCq (Ptr (c_ssem k)))) ∧
    h !! c_rcq k = Some (OCq (IbvCq (Ptr (c_rsem k)))) ∧
    c_sbuf k ≠ c_rbuf k ∧ c_ssem k ≠ c_rsem k.

(** The queue anchored at [sem] over the pool [buf]: its nodes [ns], from
    head to tail, and the contents [cs] of the slots they hold.  The list
    ends in NULL, the tail anchor is the last node, no node and no slot
    occurs twice, and every slot of the queue is in use. *)
Definition queue_ok (h : gmap loc obj) (buf sem : loc) (depth : Z)
    (ns : list (loc * nat)) (cs : list msk_ctx) : Prop :=
  ∃ s slots,
    h !! sem = Some (OSem s) ∧
    chain h (Ptr buf) (ctx_head s) ns ∧
    ctx_last s = last_ptr ns ∧
    h !! buf = Some (OCtxs slots) ∧
    length slots = Z.to_nat depth ∧
    Forall2 (λ ni c, slots !! ni.2 = Some c ∧ used c ≠ 0) ns cs ∧
    NoDup ns.*1 ∧ NoDup ns.*2.

Definition conn_ok (k : conn) (h : gmap loc obj)
    (sns rns : list (loc * nat)) (scs rcs : list msk_ctx) : Prop :=
  skeleton k h ∧
  queue_ok h (c_sbuf k) (c_ssem k) (c_sdepth k) sns scs ∧
  queue_ok h (c_rbuf k) (c_rsem k) (c_rdepth k) rns rcs ∧
  sns.*1 ## rns.*1.

(** A connected connection nothing has been posted on yet. *)
Definition conn_idle (k : conn) (h : gmap loc obj) : Prop := conn_ok k h [] [] [] [].

Definition demo_conn : conn := Conn 1 3 2 4 7 9 8 10 5 2 2.

(** The heap after a node at the new address [n] for slot [i] has been
    appended to the queue with nodes [ns] anchored at [sem]. *)
Definition enqueued (h : gmap loc obj) (buf sem : loc) (s : msk_sem)
    (ns : list (loc * nat)) (n : loc) (i : nat) : gmap loc obj :=
  let h1 := <[n:=ONode (MskList (CtxRef (Ptr buf) i) Null)]> h in
  match last ns with
  | Some (ln, li) =>
      <[sem:=OSem (set_ctx_last (Ptr n) s)]>
        (<[ln:=ONode (MskList (CtxRef (Ptr buf) li) (Ptr n))]> h1)
  | None =>
      <[sem:=OSem (set_ctx_last (Ptr n) (set_ctx_head (Ptr n) s))]> h1
  end.

Definition world_of {A} (o : outcome A) : world :=
  match o with Ret _ w | Blocked w | Fault w => w end.

(** [demo_conn] after a receive into the 4-byte buffer has been posted and
    the peer has stored a message of 8 bytes. *)
Definition demo_recv_world (script : list answer) : world :=
  set_env script
    (world_of ((_ ← msk_post_n_recv (Ptr 1) (Ptr 14) 1 Null (Some (UserFn 7))
                      (Some (UserFn 7)) 0;
                peer_store (Ptr 5) 8 (replicate 8 66)) (demo_world [ok 1]))).

(** ** What a successful setup leaves

    [built k g t shmid addr mid sid rid h]: in the heap [h] the connection
    block of [k] is [t] with its three pointers set, the two pools hold
    as many zeroed slots as [t] asks for, and the queue pair leads to the
    segment descriptor (segment [g] mapped at [addr]) and to the two
    semaphore blocks, whose keys depend on the role of the connection and
    whose queue anchors are as [malloc] handed them out. *)
Definition built (k : conn) (g : loc) (t : msk_trans) (shmid_ addr mid sid rid : Z)
    (h : gmap loc obj) : Prop :=
  h !! c_trans k
  = Some (OTrans (MskTrans (state t) (server t) (timeout t) (sq_depth t) (rq_depth t)
                    (disconnect_callback t)
                    (Ptr (c_sbuf k)) (Ptr (c_rbuf k)) (Ptr (c_qp k)))) ∧
  h !! c_rbuf k = Some (OCtxs (replicate (Z.to_nat (rq_depth t)) zero_ctx)) ∧
  h !! c_sbuf k = Some (OCtxs (replicate (Z.to_nat (sq_depth t)) zero_ctx)) ∧
  h !! c_qp k = Some (OQp (IbvQp (Ptr (c_shm k)) (Ptr (c_scq k)) (Ptr (c_rcq k)))) ∧
  h !! c_shm k = Some (OShm (MskShm shmid_ SHM_KEY SHM_SIZE (Ptr g) SHM_SEM_KEY mid)) ∧
  h !! g = Some (OSeg (Segment 0 addr)) ∧
  h !! c_scq k = Some (OCq (IbvCq (Ptr (c_ssem k)))) ∧
  h !! c_ssem k
  = Some (OSem (MskSem (if server t =? 0 then CLIENT_SEND_SEM_KEY
                        else SERVER_SEND_SEM_KEY) sid Junk Junk)) ∧
  h !! c_rcq k = Some (OCq (IbvCq (Ptr (c_rsem k)))) ∧
  h !! c_rsem k
  = Some (OSem (MskSem (if server t =? 0 then SERVER_SEND_SEM_KEY
                        else CLIENT_SEND_SEM_KEY) rid Junk Junk)).

(** The blocks of [k] and the segment block, and the calls a successful
    setup makes, in order. *)
Definition conn_blocks (k : conn) (g : loc) : list loc :=
  [c_rbuf k; c_sbuf k; c_qp k; c_shm k; g; c_scq k; c_ssem k; c_rcq k; c_rsem k].

Definition setup_calls (k : conn) (t : msk_trans) (shmid_ : Z) : list event :=
  [ EvMalloc (Ptr (c_rbuf k)); EvMalloc (Ptr (c_sbuf k)); EvMalloc (Ptr (c_qp k));
    EvMalloc (Ptr (c_shm k));
    EvShmget SHM_KEY SHM_SIZE SHM_FLAGS; EvShmat shmid_;
    EvSemget SHM_SEM_KEY 1 SHM_FLAGS;
    EvMalloc (Ptr (c_scq k)); EvMalloc (Ptr (c_ssem k));
    EvSemget (if server t =? 0 then CLIENT_SEND_SEM_KEY else SERVER_SEND_SEM_KEY)
      1 SHM_FLAGS;
    EvMalloc (Ptr (c_rcq k)); EvMalloc (Ptr (c_rsem k));
    EvSemget (if server t =? 0 then SERVER_SEND_SEM_KEY else CLIENT_SEND_SEM_KEY)
      1 SHM_FLAGS ].

(** The blocks [malloc] has handed out for [k]: the segment is mapped, not
    allocated. *)
Definition conn_allocated (k : conn) : gset loc :=
  {[c_rsem k]} ∪ ({[c_rcq k]} ∪ ({[c_ssem k]} ∪ ({[c_scq k]} ∪ ({[c_shm k]} ∪
    ({[c_qp k]} ∪ ({[c_sbuf k]} ∪ {[c_rbuf k]})))))).


(** [faults m w]: from [w] the computation reaches a dereference of NULL
    or of an indeterminate pointer, an access outside a block, a read of
    a block that has been freed or a free of a block that is not
    allocated. *)
Definition faults {A} (m : M A) (w : world) : Prop := ∃ w', m w = Fault w'.

(** An answer of the operating system by which every call of setup
    succeeds, and the script of a setup that succeeds with the
    identifiers 7 (segment), 8, 9 and 10 (semaphore sets) and the segment
    mapped at 4096. *)
Definition demo_setup_script : list answer :=
  [ok 1; ok 1; ok 1; ok 1; ok 7; ok 4096; ok 8; ok 1; ok 1; ok 9; ok 1; ok 1; ok 10].

(** The connection of [init_world] once setup has built it: the pools are
    blocks 2 and 3, the queue pair 4, the segment descriptor 5, the
    segment 6, and the completion queues and semaphore blocks 7 to 10. *)
Definition demo_built_world (script : list answer) : world :=
  set_env script (world_of (msk_setup_buffer (Ptr 1) (init_world demo_setup_script))).

Definition demo_built_conn : conn := Conn 1 3 2 4 7 9 8 10 5 2 5.

(** The calls [msk_destroy_buffer] makes on a connection that was set up,
    in order. *)
Definition destroy_calls (k : conn) (shmid_ sid rid : Z) : list event :=
  [ EvFree (Ptr (c_sbuf k)); EvFree (Ptr (c_rbuf k));
    EvSemctlRmid sid; EvFree (Ptr (c_ssem k)); EvFree (Ptr (c_scq k));
    EvSemctlRmid rid; EvFree (Ptr (c_rsem k));
    EvShmctlRmid shmid_; EvFree (Ptr (c_shm k)); EvFree (Ptr (c_qp k)) ].

(** [demo_conn] after [payload 11] has been posted for sending with the
    completion callback 1, and [demo_conn] with a second connection that
    shares its segment and has posted a receive into the 4-byte buffer. *)
Definition demo_send_world (script : list answer) : world :=
  set_env script
    (world_of (msk_post_n_send (Ptr 1) (Ptr 11) 1 Null (Some (UserFn 1)) None 0
                 (demo_world [ok 1]))).

Definition demo_peer_heap : gmap loc obj :=
  list_to_map
    [ (21%positive, OTrans (MskTrans MSK_INIT 1 3000000 2 2 None
                              (Ptr 23) (Ptr 22) (Ptr 24)));
      (22%positive, OCtxs [MskCtx 1 (Ptr 14) (Some (UserFn 7)) 0; zero_ctx]);
      (23%positive, OCtxs [zero_ctx; zero_ctx]);
      (24%positive, OQp (IbvQp (Ptr 25) (Ptr 27) (Ptr 29)));
      (25%positive, OShm (MskShm 7 SHM_KEY SHM_SIZE (Ptr 6) SHM_SEM_KEY 8));
      (27%positive, OCq (IbvCq (Ptr 28)));
      (28%positive, OSem (MskSem SERVER_SEND_SEM_KEY 10 Null Null));
      (29%positive, OCq (IbvCq (Ptr 30)));
      (30%positive, OSem (MskSem CLIENT_SEND_SEM_KEY 9 (Ptr 31) (Ptr 31)));
      (31%positive, ONode (MskList (CtxRef (Ptr 22) 0) Null)) ].

Definition demo_pair_world (script : list answer) : world :=
  let w := demo_send_world script in
  World (demo_peer_heap ∪ heap w)
        (list_to_set [21; 22; 23; 24; 25; 27; 28; 29; 30; 31]%positive ∪ live w)
        (bytes w) (errno w) script (trace w).

(** [demo_conn] with both slots of its send pool in use: two sends posted,
    none serviced. *)
Definition demo_full_world (script : list answer) : world :=
  set_env script
    (world_of ((_ ← msk_post_n_send (Ptr 1) (Ptr 11) 1 Null None None 0;
                msk_post_n_send (Ptr 1) (Ptr 12) 1 Null None None 0)
                 (demo_world [ok 1; ok 1]))).

(** ** What a worker does with the request at the head of its queue

    The calls of lines 194-200 and 226-231 for the request in the slot
    [cx] of the connection at [a], in order: the semaphore operations, the
    store into the segment that the peer can see, and the call of the
    completion callback with what [msk_wait_callback] does when it is the
    callback.  [dd] is the descriptor the slot points to and [b] the byte
    memory the message is read from. *)
Definition callback_calls (who : worker) (a : loc) (cx : msk_ctx) : list event :=
  match callback cx with
  | Some f =>
      EvCallback who f (Ptr a) (pdata cx) (callback_arg cx) ::
      match f with
      | WaitFn => [EvMutexUnlock (LocalLock (callback_arg cx))]
      | UserFn _ => []
      end
  | None => []
  end.

Definition send_calls (a : loc) (sh : msk_shm) (s : msk_sem) (cx : msk_ctx)
    (dd : msk_data) (b : gmap Z Z) : list event :=
  [ EvSemop (shmkey sh) (-1);
    EvShmStore (pdata cx) (size dd) (read_bytes b (data dd) (size dd));
    EvSemop (shmkey sh) 1; EvSemop (semid s) 1 ] ++ callback_calls Sender a cx.

Definition recv_calls (a : loc) (sh : msk_shm) (cx : msk_ctx) : list event :=
  [ EvSemop (shmkey sh) (-1); EvSemop (shmkey sh) 1 ] ++ callback_calls Receiver a cx.

(** The world after the sender has put the message of [dd] into the
    segment [g] and after the receiver has taken the message of the
    segment [sg] into the buffer of [dd] at [d]; [e] and [rest] are what is
    left of the script. *)
Definition sent (g : loc) (sg : segment) (dd : msk_data) (e : Z) (rest : list answer)
    (evs : list event) (w : world) : world :=
  World (<[g:=OSeg (Segment (size dd) (seg_payload sg))]> (heap w)) (live w)
    (write_bytes (bytes w) (seg_payload sg) (read_bytes (bytes w) (data dd) (size dd)))
    e rest (trace w ++ evs).

Definition received (d : loc) (sg : segment) (dd : msk_data) (e : Z) (rest : list answer)
    (evs : list event) (w : world) : world :=
  World (<[d:=OData (MskData (max_size dd) (seg_size sg) (data dd))]> (heap w)) (live w)
    (write_bytes (bytes w) (data dd) (read_bytes (bytes w) (seg_payload sg) (seg_size sg)))
    e rest (trace w ++ evs).

(** The block at [n] has been freed. *)
Definition freed (n : loc) (w : world) : world :=
  World (heap w) (live w ∖ {[n]}) (bytes w) (errno w) (env w) (trace w ++ [EvFree (Ptr n)]).

(** ** Memory regions

    [msk_reg_mr], [msk_dereg_mr] and [msk_make_rloc] (lines 109-156) work
    on blocks of their own, which no other function of the file reads. *)

(** Modelled from the spec: the members of [struct ibv_mr] (verbs.h) and
    of [msk_rloc_t] (mooshika.h) that the file uses.  A member that has
    not been written since [malloc] is [None]. *)
Record ibv_mr : Type := IbvMr {
  mr_addr : option Z;
  mr_length : option Z;
  mr_rkey : option Z }.

Record msk_rloc : Type := MskRloc {
  raddr : option Z;
  rkey : option Z;
  rloc_size : option Z }.

Inductive reg_block : Type :=
| BMr (m : ibv_mr)
| BRloc (r : msk_rloc).

Record reg_world : Type := RegWorld {
  reg_heap : gmap loc reg_block;
  reg_live : gset loc }.

(** [malloc], succeeding or not as [avail] says. *)
Definition reg_malloc (avail : bool) (init : reg_block) (w : reg_world) : pval * reg_world :=
  if avail then
    let l := fresh (dom (reg_heap w)) in
    (Ptr l, RegWorld (<[l:=init]> (reg_heap w)) ({[l]} ∪ reg_live w))
  else (Null, w).

(** [msk_reg_mr] (lines 109-120). *)
Definition msk_reg_mr (avail : bool) (trans : pval) (memaddr size access : Z)
    (w : reg_world) : pval * reg_world :=
  let '(mr, w1) := reg_malloc avail (BMr (IbvMr None None None)) w in
  match mr with
  | Ptr l =>
      (mr, RegWorld (<[l:=BMr (IbvMr (Some memaddr) (Some size) None)]> (reg_heap w1))
             (reg_live w1))
  | _ => (Null, w1)
  end.

(** [msk_dereg_mr] (lines 129-132); nothing when [free] is given a block
    that is not allocated. *)
Definition msk_dereg_mr (mr : pval) (w : reg_world) : option (Z * reg_world) :=
  match mr with
  | Null => Some (0, w)
  | Ptr l =>
      if decide (l ∈ reg_live w)
      then Some (0, RegWorld (reg_heap w) (reg_live w ∖ {[l]}))
      else None
  | Junk => None
  end.

(** [msk_make_rloc] (lines 143-156); nothing when [mr] does not point to
    a region. *)
Definition msk_make_rloc (avail : bool) (mr : pval) (addr size : Z)
    (w : reg_world) : option (pval * reg_world) :=
  let '(rloc, w1) := reg_malloc avail (BRloc (MskRloc None None None)) w in
  match rloc with
  | Ptr l =>
      match mr with
      | Ptr m =>
          match reg_heap w1 !! m with
          | Some (BMr v) =>
              Some (rloc,
                    RegWorld (<[l:=BRloc (MskRloc (Some addr) (mr_rkey v) (Some size))]>
                                (reg_heap w1))
                      (reg_live w1))
          | _ => None
          end
      | _ => None
      end
  | _ => Some (Null, w1)
  end.
(** ** Reasoning about computations *)

Create HintDb mdefs discriminated.
#[global] Hint Unfold load_trans load_ctxs load_qp load_cq load_shm load_sem
  load_node load_data load_seg upd_trans upd_qp upd_cq upd_shm upd_sem
  upd_node upd_data upd_seg oscall semop shmget semget semctl_rmid shmctl_rmid
  pthread_mutex_init pthread_cond_init pthread_mutex_destroy
  pthread_cond_destroy pthread_mutex_lock pthread_mutex_unlock
  pthread_cond_broadcast pthread_cond_wait pthread_create pthread_exit
  touch memcpy when publish : mdefs.

Section Rules.
Context {A B : Type} (s : bool).
Implicit Types (w : world) (Q : A → world → Prop).

Lemma wpx_ret (a : A) w Q : Q a w → wpx s (mret a) w Q.
Proof. done. Qed.

Lemma wpx_bind (m : M A) (k : A → M B) w (R : B → world → Prop) :
  wpx s m w (λ a w', wpx s (k a) w' R) → wpx s (m ≫= k) w R.
Proof. unfold wpx, mbind, M_bind, bind. by destruct (m w). Qed.

Lemma wpx_mono (m : M A) w Q (Q' : A → world → Prop) :
  wpx s m w Q → (∀ a w', Q a w' → Q' a w') → wpx s m w Q'.
Proof. unfold wpx. destruct (m w); eauto. Qed.

Lemma wpx_of_eq (m : M A) w a w' Q : m w = Ret a w' → Q a w' → wpx s m w Q.
Proof. unfold wpx. by intros ->. Qed.

End Rules.

Lemma wp_elim {A} (m : M A) w Q : wp m w Q → ∃ a w', m w = Ret a w' ∧ Q a w'.
Proof. unfold wpx. destruct (m w); naive_solver. Qed.

Lemma wlp_elim {A} (m : M A) w Q a w' : wlp m w Q → m w = Ret a w' → Q a w'.
Proof. unfold wpx. intros H E. by rewrite E in H. Qed.

Lemma wlp_run {A} (m : M A) w (P : world → Prop) a w' :
  wlp m w (λ _ w', P w') → m w = Ret a w' → P w'.
Proof. apply (wlp_elim m w (λ _ w', P w')). Qed.

Section PrimRules.
Context (s : bool).
Implicit Types (w : world).

Lemma wpx_emit e w (Q : unit → world → Prop) :
  Q tt (set_trace (trace w ++ [e]) w) → wpx s (emit e) w Q.
Proof. done. Qed.

Lemma wpx_get_errno w (Q : Z → world → Prop) : Q (errno w) w → wpx s get_errno w Q.
Proof. done. Qed.

Lemma wpx_get_bytes w (Q : gmap Z Z → world → Prop) :
  Q (bytes w) w → wpx s get_bytes w Q.
Proof. done. Qed.

Lemma wpx_put_bytes b w (Q : unit → world → Prop) :
  Q tt (set_bytes b w) → wpx s (put_bytes b) w Q.
Proof. done. Qed.

Lemma wpx_ask a rest w (Q : answer → world → Prop) :
  env w = a :: rest → Q a (set_errno (a_errno a) (set_env rest w)) → wpx s ask w Q.
Proof. unfold wpx, ask. by intros ->. Qed.

Lemma wpx_load a o w (Q : obj → world → Prop) :
  heap w !! a = Some o → Q o w → wpx s (load (Ptr a)) w Q.
Proof. unfold wpx, load. by intros ->. Qed.

Lemma wpx_store a o w (Q : unit → world → Prop) :
  is_Some (heap w !! a) → Q tt (set_heap (<[a:=o]> (heap w)) w) →
  wpx s (store (Ptr a) o) w Q.
Proof. unfold wpx, store. by intros [? ->]. Qed.

Lemma wpx_load_as {A} (view : obj → option A) a o x w (Q : A → world → Prop) :
  heap w !! a = Some o → view o = Some x → Q x w → wpx s (load_as view (Ptr a)) w Q.
Proof.
  intros Hl Hv HQ. unfold load_as. apply wpx_bind. eapply wpx_load; [done|].
  rewrite Hv. by apply wpx_ret.
Qed.

Lemma wpx_upd_as {A} (view : obj → option A) mk a o x f w (Q : unit → world → Prop) :
  heap w !! a = Some o → view o = Some x →
  Q tt (set_heap (<[a:=mk (f x)]> (heap w)) w) →
  wpx s (upd_as view mk (Ptr a) f) w Q.
Proof.
  intros Hl Hv HQ. unfold upd_as. apply wpx_bind. eapply wpx_load_as; [done..|].
  apply wpx_store; [by rewrite Hl|done].
Qed.

Lemma wpx_load_ctx b l i c w (Q : msk_ctx → world → Prop) :
  heap w !! b = Some (OCtxs l) → l !! i = Some c → Q c w →
  wpx s (load_ctx (CtxRef (Ptr b) i)) w Q.
Proof.
  intros Hl Hi HQ. unfold load_ctx, load_ctxs. apply wpx_bind.
  eapply wpx_load_as; [done..|]. cbn. rewrite Hi. by apply wpx_ret.
Qed.

Lemma wpx_upd_ctx b l i c f w (Q : unit → world → Prop) :
  heap w !! b = Some (OCtxs l) → l !! i = Some c →
  Q tt (set_heap (<[b:=OCtxs (<[i:=f c]> l)]> (heap w)) w) →
  wpx s (upd_ctx (CtxRef (Ptr b) i) f) w Q.
Proof.
  intros Hl Hi HQ. unfold upd_ctx, load_ctxs. apply wpx_bind.
  eapply wpx_load_as; [done..|]. cbn. rewrite Hi.
  apply wpx_store; [by rewrite Hl|done].
Qed.

Lemma wpx_fresh_block init (b : bool) w (Q : pval → world → Prop) :
  (∀ l, heap w !! l = None →
     Q (Ptr l) (set_live (if b then {[l]} ∪ live w else live w)
                  (set_heap (<[l:=init]> (heap w)) w))) →
  wpx s (fresh_block init b) w Q.
Proof. intros H. apply H, not_elem_of_dom, is_fresh. Qed.

Lemma wpx_release_block a w (Q : unit → world → Prop) :
  a ∈ live w → Q tt (set_live (live w ∖ {[a]}) w) → wpx s (release_block a) w Q.
Proof. intros Ha HQ. unfold wpx, release_block. by rewrite decide_True. Qed.

Lemma wpx_allocated a w (Q : unit → world → Prop) :
  a ∈ live w → Q tt w → wpx s (allocated (Ptr a)) w Q.
Proof. intros Ha HQ. unfold wpx, allocated. by rewrite decide_True. Qed.

Lemma wpx_scans w (Q : nat → world → Prop) :
  Q (S (length (env w))) w → wpx s scans w Q.
Proof. done. Qed.

Lemma wpx_acquire_trans t w (Q : unit → world → Prop) :
  Q tt w → wpx s (acquire (TransLock t)) w Q.
Proof. done. Qed.

Lemma wpx_acquire_local a w (Q : unit → world → Prop) :
  locked a (trace w) = false → Q tt w → wpx s (acquire (LocalLock a)) w Q.
Proof. intros Ha HQ. unfold wpx, acquire. by rewrite Ha. Qed.
End PrimRules.

(** Rules that hold only of [wlp]: what is not known is assumed. *)
Lemma wlp_fault {A} w (Q : A → world → Prop) : wlp fault w Q.
Proof. done. Qed.

Lemma wlp_block {A} w (Q : A → world → Prop) : wlp block w Q.
Proof. done. Qed.

Lemma wlp_ask w (Q : answer → world → Prop) :
  (∀ a rest, env w = a :: rest → Q a (set_errno (a_errno a) (set_env rest w))) →
  wlp ask w Q.
Proof. intros H. unfold wpx, ask. destruct (env w); eauto. Qed.

Lemma wlp_truthy p w (Q : bool → world → Prop) :
  (p = Null → Q false w) → (∀ a, p = Ptr a → Q true w) → wlp (truthy p) w Q.
Proof. intros H1 H2. destruct p; cbn; eauto. Qed.

Lemma wlp_load_as {A} (view : obj → option A) p w (Q : A → world → Prop) :
  (∀ a o x, p = Ptr a → heap w !! a = Some o → view o = Some x → Q x w) →
  wlp (load_as view p) w Q.
Proof.
  intros H. unfold wpx, load_as, mbind, M_bind, bind, load.
  destruct p as [| |a]; try done. destruct (heap w !! a) as [o|] eqn:Ho; try done.
  destruct (view o) as [x|] eqn:Hx; try done. cbn. eauto.
Qed.

Lemma wlp_upd_as {A} (view : obj → option A) mk p f w (Q : unit → world → Prop) :
  (∀ a o x, p = Ptr a → heap w !! a = Some o → view o = Some x →
     Q tt (set_heap (<[a:=mk (f x)]> (heap w)) w)) →
  wlp (upd_as view mk p f) w Q.
Proof.
  intros H. unfold upd_as. apply wpx_bind, wlp_load_as. intros a o x -> Ho Hx.
  apply wpx_store; [by rewrite Ho|eauto].
Qed.

Lemma wlp_release_block a w (Q : unit → world → Prop) :
  (a ∈ live w → Q tt (set_live (live w ∖ {[a]}) w)) → wlp (release_block a) w Q.
Proof. intros H. unfold wpx, release_block. case_decide; eauto. Qed.

Lemma wlp_allocated p w (Q : unit → world → Prop) :
  (∀ a, p = Ptr a → a ∈ live w → Q tt w) → wlp (allocated p) w Q.
Proof. intros H. unfold wpx, allocated. destruct p; try done. case_decide; eauto. Qed.

Lemma wlp_acquire m w (Q : unit → world → Prop) : Q tt w → wlp (acquire m) w Q.
Proof. intros H. unfold wpx, acquire. destruct m; [done|]. by destruct (locked _ _). Qed.

(** The views determine the block. *)
Lemma as_trans_Some o x : as_trans o = Some x → o = OTrans x.
Proof. destruct o; naive_solver. Qed.
Lemma as_ctxs_Some o x : as_ctxs o = Some x → o = OCtxs x.
Proof. destruct o; naive_solver. Qed.
Lemma as_qp_Some o x : as_qp o = Some x → o = OQp x.
Proof. destruct o; naive_solver. Qed.
Lemma as_cq_Some o x : as_cq o = Some x → o = OCq x.
Proof. destruct o; naive_solver. Qed.
Lemma as_shm_Some o x : as_shm o = Some x → o = OShm x.
Proof. destruct o; naive_solver. Qed.
Lemma as_sem_Some o x : as_sem o = Some x → o = OSem x.
Proof. destruct o; naive_solver. Qed.
Lemma as_node_Some o x : as_node o = Some x → o = ONode x.
Proof. destruct o; naive_solver. Qed.
Lemma as_data_Some o x : as_data o = Some x → o = OData x.
Proof. destruct o; naive_solver. Qed.
Lemma as_seg_Some o x : as_seg o = Some x → o = OSeg x.
Proof. destruct o; naive_solver. Qed.

Ltac view_inv :=
  repeat match goal with
  | H : as_trans _ = Some _ |- _ => apply as_trans_Some in H
  | H : as_ctxs _ = Some _ |- _ => apply as_ctxs_Some in H
  | H : as_qp _ = Some _ |- _ => apply as_qp_Some in H
  | H : as_cq _ = Some _ |- _ => apply as_cq_Some in H
  | H : as_shm _ = Some _ |- _ => apply as_shm_Some in H
  | H : as_sem _ = Some _ |- _ => apply as_sem_Some in H
  | H : as_node _ = Some _ |- _ => apply as_node_Some in H
  | H : as_data _ = Some _ |- _ => apply as_data_Some in H
  | H : as_seg _ = Some _ |- _ => apply as_seg_Some in H
  end.

(** Worlds are kept as explicit records while a computation is stepped
    through. *)
Ltac wsimpl :=
  unfold set_heap, set_live, set_bytes, set_errno, set_env, set_trace in *;
  cbn [heap live bytes errno env trace a_ret a_errno tail
       negb truthy when is_minus_one free cbase cidx fst snd
       used pdata callback callback_arg ctx next shmid shmkey len shm shm_semkey shm_semid semkey semid ctx_head ctx_last qp_context send_cq recv_cq cq_context max_size size data seg_size seg_payload state server timeout sq_depth rq_depth disconnect_callback send_buf recv_buf qp
       set_used set_pdata set_callback set_callback_arg set_ctx set_next set_shmid set_shmkey set_len set_shm set_shm_semkey set_shm_semid set_semkey set_semid set_ctx_head set_ctx_last set_qp_context set_send_cq set_recv_cq set_cq_context set_size set_seg_size set_state set_server set_timeout set_sq_depth set_rq_depth set_disconnect_callback set_send_buf set_recv_buf set_qp] in *;
  repeat match goal with
         | H : ?p = Ptr _ |- wpx _ _ _ _ => progress rewrite H
         | H : ?p = Null |- wpx _ _ _ _ => progress rewrite H
         end.

(** A test on numbers that are known is decided. *)
Ltac decide_test :=
  match goal with
  | |- context [Z.eqb ?a ?b] =>
      let v := eval vm_compute in (Z.eqb a b) in
      lazymatch v with
      | true => change (Z.eqb a b) with true
      | false => change (Z.eqb a b) with false
      end
  end.

Ltac heap_ne := first [ done | congruence ].

Ltac lookup_tac :=
  wsimpl;
  repeat first
    [ rewrite lookup_insert_eq
    | rewrite lookup_insert_ne by heap_ne ];
  first [ reflexivity | eassumption ].

(** Steps for the functions of the source, added as their rules are
    proved. *)
Ltac wstep_hook := fail.

(** One step of a computation whose next primitive is determined by what
    is known. *)
Ltac wstep_prim :=
  lazymatch goal with
  | |- wpx _ (mbind _ _) _ _ => apply wpx_bind
  | |- wpx _ (mret _) _ _ => apply wpx_ret
  | |- wpx _ (emit _) _ _ => apply wpx_emit
  | |- wpx _ get_errno _ _ => apply wpx_get_errno
  | |- wpx _ get_bytes _ _ => apply wpx_get_bytes
  | |- wpx _ (put_bytes _) _ _ => apply wpx_put_bytes
  | |- wpx _ ask _ _ => eapply wpx_ask; [wsimpl; first [reflexivity | eassumption] |]
  | |- wpx _ (fresh_block _ _) _ _ => apply wpx_fresh_block; intros ? ?
  | |- wpx _ (store (Ptr _) _) _ _ => apply wpx_store; [eexists; lookup_tac|]
  | |- wpx _ (upd_as _ _ (Ptr _) _) _ _ => eapply wpx_upd_as; [lookup_tac|reflexivity|]
  | |- wpx _ (load_as _ (Ptr _)) _ _ => eapply wpx_load_as; [lookup_tac|reflexivity|]
  | |- wpx _ (load_ctx (CtxRef (Ptr _) _)) _ _ => eapply wpx_load_ctx; [lookup_tac|eassumption|]
  | |- wpx _ (release_block _) _ _ => apply wpx_release_block; [wsimpl; assumption|]
  | |- wpx _ (allocated (Ptr _)) _ _ => apply wpx_allocated; [wsimpl; assumption|]
  | |- wpx _ scans _ _ => apply wpx_scans
  | |- wpx _ (acquire (TransLock _)) _ _ => apply wpx_acquire_trans
  | |- wpx _ (acquire (LocalLock _)) _ _ =>
      apply wpx_acquire_local; [wsimpl; first [reflexivity | assumption]|]
  | |- wlp fault _ _ => apply wlp_fault
  | |- wlp block _ _ => apply wlp_block
  | |- wpx _ (upd_ctx (CtxRef (Ptr _) _) _) _ _ => eapply wpx_upd_ctx; [lookup_tac|eassumption|]
  | |- wpx _ (if _ then _ else _) _ _ => decide_test
  end.

Ltac wstep :=
  wsimpl; first [ wstep_hook | autounfold with mdefs; wstep_prim ]; wsimpl.

Ltac wsteps := repeat wstep.

(** ** The state of a mutex on a caller's stack *)

Lemma locked_app addr tr1 tr2 :
  locked addr (tr1 ++ tr2)
  = match last (omap (lock_event addr) tr2) with
    | Some b => b
    | None => locked addr tr1
    end.
Proof.
  unfold locked. rewrite omap_app.
  destruct (omap (lock_event addr) tr2) as [|b l] using rev_ind.
  - by rewrite app_nil_r.
  - by rewrite app_assoc, !last_snoc.
Qed.

Lemma locked_snoc_init addr tr : locked addr (tr ++ [EvMutexInit (LocalLock addr)]) = false.
Proof. rewrite locked_app. cbn. by rewrite Z.eqb_refl. Qed.





(** ** Rules for the functions of the source *)

(** The semaphore operations that [msk_semop] issues for SHM_SEM go to the
    identifier found in the [shmkey] member of the block behind
    [qp_context]. *)
Lemma msk_semop_shm s a t b qv c sh op r w (Q : Z → world → Prop) :
  heap w !! a = Some (OTrans t) → qp t = Ptr b →
  heap w !! b = Some (OQp qv) → qp_context qv = Ptr c →
  heap w !! c = Some (OShm sh) →
  env w = r :: tail (env w) →
  Q (a_ret r) (World (heap w) (live w) (bytes w) (a_errno r) (tail (env w))
                 (trace w ++ [EvSemop (shmkey sh) op])) →
  wpx s (msk_semop (Ptr a) SHM_SEM op) w Q.
Proof.
  intros Ha Hq Hb Hc Hs He HQ. unfold msk_semop, semid_view.
  change (SHM_SEM =? SEND_SEM) with false. change (SHM_SEM =? RECV_SEM) with false.
  change (SHM_SEM =? SHM_SEM) with true. cbv iota.
  wsteps. eapply wpx_load; [done|]. wsteps. done.
Qed.

Lemma msk_semop_send s a t b qv c cq d sm op r w (Q : Z → world → Prop) :
  heap w !! a = Some (OTrans t) → qp t = Ptr b →
  heap w !! b = Some (OQp qv) → send_cq qv = Ptr c →
  heap w !! c = Some (OCq cq) → cq_context cq = Ptr d →
  heap w !! d = Some (OSem sm) →
  env w = r :: tail (env w) →
  Q (a_ret r) (World (heap w) (live w) (bytes w) (a_errno r) (tail (env w))
                 (trace w ++ [EvSemop (semid sm) op])) →
  wpx s (msk_semop (Ptr a) SEND_SEM op) w Q.
Proof.
  intros Ha Hq Hb Hc Hcq Hd Hs He HQ. unfold msk_semop.
  change (SEND_SEM =? SEND_SEM) with true. cbv iota.
  wsteps. done.
Qed.

Lemma msk_semop_recv s a t b qv c cq d sm op r w (Q : Z → world → Prop) :
  heap w !! a = Some (OTrans t) → qp t = Ptr b →
  heap w !! b = Some (OQp qv) → recv_cq qv = Ptr c →
  heap w !! c = Some (OCq cq) → cq_context cq = Ptr d →
  heap w !! d = Some (OSem sm) →
  env w = r :: tail (env w) →
  Q (a_ret r) (World (heap w) (live w) (bytes w) (a_errno r) (tail (env w))
                 (trace w ++ [EvSemop (semid sm) op])) →
  wpx s (msk_semop (Ptr a) RECV_SEM op) w Q.
Proof.
  intros Ha Hq Hb Hc Hcq Hd Hs He HQ. unfold msk_semop.
  change (RECV_SEM =? SEND_SEM) with false. change (RECV_SEM =? RECV_SEM) with true.
  cbv iota. wsteps. done.
Qed.

Lemma call_callback_spec s who f trans pd arg w (Q : unit → world → Prop) :
  Q tt (set_trace (trace w ++ EvCallback who f trans pd arg ::
                     match f with
                     | WaitFn => [EvMutexUnlock (LocalLock arg)]
                     | UserFn _ => []
                     end) w) →
  wpx s (call_callback who f trans pd arg) w Q.
Proof.
  intros HQ. unfold call_callback, msk_wait_callback. destruct f; wsteps.
  - done.
  - by rewrite <- app_assoc.
Qed.

Ltac wstep_hook ::=
  lazymatch goal with
  | |- wpx _ (msk_semop (Ptr _) SHM_SEM _) _ _ =>
      eapply msk_semop_shm;
      [lookup_tac | eassumption | lookup_tac | eassumption | lookup_tac | reflexivity |]
  | |- wpx _ (msk_semop (Ptr _) SEND_SEM _) _ _ =>
      eapply msk_semop_send;
      [lookup_tac | eassumption | lookup_tac | eassumption | lookup_tac
      | first [eassumption | reflexivity] | lookup_tac | reflexivity |]
  | |- wpx _ (msk_semop (Ptr _) RECV_SEM _) _ _ =>
      eapply msk_semop_recv;
      [lookup_tac | eassumption | lookup_tac | eassumption | lookup_tac
      | first [eassumption | reflexivity] | lookup_tac | reflexivity |]
  | |- wpx _ (call_callback _ _ _ _ _) _ _ => apply call_callback_spec
  end.

Lemma recv_thread_exit_spec s a t0 w (Q : unit → world → Prop) :
  heap w !! a = Some (OTrans t0) →
  Q tt (World (<[a:=OTrans (set_state MSK_CLOSED t0)]> (heap w)) (live w) (bytes w)
          (errno w) (env w)
          (trace w ++ match disconnect_callback t0 with
                      | Some f => [EvDisconnect f (Ptr a)]
                      | None => []
                      end ++ [EvThreadExit])) →
  wpx s (recv_thread_exit (Ptr a)) w Q.
Proof.
  intros Ha HQ. destruct w as [h lv by0 e en tr]. unfold recv_thread_exit.
  wsteps. destruct (disconnect_callback t0); wsteps.
  - by rewrite <- app_assoc.
  - done.
Qed.

(** ** What the trace shows *)

Lemma stores_app tr1 tr2 : stores (tr1 ++ tr2) = stores tr1 ++ stores tr2.
Proof. apply omap_app. Qed.

Lemma completions_app who tr1 tr2 :
  completions who (tr1 ++ tr2) = completions who tr1 ++ completions who tr2.
Proof. apply omap_app. Qed.

Lemma semops_app id tr1 tr2 : semops id (tr1 ++ tr2) = semops id tr1 ++ semops id tr2.
Proof. apply omap_app. Qed.

Lemma disconnects_app tr1 tr2 :
  disconnects (tr1 ++ tr2) = disconnects tr1 ++ disconnects tr2.
Proof. apply omap_app. Qed.

(** ** What a turn of the receiver leaves alone *)

Section Pres.
Context {A B : Type} (I : world → Prop).

Lemma pres_ret (a : A) : pres I (mret a).
Proof. by intros w Hw. Qed.

Lemma pres_fault : pres I (@fault A).
Proof. by intros w Hw. Qed.

Lemma pres_block : pres I (@block A).
Proof. by intros w Hw. Qed.

Lemma pres_bind (m : M A) (k : A → M B) :
  pres I m → (∀ a, pres I (k a)) → pres I (m ≫= k).
Proof.
  intros Hm Hk w Hw. apply wpx_bind. eapply wpx_mono; [by apply Hm|].
  intros a w' Hw'. by apply Hk.
Qed.

Lemma pres_if (b : bool) (m1 m2 : M A) :
  pres I m1 → pres I m2 → pres I (if b then m1 else m2).
Proof. by destruct b. Qed.
End Pres.

Lemma pres_loop (I : world → Prop) (iter : M bool) fuel :
  pres I iter → pres I (loop fuel iter).
Proof.
  intros Hi. induction fuel as [|n IH]; cbn [loop]; [apply pres_block|].
  apply pres_bind; [done|]. intros b. apply pres_if; [done|apply pres_ret].
Qed.

Section Keeps.
Variables (a : loc) (t0 : msk_trans) (d : list fnptr).

Lemma keeps_emit e : is_disconnect e = false → pres (keeps a t0 d) (emit e).
Proof.
  intros He w [Hh Ht]. apply wpx_emit. split; [done|]. wsimpl.
  unfold disconnects in *. rewrite omap_app, Ht. cbn.
  destruct e; try discriminate He; by rewrite app_nil_r.
Qed.

Lemma keeps_ask : pres (keeps a t0 d) ask.
Proof. intros w Hw. apply wlp_ask. by intros r rest _. Qed.

Lemma keeps_truthy p : pres (keeps a t0 d) (truthy p).
Proof. intros w Hw. by apply wlp_truthy. Qed.

Lemma keeps_load p : pres (keeps a t0 d) (load p).
Proof.
  intros w Hw. unfold wpx, load. destruct p as [| |a']; try done.
  by destruct (heap w !! a').
Qed.

Lemma keeps_load_as {A} (view : obj → option A) p : pres (keeps a t0 d) (load_as view p).
Proof. intros w Hw. by apply wlp_load_as. Qed.

Lemma keeps_upd_as {A} (view : obj → option A) mk p f :
  view (OTrans t0) = None → pres (keeps a t0 d) (upd_as view mk p f).
Proof.
  intros Hv w [Hh Ht]. apply wlp_upd_as. intros a' o x _ Ho Hx.
  split; [|done]. wsimpl. rewrite lookup_insert_ne; [done|]. congruence.
Qed.

Lemma keeps_load_ctx r : pres (keeps a t0 d) (load_ctx r).
Proof.
  unfold load_ctx. apply pres_bind; [apply keeps_load_as|].
  intros l. destruct (l !! cidx r); [apply pres_ret|apply pres_fault].
Qed.

Lemma keeps_upd_ctx r f : pres (keeps a t0 d) (upd_ctx r f).
Proof.
  intros w [Hh Ht]. unfold upd_ctx, load_ctxs. apply wpx_bind, wlp_load_as.
  intros a' o l Hr Ho Hl. view_inv. subst o.
  destruct (l !! cidx r); [|done]. rewrite Hr.
  apply wpx_store; [by rewrite Ho|].
  split; [|done]. wsimpl. rewrite lookup_insert_ne; [done|]. congruence.
Qed.

Lemma keeps_free p : pres (keeps a t0 d) (free p).
Proof.
  destruct p as [| |a']; cbn [free]; [by apply keeps_emit|apply pres_fault|].
  apply pres_bind; [|intros; by apply keeps_emit].
  intros w Hw. by apply wlp_release_block.
Qed.

Lemma keeps_allocated p : pres (keeps a t0 d) (allocated p).
Proof. intros w Hw. apply wlp_allocated. by intros a' _ _. Qed.

Lemma keeps_acquire m : pres (keeps a t0 d) (acquire m).
Proof. intros w Hw. by apply wlp_acquire. Qed.

Lemma keeps_get_bytes : pres (keeps a t0 d) get_bytes.
Proof. by intros w Hw. Qed.

Lemma keeps_put_bytes b : pres (keeps a t0 d) (put_bytes b).
Proof. by intros w Hw. Qed.

Ltac keeps_step :=
  autounfold with mdefs; cbn beta iota;
  lazymatch goal with
  | |- pres _ (mbind _ _) => apply pres_bind; [|intros ?]
  | |- pres _ (mret _) => apply pres_ret
  | |- pres _ fault => apply pres_fault
  | |- pres _ ask => apply keeps_ask
  | |- pres _ (load _) => apply keeps_load
  | |- pres _ (load_as _ _) => apply keeps_load_as
  | |- pres _ (load_ctx _) => apply keeps_load_ctx
  | |- pres _ (upd_as _ _ _ _) => by apply keeps_upd_as
  | |- pres _ (upd_ctx _ _) => apply keeps_upd_ctx
  | |- pres _ (truthy _) => apply keeps_truthy
  | |- pres _ (free _) => apply keeps_free
  | |- pres _ (allocated _) => apply keeps_allocated
  | |- pres _ (acquire _) => apply keeps_acquire
  | |- pres _ get_bytes => apply keeps_get_bytes
  | |- pres _ (put_bytes _) => apply keeps_put_bytes
  | |- pres _ (emit _) => by apply keeps_emit
  | |- pres _ (match ?x with _ => _ end) => first [apply pres_if | destruct x]
  end.

Lemma keeps_msk_semop trans send op : pres (keeps a t0 d) (msk_semop trans send op).
Proof. unfold msk_semop, semid_view. repeat keeps_step. Qed.

Lemma keeps_call_callback who f trans pd arg :
  pres (keeps a t0 d) (call_callback who f trans pd arg).
Proof. unfold call_callback, msk_wait_callback. repeat keeps_step. Qed.

Lemma keeps_drop_head sem : pres (keeps a t0 d) (drop_head sem).
Proof. unfold drop_head. repeat keeps_step. Qed.

Lemma keeps_recv_transfer trans sem shmp : pres (keeps a t0 d) (recv_transfer trans sem shmp).
Proof.
  unfold recv_transfer.
  repeat first
    [ apply keeps_msk_semop | apply keeps_call_callback | keeps_step ].
Qed.

Lemma keeps_recv_turn trans sem shmp : pres (keeps a t0 d) (recv_turn trans sem shmp).
Proof.
  unfold recv_turn, recv_service, recv_release.
  repeat first
    [ apply keeps_msk_semop | apply keeps_recv_transfer
    | apply keeps_drop_head | keeps_step ].
Qed.
End Keeps.

(** ** Lists in the heap *)

Lemma chain_lookup h buf p ns ni :
  chain h buf p ns → ni ∈ ns →
  ∃ nx, h !! ni.1 = Some (ONode (MskList (CtxRef buf ni.2) nx)).
Proof.
  revert p. induction ns as [|nj ns IH]; intros p Hc Hin.
  - by apply elem_of_nil in Hin.
  - destruct Hc as (-> & nx & Hn & Hc). apply elem_of_cons in Hin as [->|Hin]; eauto.
Qed.

Lemma chain_node h buf p ns n :
  chain h buf p ns → n ∈ ns.*1 → ∃ nd, h !! n = Some (ONode nd).
Proof.
  intros Hc (ni & -> & Hin)%list_elem_of_fmap.
  destruct (chain_lookup _ _ _ _ _ Hc Hin) as [nx Hn]. eauto.
Qed.

Lemma chain_frame h h' buf p ns :
  (∀ n, n ∈ ns.*1 → h' !! n = h !! n) → chain h buf p ns → chain h' buf p ns.
Proof.
  revert p. induction ns as [|ni ns IH]; intros p Hf Hc; [done|].
  destruct Hc as (-> & nx & Hn & Hc). split; [done|]. exists nx. split.
  - rewrite Hf; [done|]. cbn. by left.
  - apply IH; [|done]. intros n Hin. apply Hf. cbn. by right.
Qed.

Lemma last_ptr_snoc ns ni : last_ptr (ns ++ [ni]) = Ptr ni.1.
Proof. unfold last_ptr. by rewrite last_snoc. Qed.

(** Appending a node: the last node's [next] is set to the new node. *)
Lemma chain_snoc h buf p ns ln li n i :
  chain h buf p ns → last ns = Some (ln, li) → NoDup ns.*1 → n ∉ ns.*1 →
  chain (<[ln:=ONode (MskList (CtxRef buf li) (Ptr n))]>
           (<[n:=ONode (MskList (CtxRef buf i) Null)]> h)) buf p (ns ++ [(n, i)]).
Proof.
  revert p. induction ns as [|nj ns IH]; intros p Hc Hl Hnd Hn; [done|].
  destruct Hc as (-> & nx & Hj & Hc). cbn [fmap list_fmap] in Hnd, Hn.
  apply NoDup_cons in Hnd as [Hj1 Hnd]. apply not_elem_of_cons in Hn as [Hnj Hn].
  destruct ns as [|nk ns].
  - injection Hl as ->. cbn in Hc. subst nx. cbn.
    split; [done|]. eexists. split; [by rewrite lookup_insert_eq|].
    split; [done|]. eexists. split; [|done].
    rewrite lookup_insert_ne by done. by rewrite lookup_insert_eq.
  - change ((nj :: nk :: ns) ++ [(n, i)]) with (nj :: ((nk :: ns) ++ [(n, i)])).
    split; [done|]. exists nx. split.
    + assert (ln ≠ nj.1).
      { intros ->. apply Hj1. change (last (nj :: nk :: ns)) with (last (nk :: ns)) in Hl.
        apply last_Some_elem_of in Hl. apply list_elem_of_fmap. by exists (nj.1, li). }
      rewrite !lookup_insert_ne by done. done.
    + apply IH; done.
Qed.

(** A queue of one node. *)
Lemma chain_singleton h buf n i :
  chain (<[n:=ONode (MskList (CtxRef buf i) Null)]> h) buf (Ptr n) [(n, i)].
Proof. split; [done|]. exists Null. by rewrite lookup_insert_eq. Qed.

(** ** Queues *)

Lemma queue_ok_frame h h' buf sem depth ns cs :
  queue_ok h buf sem depth ns cs →
  h' !! sem = h !! sem → h' !! buf = h !! buf →
  (∀ n, n ∈ ns.*1 → h' !! n = h !! n) →
  queue_ok h' buf sem depth ns cs.
Proof.
  intros (s & slots & Hs & Hc & Hl & Hb & Hlen & Hf & Hn1 & Hn2) Hes Heb Hen.
  exists s, slots. split_and!; try done; try congruence.
  by apply (chain_frame h).
Qed.

Lemma queue_ok_not_node h buf sem depth ns cs a o :
  queue_ok h buf sem depth ns cs → h !! a = Some o →
  (∀ nd, o ≠ ONode nd) → a ∉ ns.*1.
Proof.
  intros (s & slots & Hs & Hc & _) Ha Ho Hin.
  destruct (chain_node _ _ _ _ _ Hc Hin) as [nd Hnd]. naive_solver.
Qed.

Lemma queue_ok_fresh h buf sem depth ns cs a :
  queue_ok h buf sem depth ns cs → h !! a = None → a ∉ ns.*1.
Proof.
  intros (s & slots & Hs & Hc & _) Ha Hin.
  destruct (chain_node _ _ _ _ _ Hc Hin) as [nd Hnd]. naive_solver.
Qed.

(** Writing a slot that no node of the queue holds. *)
Lemma queue_ok_slot h buf sem depth ns cs slots i c' :
  queue_ok h buf sem depth ns cs → h !! buf = Some (OCtxs slots) → i ∉ ns.*2 →
  queue_ok (<[buf:=OCtxs (<[i:=c']> slots)]> h) buf sem depth ns cs.
Proof.
  intros Hq Hb Hi.
  assert (buf ∉ ns.*1) as Hbn by (eapply queue_ok_not_node; naive_solver).
  destruct Hq as (s & slots' & Hs & Hc & Hl & Hb' & Hlen & Hf & Hn1 & Hn2).
  assert (slots' = slots) as -> by congruence.
  exists s, (<[i:=c']> slots). split_and!; try done.
  - rewrite lookup_insert_ne; [done|congruence].
  - apply (chain_frame h); [|done]. intros n Hn. rewrite lookup_insert_ne; [done|].
    by intros ->.
  - by rewrite lookup_insert_eq.
  - by rewrite length_insert.
  - clear Hc Hl Hn1 Hn2 Hbn. induction Hf as [|ni c ns cs [Hni Hu] Hf IH]; [done|].
    cbn in Hi. apply not_elem_of_cons in Hi as [Hi1 Hi2].
    constructor; [|by apply IH]. split; [|done].
    by rewrite list_lookup_insert_ne.
Qed.

(** The slots of the queue are in use. *)
Lemma queue_ok_used h buf sem depth ns cs slots i c :
  queue_ok h buf sem depth ns cs → h !! buf = Some (OCtxs slots) →
  slots !! i = Some c → used c = 0 → i ∉ ns.*2.
Proof.
  intros (s & slots' & Hs & Hc & Hl & Hb' & Hlen & Hf & Hn1 & Hn2) Hb Hi Hu Hin.
  assert (slots' = slots) as -> by congruence.
  apply list_elem_of_fmap in Hin as (ni & -> & Hin).
  apply list_elem_of_lookup in Hin as [j Hj].
  destruct (Forall2_lookup_l _ _ _ _ _ Hf Hj) as (c' & _ & Hni & Hu').
  congruence.
Qed.

(** A node for a slot in use that no node holds yet is appended. *)
Lemma queue_ok_enqueue h buf sem depth ns cs s slots i c n :
  queue_ok h buf sem depth ns cs →
  h !! sem = Some (OSem s) → h !! buf = Some (OCtxs slots) →
  slots !! i = Some c → used c ≠ 0 → i ∉ ns.*2 → h !! n = None →
  queue_ok (enqueued h buf sem s ns n i) buf sem depth (ns ++ [(n, i)]) (cs ++ [c]).
Proof.
  intros Hq Hs Hb Hi Hu Hin Hn. unfold enqueued.
  set (h1 := <[n:=ONode (MskList (CtxRef (Ptr buf) i) Null)]> h).
  assert (n ∉ ns.*1) as Hnn by (by eapply queue_ok_fresh).
  assert (sem ∉ ns.*1) as Hsn by (eapply queue_ok_not_node; naive_solver).
  assert (buf ∉ ns.*1) as Hbn by (eapply queue_ok_not_node; naive_solver).
  destruct Hq as (s' & slots' & Hs' & Hc & Hl & Hb' & Hlen & Hf & Hn1 & Hn2).
  assert (s' = s) as -> by congruence. assert (slots' = slots) as -> by congruence.
  assert (n ≠ sem) by congruence. assert (n ≠ buf) by congruence.
  assert (sem ≠ buf) by congruence.
  assert (NoDup (ns ++ [(n, i)]).*1 ∧ NoDup (ns ++ [(n, i)]).*2) as [Hn1' Hn2'].
  { rewrite !fmap_app. split; apply NoDup_app; split_and!; try done;
      try (intros x Hx [->%elem_of_list_singleton]%elem_of_list_singleton; done); cbn;
      try apply NoDup_singleton.
    - intros x Hx. rewrite list_elem_of_singleton. by intros ->.
    - intros x Hx. rewrite list_elem_of_singleton. by intros ->. }
  assert (Forall2 (λ ni c0, slots !! ni.2 = Some c0 ∧ used c0 ≠ 0)
            (ns ++ [(n, i)]) (cs ++ [c])) as Hf'.
  { apply Forall2_app; [done|]. by constructor. }
  destruct (last ns) as [[ln li]|] eqn:Hlast.
  - assert (ln ∈ ns.*1) as Hln.
    { apply last_Some_elem_of in Hlast. apply list_elem_of_fmap. by exists (ln, li). }
    assert (ln ≠ sem) by (by intros ->). assert (ln ≠ buf) by (by intros ->).
    eexists _, slots. split_and!; try done.
    + by rewrite lookup_insert_eq.
    + cbn. apply (chain_frame (<[ln:=ONode (MskList (CtxRef (Ptr buf) li) (Ptr n))]> h1)).
      { intros a Ha. rewrite lookup_insert_ne; [done|].
        intros ->. rewrite fmap_app in Ha. apply elem_of_app in Ha as [Ha|Ha]; [done|].
        cbn in Ha. apply list_elem_of_singleton in Ha. done. }
      by apply chain_snoc.
    + cbn. by rewrite last_ptr_snoc.
    + subst h1. rewrite !lookup_insert_ne by done. done.
  - apply last_None in Hlast. subst ns. cbn in Hc.
    eexists _, slots. split_and!; try done.
    + by rewrite lookup_insert_eq.
    + change (chain (<[sem:=OSem (set_ctx_last (Ptr n) (set_ctx_head (Ptr n) s))]> h1)
                (Ptr buf) (Ptr n) [(n, i)]).
      apply (chain_frame h1); [|apply chain_singleton].
      intros a Ha. rewrite lookup_insert_ne; [done|]. cbn in Ha.
      apply list_elem_of_singleton in Ha. by subst a.
    + reflexivity.
    + subst h1. rewrite !lookup_insert_ne by done. done.
Qed.


(** ** The connection invariant under the stores of the engine *)

Lemma skeleton_frame k h h' :
  skeleton k h →
  h' !! c_trans k = h !! c_trans k → h' !! c_qp k = h !! c_qp k →
  h' !! c_scq k = h !! c_scq k → h' !! c_rcq k = h !! c_rcq k →
  skeleton k h'.
Proof.
  intros (tr & qv & H) E1 E2 E3 E4. exists tr, qv. rewrite E1, E2, E3, E4. done.
Qed.

Lemma queue_ok_lookups h buf sem depth ns cs :
  queue_ok h buf sem depth ns cs →
  ∃ s slots, h !! sem = Some (OSem s) ∧ h !! buf = Some (OCtxs slots).
Proof. intros (s & slots & Hs & _ & _ & Hb & _). eauto. Qed.

(** The other queue, when one queue changes: the heap has changed only at
    the anchor, the pool and the nodes of the queue that changed, and at
    addresses that were not in use. *)
Lemma queue_ok_other h h' bufA semA dA nsA csA bufB semB dB nsB csB :
  queue_ok h bufA semA dA nsA csA → queue_ok h bufB semB dB nsB csB →
  bufA ≠ bufB → semA ≠ semB → nsA.*1 ## nsB.*1 →
  (∀ a, a ≠ bufA → a ≠ semA → a ∉ nsA.*1 → is_Some (h !! a) → h' !! a = h !! a) →
  queue_ok h' bufB semB dB nsB csB.
Proof.
  intros HA HB Hb Hs Hd Hf.
  destruct (queue_ok_lookups _ _ _ _ _ _ HA) as (sA & slA & HsA & HbA).
  destruct (queue_ok_lookups _ _ _ _ _ _ HB) as (sB & slB & HsB & HbB).
  apply (queue_ok_frame h); [done|..].
  - apply Hf; [congruence|congruence| |by eexists].
    eapply queue_ok_not_node; [exact HA|exact HsB|done].
  - apply Hf; [congruence|congruence| |by eexists].
    eapply queue_ok_not_node; [exact HA|exact HbB|done].
  - intros n Hn. pose proof HB as (? & ? & _ & Hc & _).
    destruct (chain_node _ _ _ _ _ Hc Hn) as [nd Hnd].
    apply Hf; [congruence|congruence| |by eexists]. intros Hn'. exact (Hd n Hn' Hn).
Qed.

Lemma skeleton_other k h h' buf sem depth ns cs :
  skeleton k h → queue_ok h buf sem depth ns cs →
  (∀ a, a ≠ buf → a ≠ sem → a ∉ ns.*1 → is_Some (h !! a) → h' !! a = h !! a) →
  skeleton k h'.
Proof.
  intros Hk Hq Hf.
  destruct (queue_ok_lookups _ _ _ _ _ _ Hq) as (s & sl & Hs & Hb).
  pose proof Hk as (tr & qv & H1 & _ & _ & _ & _ & _ & H2 & _ & _ & _ & H3 & H4 & _).
  apply (skeleton_frame k h); [done|..]; apply Hf; try congruence; try (by eexists);
    (eapply queue_ok_not_node; [exact Hq|eassumption|done]).
Qed.

(** The frames of the four stores into a queue. *)
Lemma frame_slot (h : gmap loc obj) buf o a :
  a ≠ buf → <[buf:=o]> h !! a = h !! a.
Proof. intros. by rewrite lookup_insert_ne. Qed.

Lemma frame_enqueued h buf sem s ns n i a :
  h !! n = None → a ≠ sem → a ∉ ns.*1 → is_Some (h !! a) →
  enqueued h buf sem s ns n i !! a = h !! a.
Proof.
  intros Hn Hs Ha [o Ho]. assert (a ≠ n) by congruence. unfold enqueued.
  destruct (last ns) as [[ln li]|] eqn:Hl.
  - assert (a ≠ ln).
    { intros ->. apply Ha. apply last_Some_elem_of in Hl.
      apply list_elem_of_fmap. by exists (ln, li). }
    by rewrite !lookup_insert_ne.
  - by rewrite !lookup_insert_ne.
Qed.

(** One queue changes, the rest of the connection stays. *)
Lemma conn_ok_update_send k h h' sns rns scs rcs sns' scs' :
  conn_ok k h sns rns scs rcs →
  queue_ok h' (c_sbuf k) (c_ssem k) (c_sdepth k) sns' scs' →
  (∀ a, a ≠ c_sbuf k → a ≠ c_ssem k → a ∉ sns.*1 → is_Some (h !! a) →
        h' !! a = h !! a) →
  sns'.*1 ## rns.*1 →
  conn_ok k h' sns' rns scs' rcs.
Proof.
  intros (Hk & Hs & Hr & Hd) Hs' Hf Hd'.
  pose proof Hk as (tr & qv & _ & _ & _ & _ & _ & _ & _ & _ & _ & _ & _ & _ & Hb & Hsm).
  split_and!; [eapply skeleton_other; [exact Hk|exact Hs|exact Hf]|done| |done].
  eapply (queue_ok_other h h'); [exact Hs|exact Hr|done..].
Qed.

Lemma conn_ok_update_recv k h h' sns rns scs rcs rns' rcs' :
  conn_ok k h sns rns scs rcs →
  queue_ok h' (c_rbuf k) (c_rsem k) (c_rdepth k) rns' rcs' →
  (∀ a, a ≠ c_rbuf k → a ≠ c_rsem k → a ∉ rns.*1 → is_Some (h !! a) →
        h' !! a = h !! a) →
  sns.*1 ## rns'.*1 →
  conn_ok k h' sns rns' scs rcs'.
Proof.
  intros (Hk & Hs & Hr & Hd) Hr' Hf Hd'.
  pose proof Hk as (tr & qv & _ & _ & _ & _ & _ & _ & _ & _ & _ & _ & _ & _ & Hb & Hsm).
  split_and!; [eapply skeleton_other; [exact Hk|exact Hr|exact Hf]| |done|done].
  eapply (queue_ok_other h h');
    [exact Hr|exact Hs|by apply not_eq_sym|by apply not_eq_sym| |done].
  intros x H1 H2. exact (Hd x H2 H1).
Qed.

(** ** Rules for the queue operations *)

Lemma fill_slot_spec s b l i c pd cb arg w (Q : unit → world → Prop) :
  heap w !! b = Some (OCtxs l) → l !! i = Some c →
  Q tt (set_heap (<[b:=OCtxs (<[i:=MskCtx 1 pd cb arg]> l)]> (heap w)) w) →
  wpx s (fill_slot (CtxRef (Ptr b) i) pd cb arg) w Q.
Proof.
  intros Hb Hi HQ. destruct w as [h lv by0 e en tr]. wsimpl.
  assert (i < length l)%nat as Hlt by (by eapply lookup_lt_Some).
  unfold fill_slot.
  apply wpx_bind. eapply wpx_upd_ctx; [done..|]. wsimpl.
  apply wpx_bind. eapply wpx_upd_ctx;
    [lookup_tac|by rewrite list_lookup_insert_eq by (by rewrite ?length_insert)|]. wsimpl.
  apply wpx_bind. eapply wpx_upd_ctx;
    [lookup_tac|by rewrite list_lookup_insert_eq by (by rewrite ?length_insert)|]. wsimpl.
  eapply wpx_upd_ctx;
    [lookup_tac|by rewrite list_lookup_insert_eq by (by rewrite ?length_insert)|]. wsimpl.
  by rewrite !insert_insert_eq, !list_insert_insert_eq.
Qed.

(** The scan that finds a slot free ends the do-while. *)
Lemma find_slot_free s n a t b slots i (buf : msk_trans → pval) (depth : msk_trans → Z)
    w (Q : ctxref → world → Prop) :
  heap w !! a = Some (OTrans t) → buf t = Ptr b → heap w !! b = Some (OCtxs slots) →
  first_unused slots (Z.to_nat (depth t)) 0 = Some i → Z.of_nat i ≠ depth t →
  Q (CtxRef (Ptr b) i) w →
  wpx s (find_slot (S n) (Ptr a) buf depth) w Q.
Proof.
  intros Ha Hb Hs Hi Hne HQ. apply Z.eqb_neq in Hne.
  cbn [find_slot]. apply wpx_bind. eapply wpx_load_as; [exact Ha|reflexivity|].
  rewrite Hb. apply wpx_bind. eapply wpx_load_as; [exact Hs|reflexivity|].
  rewrite Hi, Hne. by apply wpx_ret.
Qed.

(** ** The bound on the scans of a post *)

Lemma bind_ext {A B} (m : M A) (k1 k2 : A → M B) w :
  (∀ a w', m w = Ret a w' → k1 a w' = k2 a w') → (m ≫= k1) w = (m ≫= k2) w.
Proof. unfold mbind, M_bind, bind. intros H. destruct (m w); auto. Qed.

Lemma load_as_world {A} (view : obj → option A) p w a w' :
  load_as view p w = Ret a w' → w' = w.
Proof.
  unfold load_as, load, mbind, M_bind, bind, mret, M_ret, ret, fault.
  destruct p as [| |l]; try discriminate. destruct (heap w !! l) as [o|]; [|discriminate].
  destruct (view o); [|discriminate]. by intros [= _ ->].
Qed.

Lemma cond_wait_takes_an_answer trans w r w' :
  pthread_cond_wait trans w = Ret r w' → length (env w) = S (length (env w')).
Proof.
  unfold pthread_cond_wait, oscall, emit, ask, mbind, M_bind, bind, mret, M_ret, ret.
  destruct (load_trans trans w) as [t w1| |] eqn:H1; [|discriminate..].
  apply load_as_world in H1 as ->. cbn.
  destruct (env w) as [|x en]; [discriminate|]. by intros [= _ <-].
Qed.

(** The bound that [scans] gives loses nothing: with more scans allowed
    than the script has answers, one more changes nothing. *)
Lemma find_slot_enough trans (buf : msk_trans → pval) (depth : msk_trans → Z) n m w :
  (length (env w) < n)%nat → (length (env w) < m)%nat →
  find_slot n trans buf depth w = find_slot m trans buf depth w.
Proof.
  revert m w. induction n as [|n IH]; intros m w Hn Hm; [lia|].
  destruct m as [|m]; [lia|]. cbn [find_slot].
  apply bind_ext. intros t w1 ->%load_as_world.
  apply bind_ext. intros l w1 ->%load_as_world.
  destruct (first_unused l (Z.to_nat (depth t)) 0) as [i|]; [|done].
  destruct (Z.of_nat i =? depth t); [|done].
  apply bind_ext. intros r w1 Hw%cond_wait_takes_an_answer.
  apply IH; lia.
Qed.

(** ** Stepping with fresh blocks and known tests *)

(** A block [malloc] or [shmat] has handed out is at an address distinct
    from every block there was. *)
Ltac fresh_inv :=
  repeat match goal with
         | H : <[_:=_]> _ !! _ = None |- _ => apply lookup_insert_None in H as [H ?]
         end.

Ltac test_known :=
  match goal with
  | H : (?a =? ?b) = _ |- context [?a =? ?b] => rewrite H
  end.

Ltac sstep := first [ wstep | test_known ]; fresh_inv.

Ltac distinct :=
  repeat (apply NoDup_cons; split;
          [rewrite ?not_elem_of_cons, ?elem_of_nil; split_and?;
           first [assumption | by apply not_eq_sym | congruence | tauto]|]);
  apply NoDup_nil_2.

(** Membership in a union of singletons and a set. *)
Ltac in_union :=
  first [ assumption
        | apply elem_of_singleton_2; reflexivity
        | apply elem_of_union_l; in_union
        | apply elem_of_union_r; in_union ].

(** ** Computations that fault *)

Lemma faults_bind {A B} (m : M A) (k : A → M B) w :
  wp m w (λ a w', faults (k a) w') → faults (m ≫= k) w.
Proof.
  unfold wpx, faults, mbind, M_bind, bind. destruct (m w); [tauto|discriminate..].
Qed.

Lemma faults_here {A B} (m : M A) (k : A → M B) w : faults m w → faults (m ≫= k) w.
Proof. unfold faults, mbind, M_bind, bind. intros [w' ->]. by exists w'. Qed.

Lemma faults_fault {A} w : faults (@fault A) w.
Proof. by exists w. Qed.

Lemma faults_assoc {A B C} (m : M A) (k1 : A → M B) (k : B → M C) w :
  faults (m ≫= λ x, k1 x ≫= k) w → faults ((m ≫= k1) ≫= k) w.
Proof. unfold faults, mbind, M_bind, bind. by destruct (m w). Qed.

(** Steps up to the fault. *)
Ltac fstep :=
  cbv beta; autounfold with mdefs; cbn [touch]; wsimpl;
  repeat match goal with
         | H : ?p = Ptr _ |- faults _ _ => progress rewrite H
         | H : ?p = Null |- faults _ _ => progress rewrite H
         | H : ?p = Junk |- faults _ _ => progress rewrite H
         end;
  wsimpl;
  lazymatch goal with
  | |- faults fault _ => apply faults_fault
  | |- faults (mbind _ fault) _ => apply faults_here, faults_fault
  | |- faults (mbind _ (mbind _ _)) _ => apply faults_assoc
  | |- faults (mbind _ (if _ then _ else _)) _ => first [decide_test | test_known]
  | |- faults (if _ then _ else _) _ => first [decide_test | test_known]
  | |- faults (mbind _ _) _ =>
      first [ apply faults_bind; sstep
            | apply faults_here; eexists; reflexivity ]
  end.

Ltac fsteps := repeat fstep.

(** ** Computations with a known outcome *)

Lemma bind_outcome {A B} (m : M A) (k : A → M B) w (o : outcome B) :
  wp m w (λ a w', k a w' = o) → (m ≫= k) w = o.
Proof.
  unfold wpx, mbind, M_bind, bind. destruct (m w); [tauto|discriminate..].
Qed.

Lemma bind_outcome_assoc {A B C} (m : M A) (k1 : A → M B) (k : B → M C) w o :
  (m ≫= λ x, k1 x ≫= k) w = o → ((m ≫= k1) ≫= k) w = o.
Proof. unfold mbind, M_bind, bind. by destruct (m w). Qed.

Ltac ostep :=
  cbv beta; autounfold with mdefs; cbn [touch]; wsimpl;
  repeat match goal with
         | H : ?p = Ptr _ |- _ _ = _ => progress rewrite H
         | H : ?p = Null |- _ _ = _ => progress rewrite H
         end;
  wsimpl;
  lazymatch goal with
  | |- mbind _ (mbind _ _) _ = _ => apply bind_outcome_assoc
  | |- mbind _ (if _ then _ else _) _ = _ => first [decide_test | test_known]
  | |- (if _ then _ else _) _ = _ => first [decide_test | test_known]
  | |- mbind _ _ _ = _ => apply bind_outcome; sstep
  end.

Ltac osteps := repeat ostep.

Lemma fault_outcome {A B} (m : M A) (k : A → M B) w w' :
  m w = Fault w' → (m ≫= k) w = Fault w'.
Proof. unfold mbind, M_bind, bind. by intros ->. Qed.

Lemma blocked_outcome {A B} (m : M A) (k : A → M B) w w' :
  m w = Blocked w' → (m ≫= k) w = Blocked w'.
Proof. unfold mbind, M_bind, bind. by intros ->. Qed.

(** ** Remote-memory stubs *)

(** C2: each of [msk_post_n_read], [msk_post_n_write], [msk_wait_n_read]
    and [msk_wait_n_write] returns 0 on every input and leaves the whole
    world as it was: no byte is copied, no callback is called. *)
Theorem remote_memory_stubs_do_nothing trans pd num_sge mr rloc cb ecb arg w :
  msk_post_n_read trans pd num_sge mr rloc cb ecb arg w = Ret 0 w ∧
  msk_post_n_write trans pd num_sge mr rloc cb ecb arg w = Ret 0 w ∧
  msk_wait_n_read trans pd num_sge mr rloc w = Ret 0 w ∧
  msk_wait_n_write trans pd num_sge mr rloc w = Ret 0 w.
Proof. done. Qed.

(** ** Creation *)

(** C9: when the allocation and the two initialisations succeed,
    [msk_init] returns 0 and leaves a new connection block whose state is
    INIT, whose timeout is the attribute's or 3000000 when that is 0,
    whose two queue depths are the attributes' or 5 when they are 0, whose
    role and disconnect callback are the attributes', and whose other
    members are zero. *)
Theorem msk_init_applies_defaults attr w r1 e1 e2 e3 rest :
  env w = Answer r1 e1 :: Answer 0 e2 :: Answer 0 e3 :: rest → r1 ≠ 0 →
  ∃ l w',
    msk_init attr w = Ret (0, Ptr l) w' ∧
    heap w !! l = None ∧
    heap w' = <[l:=OTrans (MskTrans MSK_INIT (attr_server attr)
                     (if attr_timeout attr =? 0 then 3000000 else attr_timeout attr)
                     (if attr_sq_depth attr =? 0 then 5 else attr_sq_depth attr)
                     (if attr_rq_depth attr =? 0 then 5 else attr_rq_depth attr)
                     (attr_disconnect_callback attr) Null Null Null)]> (heap w).
Proof.
  intros He H1.
  cut (wp (msk_init attr) w (λ r w', ∃ l, r = (0, Ptr l) ∧ heap w !! l = None ∧
         heap w' = <[l:=OTrans (MskTrans MSK_INIT (attr_server attr)
                     (if attr_timeout attr =? 0 then 3000000 else attr_timeout attr)
                     (if attr_sq_depth attr =? 0 then 5 else attr_sq_depth attr)
                     (if attr_rq_depth attr =? 0 then 5 else attr_rq_depth attr)
                     (attr_disconnect_callback attr) Null Null Null)]> (heap w))).
  { intros (r & w' & Hr & l & -> & Hl & Hh)%wp_elim. eauto. }
  destruct w as [h lv b e en tr]. wsimpl. subst en.
  unfold msk_init, malloc. do 3 wstep.
  apply Z.eqb_neq in H1. rewrite H1. wsteps.
  eexists; split; [done|]. split; [done|].
  by rewrite !insert_insert_eq.
Qed.

Lemma msk_init_applies_defaults_witness :
  ∃ l w',
    msk_init demo_attr (empty_world [ok 1; ok 0; ok 0]) = Ret (0, Ptr l) w' ∧
    (∅ : gmap loc obj) !! l = None ∧
    heap w' = <[l:=OTrans (MskTrans MSK_INIT 0 3000000 2 5 (Some (UserFn 99))
                             Null Null Null)]> ∅.
Proof.
  apply (msk_init_applies_defaults demo_attr (empty_world [ok 1; ok 0; ok 0])
           1 0 0 0 []); [reflexivity | lia].
Defined.

(** ** Null connections *)

(** C7, as the claim states it, fails: [msk_post_n_send] called with a
    null connection does not return the invalid-argument error. *)
Lemma post_send_null_is_no_einval :
  ¬ ∃ w', msk_post_n_send Null (Ptr 11) 1 Null None None 0 (demo_world [])
          = Ret EINVAL w'.
Proof. intros [w' H]. discriminate H. Qed.

(** C7, amended: with a null connection [msk_connect] returns EINVAL and
    [msk_accept_one] returns the null connection, both leaving the world
    as it was; the two posts and the two waits have no test for a null
    connection and dereference it in their first lock call. *)
Theorem null_connection_behaviour w pd num_sge mr cb ecb arg lock :
  msk_connect Null w = Ret EINVAL w ∧
  msk_accept_one Null w = Ret Null w ∧
  msk_post_n_send Null pd num_sge mr cb ecb arg w = Fault w ∧
  msk_post_n_recv Null pd num_sge mr cb ecb arg w = Fault w ∧
  msk_wait_n_send lock Null pd num_sge mr w
    = Fault (set_trace (trace w ++ [EvMutexInit (LocalLock lock);
                                    EvMutexLock (LocalLock lock)]) w) ∧
  msk_wait_n_recv lock Null pd num_sge mr w
    = Fault (set_trace (trace w ++ [EvMutexInit (LocalLock lock);
                                    EvMutexLock (LocalLock lock)]) w).
Proof.
  split_and!; try done.
  all: unfold msk_wait_n_send, msk_wait_n_recv, pthread_mutex_lock, touch, acquire, emit,
         mbind, M_bind, bind, mret, M_ret, ret; cbn [trace set_trace].
  all: rewrite (locked_snoc_init lock (trace w)); unfold set_trace; cbn [trace heap live
         bytes errno env]; by rewrite <- app_assoc.
Qed.

(** ** The rendezvous *)




(** ** Resource setup *)

Example init_world_is_what_msk_init_leaves :
  msk_init demo_attr (empty_world [ok 1; ok 0; ok 0]) = Ret (0, Ptr 1) (init_world []).
Proof. vm_compute. reflexivity. Qed.

(** C3 fails on the code.  When [shmget] fails, [msk_setup_buffer] returns
    the errno value and frees nothing: the two pools, the queue pair and
    the segment descriptor it has allocated stay allocated.  A [semget]
    that fails with -1 passes the test [!semid] and setup goes on to
    report success.  When the second allocation fails, the unwinding in
    [msk_destroy_buffer] dereferences the null [trans->qp]. *)
Theorem setup_buffer_does_not_unwind :
  (∃ w', msk_setup_buffer (Ptr 1)
           (init_world [ok 1; ok 1; ok 1; ok 1; Answer (-1) 28]) = Ret 28 w' ∧
         live w' = list_to_set [1; 2; 3; 4; 5]%positive ∧ frees (trace w') = []) ∧
  (∃ w', msk_setup_buffer (Ptr 1)
           (init_world [ok 1; ok 1; ok 1; ok 1; ok 7; ok 4096; Answer (-1) 28;
                        ok 1; ok 1; ok 9; ok 1; ok 1; ok 10]) = Ret 0 w') ∧
  (∃ w', msk_setup_buffer (Ptr 1) (init_world [ok 1; Answer 0 ENOMEM]) = Fault w').
Proof.
  split; [|split].
  - eexists. split; [vm_compute; reflexivity|]. split; vm_compute; reflexivity.
  - eexists. vm_compute. reflexivity.
  - eexists. vm_compute. reflexivity.
Qed.

(** ** What a post returns *)

(** C8 fails on the code.  When the allocation of the queue node fails,
    neither post returns an errno value: the null node is dereferenced. *)
Theorem post_faults_when_node_allocation_fails :
  (∃ w', msk_post_n_send (Ptr 1) (Ptr 11) 1 Null None None 0
           (demo_world [Answer 0 ENOMEM]) = Fault w') ∧
  (∃ w', msk_post_n_recv (Ptr 1) (Ptr 14) 1 Null None None 0
           (demo_world [Answer 0 ENOMEM]) = Fault w').
Proof. split; eexists; vm_compute; reflexivity. Qed.

(** ** The byte memory *)

Lemma write_bytes_lookup b dst l x :
  write_bytes b dst l !! x
  = if decide (dst ≤ x < dst + Z.of_nat (length l))
    then l !! Z.to_nat (x - dst) else b !! x.
Proof.
  revert b dst. induction l as [|y l IH]; intros b dst; cbn [write_bytes length].
  - case_decide; [lia|done].
  - rewrite IH. repeat case_decide; try lia.
    + replace (Z.to_nat (x - dst)) with (S (Z.to_nat (x - (dst + 1)))) by lia. done.
    + assert (x = dst) as -> by lia. rewrite lookup_insert_eq.
      by replace (dst - dst) with 0 by lia.
    + rewrite lookup_insert_ne by lia. done.
Qed.

Lemma read_bytes_length b src n : Z.of_nat (length (read_bytes b src n)) = Z.max 0 n.
Proof. unfold read_bytes. rewrite length_fmap, length_seqZ. lia. Qed.

Lemma read_bytes_lookup b src n k :
  0 ≤ k < n → read_bytes b src n !! Z.to_nat k = Some (default 0 (b !! (src + k))).
Proof.
  intros Hk. unfold read_bytes. rewrite list_lookup_fmap, lookup_seqZ_lt by lia.
  cbn. do 3 f_equal. lia.
Qed.

(** What [memcpy(dst, src, n)] leaves. *)
Lemma memcpy_bytes b dst src n x :
  write_bytes b dst (read_bytes b src n) !! x
  = if decide (dst ≤ x < dst + n) then Some (default 0 (b !! (src + (x - dst)))) else b !! x.
Proof.
  rewrite write_bytes_lookup, read_bytes_length.
  repeat case_decide; try lia; [|done]. by rewrite read_bytes_lookup by lia.
Qed.

Lemma read_back b dst src n :
  read_bytes (write_bytes b dst (read_bytes b src n)) dst n = read_bytes b src n.
Proof.
  apply list_eq. intros j.
  destruct (decide (Z.of_nat j < n)) as [Hj|Hj].
  - replace j with (Z.to_nat (Z.of_nat j)) by lia.
    rewrite !read_bytes_lookup by lia. rewrite memcpy_bytes, decide_True by lia.
    cbn. do 4 f_equal. lia.
  - rewrite !lookup_ge_None_2; [done|..].
    + pose proof (read_bytes_length b src n). lia.
    + pose proof (read_bytes_length (write_bytes b dst (read_bytes b src n)) dst n). lia.
Qed.

(** ** The receiver's copy *)

(** C10: when the receiver services the head of its queue (lines 225-231)
    it stores the length found in the segment into the descriptor of the
    posted buffer and copies that many bytes from the segment to the
    buffer's address, whatever the capacity [max_size] of the buffer is;
    when the length is larger than the capacity, the byte just past the
    buffer is overwritten. *)
Theorem recv_service_copies_mailbox_length
    a t b qv c sh g sg sm s n nx rb slots i cx d dd w a1 a2 rest :
  heap w !! a = Some (OTrans t) → qp t = Ptr b →
  heap w !! b = Some (OQp qv) → qp_context qv = Ptr c →
  heap w !! c = Some (OShm sh) → shm sh = Ptr g →
  heap w !! g = Some (OSeg sg) →
  heap w !! sm = Some (OSem s) → ctx_head s = Ptr n →
  heap w !! n = Some (ONode (MskList (CtxRef (Ptr rb) i) nx)) →
  heap w !! rb = Some (OCtxs slots) → slots !! i = Some cx →
  pdata cx = Ptr d → heap w !! d = Some (OData dd) →
  env w = a1 :: a2 :: rest →
  ∃ w', recv_transfer (Ptr a) (Ptr sm) (Ptr c) w = Ret (CtxRef (Ptr rb) i) w' ∧
    heap w' !! d = Some (OData (MskData (max_size dd) (seg_size sg) (data dd))) ∧
    (∀ x, bytes w' !! x
          = if decide (data dd ≤ x < data dd + seg_size sg)
            then Some (default 0 (bytes w !! (seg_payload sg + (x - data dd))))
            else bytes w !! x) ∧
    (0 ≤ max_size dd < seg_size sg →
     bytes w' !! (data dd + max_size dd)
     = Some (default 0 (bytes w !! (seg_payload sg + max_size dd)))).
Proof.
  intros Ha Hq Hb Hc Hs Hg Hsg Hsm Hhd Hn Hrb Hi Hpd Hd He.
  cut (wp (recv_transfer (Ptr a) (Ptr sm) (Ptr c)) w (λ r w',
    r = CtxRef (Ptr rb) i ∧
    heap w' !! d = Some (OData (MskData (max_size dd) (seg_size sg) (data dd))) ∧
    (∀ x, bytes w' !! x
          = if decide (data dd ≤ x < data dd + seg_size sg)
            then Some (default 0 (bytes w !! (seg_payload sg + (x - data dd))))
            else bytes w !! x))).
  { intros (r & w' & Hr & -> & Hh & Hby)%wp_elim. exists w'. split_and!; try done.
    intros Hm. rewrite Hby, decide_True by lia. do 3 f_equal. lia. }
  destruct w as [h lv by0 e en tr]. wsimpl. subst en.
  unfold recv_transfer. wsteps.
  destruct (callback cx); wsteps.
  all: split; [reflexivity|]; split; [lookup_tac | intros x; apply memcpy_bytes].
Qed.

(** ** The end of the receiver *)

(** C5: when the receiver's wait on its receive-ready semaphore fails, the
    loop ends, the state of the connection becomes CLOSED and the
    disconnect callback, if there is one, is called, once; and whenever
    the receiver thread has ended, the state is CLOSED and the callback
    has been called exactly once since the thread started (never, if none
    is registered). *)
Theorem recv_thread_disconnects_once
    a t0 b qv c cq sm s r e rest fuel sem shmp w :
  heap w !! a = Some (OTrans t0) → qp t0 = Ptr b →
  heap w !! b = Some (OQp qv) → recv_cq qv = Ptr c →
  heap w !! c = Some (OCq cq) → cq_context cq = Ptr sm →
  heap w !! sm = Some (OSem s) →
  env w = Answer r e :: rest → r ≠ 0 →
  (_ ← loop (S fuel) (recv_turn (Ptr a) sem shmp); recv_thread_exit (Ptr a)) w
  = Ret tt (World (<[a:=OTrans (set_state MSK_CLOSED t0)]> (heap w)) (live w)
              (bytes w) e rest
              (trace w ++ EvSemop (semid s) (-1) ::
                 match disconnect_callback t0 with
                 | Some f => [EvDisconnect f (Ptr a)]
                 | None => []
                 end ++ [EvThreadExit]))
  ∧ ∀ fuel' w0 w',
      heap w0 !! a = Some (OTrans t0) →
      recv_thread_unready (Ptr a) w0 = Ret false w0 →
      msk_recv_thread fuel' (Ptr a) w0 = Ret tt w' →
      heap w' !! a = Some (OTrans (set_state MSK_CLOSED t0)) ∧
      disconnects (trace w')
      = disconnects (trace w0) ++ match disconnect_callback t0 with
                                  | Some f => [f]
                                  | None => []
                                  end.
Proof.
  intros Ha Hq Hb Hc Hcq Hsm Hs He Hr. split.
  - match goal with |- ?m w = Ret tt ?w1 =>
      cut (wp m w (λ _ w', w' = w1)) end.
    { intros ([] & w' & -> & ->)%wp_elim. done. }
    destruct w as [h lv by0 e0 en tr]. wsimpl. subst en.
    cbn [loop]. unfold recv_turn. wsteps.
    apply Z.eqb_neq in Hr. rewrite Hr. wsteps.
    eapply recv_thread_exit_spec; [lookup_tac|]. wsimpl.
    by rewrite <- app_assoc.
  - intros fuel' w0 w' Ha0 Hun Hrun.
    revert Hrun.
    apply (wlp_run _ _ (λ w', heap w' !! a = Some (OTrans (set_state MSK_CLOSED t0)) ∧
      disconnects (trace w') = disconnects (trace w0) ++
        match disconnect_callback t0 with Some f => [f] | None => [] end)).
    unfold msk_recv_thread.
    apply wpx_bind. eapply wpx_of_eq; [exact Hun|]. cbv beta iota.
    destruct w0 as [h lv by0 e0 en tr]. wsteps.
    apply wlp_load_as. intros b' o qv' Hqp Ho Hv.
    apply wpx_bind, wlp_load_as. intros c' o' cq' Hrc Ho' Hv'.
    apply wpx_bind.
    eapply wpx_mono.
    { apply (pres_loop (keeps a t0 (disconnects tr))); [apply keeps_recv_turn|].
      by split. }
    intros _ w1 [Hh Ht]. eapply recv_thread_exit_spec; [done|]. wsimpl.
    split; [by rewrite lookup_insert_eq|].
    rewrite !disconnects_app, Ht. by destruct (disconnect_callback t0).
Qed.

(** ** The service of the request at the head of a queue *)

Lemma send_transfer_returns
    a t b qv c sh g sg scq cq sm s n nx sb slots i cx d dd w a1 a2 a3 rest :
  heap w !! a = Some (OTrans t) → qp t = Ptr b →
  heap w !! b = Some (OQp qv) → qp_context qv = Ptr c → send_cq qv = Ptr scq →
  heap w !! scq = Some (OCq cq) → cq_context cq = Ptr sm →
  heap w !! c = Some (OShm sh) → shm sh = Ptr g →
  heap w !! g = Some (OSeg sg) →
  heap w !! sm = Some (OSem s) → ctx_head s = Ptr n →
  heap w !! n = Some (ONode (MskList (CtxRef (Ptr sb) i) nx)) →
  heap w !! sb = Some (OCtxs slots) → slots !! i = Some cx →
  pdata cx = Ptr d → heap w !! d = Some (OData dd) →
  env w = a1 :: a2 :: a3 :: rest →
  send_transfer (Ptr a) (Ptr sm) (Ptr c) w
  = Ret (CtxRef (Ptr sb) i)
      (sent g sg dd (a_errno a3) rest (send_calls a sh s cx dd (bytes w)) w).
Proof.
  intros Ha Hq Hb Hc Hscq Hcq Hcx Hs Hg Hsg Hsm Hhd Hn Hsb Hi Hpd Hd He.
  match goal with |- ?m w = Ret ?r ?w1 =>
    cut (wp m w (λ r' w', r' = r ∧ w' = w1)) end.
  { intros (r' & w' & -> & -> & ->)%wp_elim. reflexivity. }
  destruct w as [h lv by0 e en tr]. wsimpl. subst en.
  unfold send_transfer, sent, send_calls, callback_calls. wsteps.
  destruct (callback cx) as [f|]; wsteps.
  all: split; [reflexivity|]; rewrite <- ?app_assoc; cbn [app]; rewrite ?read_back;
    rewrite ?Hpd; try reflexivity.
  all: destruct f; reflexivity.
Qed.

Lemma recv_transfer_returns
    a t b qv c sh g sg sm s n nx rb slots i cx d dd w a1 a2 rest :
  heap w !! a = Some (OTrans t) → qp t = Ptr b →
  heap w !! b = Some (OQp qv) → qp_context qv = Ptr c →
  heap w !! c = Some (OShm sh) → shm sh = Ptr g →
  heap w !! g = Some (OSeg sg) →
  heap w !! sm = Some (OSem s) → ctx_head s = Ptr n →
  heap w !! n = Some (ONode (MskList (CtxRef (Ptr rb) i) nx)) →
  heap w !! rb = Some (OCtxs slots) → slots !! i = Some cx →
  pdata cx = Ptr d → heap w !! d = Some (OData dd) →
  env w = a1 :: a2 :: rest →
  recv_transfer (Ptr a) (Ptr sm) (Ptr c) w
  = Ret (CtxRef (Ptr rb) i) (received d sg dd (a_errno a2) rest (recv_calls a sh cx) w).
Proof.
  intros Ha Hq Hb Hc Hs Hg Hsg Hsm Hhd Hn Hrb Hi Hpd Hd He.
  match goal with |- ?m w = Ret ?r ?w1 =>
    cut (wp m w (λ r' w', r' = r ∧ w' = w1)) end.
  { intros (r' & w' & -> & -> & ->)%wp_elim. reflexivity. }
  destruct w as [h lv by0 e en tr]. wsimpl. subst en.
  unfold recv_transfer, received, recv_calls, callback_calls. wsteps.
  destruct (callback cx) as [f|]; wsteps.
  all: split; [reflexivity|]; rewrite <- ?app_assoc; cbn [app]; rewrite ?Hpd;
    try reflexivity.
  all: destruct f; reflexivity.
Qed.

(** After [free(sem->ctx_head)] the node is read. *)
Lemma drop_head_faults sm s n w :
  heap w !! sm = Some (OSem s) → ctx_head s = Ptr n → n ∈ live w →
  drop_head (Ptr sm) w = Fault (freed n w).
Proof.
  intros Hsm Hhd Hl. destruct w as [h lv by0 e en tr]. wsimpl.
  unfold drop_head, freed. osteps. wsimpl.
  rewrite Hhd. apply fault_outcome. unfold allocated. cbn [live].
  rewrite decide_False; [done|].
  intros [_ Hx]%elem_of_difference. apply Hx. by apply elem_of_singleton.
Qed.

Lemma send_service_faults
    a t b qv c sh g sg scq cq sm s n nx sb slots i cx d dd w a1 a2 a3 rest :
  heap w !! a = Some (OTrans t) → qp t = Ptr b →
  heap w !! b = Some (OQp qv) → qp_context qv = Ptr c → send_cq qv = Ptr scq →
  heap w !! scq = Some (OCq cq) → cq_context cq = Ptr sm →
  heap w !! c = Some (OShm sh) → shm sh = Ptr g →
  heap w !! g = Some (OSeg sg) →
  heap w !! sm = Some (OSem s) → ctx_head s = Ptr n →
  heap w !! n = Some (ONode (MskList (CtxRef (Ptr sb) i) nx)) → n ∈ live w →
  heap w !! sb = Some (OCtxs slots) → slots !! i = Some cx →
  pdata cx = Ptr d → heap w !! d = Some (OData dd) →
  env w = a1 :: a2 :: a3 :: rest →
  send_service (Ptr a) (Ptr sm) (Ptr c) w
  = Fault (freed n (sent g sg dd (a_errno a3) rest (send_calls a sh s cx dd (bytes w)) w)).
Proof.
  intros Ha Hq Hb Hc Hscq Hcq Hcx Hs Hg Hsg Hsm Hhd Hn Hl Hsb Hi Hpd Hd He.
  unfold send_service.
  apply bind_outcome. eapply wpx_load_as; [exact Hsm|reflexivity|].
  rewrite Hhd. cbn [truthy].
  apply bind_outcome. apply wpx_ret. cbv iota.
  apply bind_outcome. eapply wpx_of_eq; [by eapply send_transfer_returns|].
  apply fault_outcome. apply (drop_head_faults sm s n); [|done|done].
  cbn [sent heap]. rewrite lookup_insert_ne; [done|congruence].
Qed.

Lemma recv_service_faults
    a t b qv c sh g sg sm s n nx rb slots i cx d dd w a1 a2 rest :
  heap w !! a = Some (OTrans t) → qp t = Ptr b →
  heap w !! b = Some (OQp qv) → qp_context qv = Ptr c →
  heap w !! c = Some (OShm sh) → shm sh = Ptr g →
  heap w !! g = Some (OSeg sg) →
  heap w !! sm = Some (OSem s) → ctx_head s = Ptr n →
  heap w !! n = Some (ONode (MskList (CtxRef (Ptr rb) i) nx)) → n ∈ live w →
  heap w !! rb = Some (OCtxs slots) → slots !! i = Some cx →
  pdata cx = Ptr d → heap w !! d = Some (OData dd) →
  env w = a1 :: a2 :: rest →
  recv_service (Ptr a) (Ptr sm) (Ptr c) w
  = Fault (freed n (received d sg dd (a_errno a2) rest (recv_calls a sh cx) w)).
Proof.
  intros Ha Hq Hb Hc Hs Hg Hsg Hsm Hhd Hn Hl Hrb Hi Hpd Hd He.
  unfold recv_service.
  apply bind_outcome. eapply wpx_load_as; [exact Hsm|reflexivity|].
  rewrite Hhd. cbn [truthy].
  apply bind_outcome. apply wpx_ret. cbv iota.
  apply bind_outcome. eapply wpx_of_eq; [by eapply recv_transfer_returns|].
  apply fault_outcome. apply (drop_head_faults sm s n); [|done|done].
  cbn [received heap]. rewrite lookup_insert_ne; [done|congruence].
Qed.

(** ** Order of service *)

(** C1 fails on the code.  The sender that is woken with requests in its
    queue services the one at the head: it puts its message into the
    segment and calls its completion callback.  It then frees the node at
    the head and reads the [next] member of the node it has freed, which
    is undefined: whatever the queue holds behind the head, the thread
    ends here with one store and one completion, the anchors of the
    queue still at the freed node. *)
Theorem sender_reads_the_node_it_freed
    fuel a t b qv c sh g sg scq cq sm s n nx sb slots i cx d dd w e0 a1 a2 a3 rest :
  heap w !! a = Some (OTrans t) → qp t = Ptr b →
  heap w !! b = Some (OQp qv) → qp_context qv = Ptr c → send_cq qv = Ptr scq →
  heap w !! scq = Some (OCq cq) → cq_context cq = Ptr sm →
  heap w !! c = Some (OShm sh) → shm sh = Ptr g →
  heap w !! g = Some (OSeg sg) →
  heap w !! sm = Some (OSem s) → ctx_head s = Ptr n →
  heap w !! n = Some (ONode (MskList (CtxRef (Ptr sb) i) nx)) → n ∈ live w →
  heap w !! sb = Some (OCtxs slots) → slots !! i = Some cx →
  pdata cx = Ptr d → heap w !! d = Some (OData dd) →
  env w = Answer 0 e0 :: a1 :: a2 :: a3 :: rest →
  ∃ w',
    msk_send_thread (S fuel) (Ptr a) w = Fault w' ∧
    w' = freed n (sent g sg dd (a_errno a3) rest
                    (EvCondWait (Ptr a) :: send_calls a sh s cx dd (bytes w)) w) ∧
    stores (trace w') = stores (trace w) ++ [Ptr d] ∧
    completions Sender (trace w')
    = completions Sender (trace w) ++
      match callback cx with Some f => [(f, Ptr d, callback_arg cx)] | None => [] end ∧
    heap w' !! sm = Some (OSem s) ∧ n ∉ live w'.
Proof.
  intros Ha Hq Hb Hc Hscq Hcq Hcx Hs Hg Hsg Hsm Hhd Hn Hl Hsb Hi Hpd Hd He.
  eexists. split; [|split; [reflexivity|]].
  - destruct w as [h lv by0 e en tr]. cbn [heap live bytes env] in *. subst en.
    unfold msk_send_thread, send_thread_unready, null_or. osteps.
    cbn [loop]. unfold send_turn. osteps.
    apply fault_outcome.
    erewrite send_service_faults; [|lookup_tac..|reflexivity]; try eassumption.
    unfold freed, sent. cbn [heap live bytes errno env trace].
    by rewrite <- !app_assoc.
  - unfold freed, sent, send_calls, callback_calls.
    cbn [heap live bytes errno env trace]. split_and!.
    + rewrite !stores_app, Hpd. cbn. destruct (callback cx) as [[]|]; cbn;
        by rewrite ?app_nil_r.
    + rewrite !completions_app, Hpd. cbn.
      destruct (callback cx) as [[]|]; cbn; by rewrite ?app_nil_r.
    + rewrite lookup_insert_ne; [done|congruence].
    + intros [_ Hx]%elem_of_difference. apply Hx. by apply elem_of_singleton.
Qed.

(** ** Slots in use *)

(** C6 fails on the code.  A worker that services a request frees the
    node at the head of its queue and then reads that node to unlink it,
    which is undefined.  Where the service ends the node is freed and
    still the head of the queue, and the in-use flag of its slot is still
    set: the unlink has not been done and the statement that clears the
    flag is not reached. *)
Theorem worker_unlinks_a_freed_node
    a t b qv c sh g sg sm s n nx buf slots i cx d dd w :
  heap w !! a = Some (OTrans t) → qp t = Ptr b →
  heap w !! b = Some (OQp qv) → qp_context qv = Ptr c →
  heap w !! c = Some (OShm sh) → shm sh = Ptr g →
  heap w !! g = Some (OSeg sg) →
  heap w !! sm = Some (OSem s) → ctx_head s = Ptr n →
  heap w !! n = Some (ONode (MskList (CtxRef (Ptr buf) i) nx)) → n ∈ live w →
  heap w !! buf = Some (OCtxs slots) → slots !! i = Some cx → used cx ≠ 0 →
  pdata cx = Ptr d → heap w !! d = Some (OData dd) →
  (∀ scq cq a1 a2 a3 rest,
     send_cq qv = Ptr scq → heap w !! scq = Some (OCq cq) → cq_context cq = Ptr sm →
     env w = a1 :: a2 :: a3 :: rest →
     ∃ w',
       send_service (Ptr a) (Ptr sm) (Ptr c) w = Fault w' ∧
       w' = freed n (sent g sg dd (a_errno a3) rest
                       (send_calls a sh s cx dd (bytes w)) w) ∧
       heap w' !! sm = Some (OSem s) ∧ (n ∉ live w') ∧
       slot_in_use (heap w') (CtxRef (Ptr buf) i)) ∧
  (∀ a1 a2 rest,
     env w = a1 :: a2 :: rest →
     ∃ w',
       recv_service (Ptr a) (Ptr sm) (Ptr c) w = Fault w' ∧
       w' = freed n (received d sg dd (a_errno a2) rest (recv_calls a sh cx) w) ∧
       heap w' !! sm = Some (OSem s) ∧ (n ∉ live w') ∧
       slot_in_use (heap w') (CtxRef (Ptr buf) i)).
Proof.
  intros Ha Hq Hb Hc Hs Hg Hsg Hsm Hhd Hn Hl Hbuf Hi Hu Hpd Hd.
  assert (∀ lv, n ∉ lv ∖ ({[n]} : gset loc)) as Hout.
  { intros lv [_ Hx]%elem_of_difference. apply Hx. by apply elem_of_singleton. }
  split.
  - intros scq cq a1 a2 a3 rest Hscq Hcq Hcx He.
    eexists. split; [by eapply send_service_faults|]. split; [reflexivity|].
    unfold freed, sent. cbn [heap live]. split_and!; [|apply Hout|].
    + rewrite lookup_insert_ne; [done|congruence].
    + exists buf, slots, cx. split_and!; try done.
      rewrite lookup_insert_ne; [done|congruence].
  - intros a1 a2 rest He.
    eexists. split; [by eapply recv_service_faults|]. split; [reflexivity|].
    unfold freed, received. cbn [heap live]. split_and!; [|apply Hout|].
    + rewrite lookup_insert_ne; [done|congruence].
    + exists buf, slots, cx. split_and!; try done.
      rewrite lookup_insert_ne; [done|congruence].
Qed.

(** ** The properties at work on the trial connection *)

Lemma demo_idle script : conn_idle demo_conn (heap (demo_world script)).
Proof.
  split_and!.
  - do 2 eexists. split_and!; try reflexivity; done.
  - exists (MskSem CLIENT_SEND_SEM_KEY 9 Null Null), [zero_ctx; zero_ctx].
    split_and!; try reflexivity; constructor.
  - exists (MskSem SERVER_SEND_SEM_KEY 10 Null Null), [zero_ctx; zero_ctx].
    split_and!; try reflexivity; constructor.
  - intros x Hx. by apply elem_of_nil in Hx.
Qed.

(** Two sends are posted, the 4 bytes at [Ptr 11] and the 8 bytes at
    [Ptr 12]; the sender is woken once and the second message is never
    stored. *)
Lemma sender_reads_the_node_it_freed_witness :
  ∃ w',
    msk_send_thread 3 (Ptr 1) (demo_full_world [ok 0; ok 0; ok 0; ok 0]) = Fault w' ∧
    stores (trace w') = [Ptr 11] ∧
    heap w' !! 8%positive = Some (OSem (MskSem CLIENT_SEND_SEM_KEY 9 (Ptr 15) (Ptr 16))) ∧
    15%positive ∉ live w'.
Proof.
  destruct (sender_reads_the_node_it_freed 2 1%positive
              (MskTrans MSK_INIT 0 3000000 2 2 (Some (UserFn 99)) (Ptr 3) (Ptr 2) (Ptr 4))
              4%positive (IbvQp (Ptr 5) (Ptr 7) (Ptr 9)) 5%positive
              (MskShm 7 SHM_KEY SHM_SIZE (Ptr 6) SHM_SEM_KEY 8) 6%positive
              (Segment 0 4096) 7%positive (IbvCq (Ptr 8)) 8%positive
              (MskSem CLIENT_SEND_SEM_KEY 9 (Ptr 15) (Ptr 16)) 15%positive (Ptr 16)
              3%positive [MskCtx 1 (Ptr 11) None 0; MskCtx 1 (Ptr 12) None 0] 0%nat
              (MskCtx 1 (Ptr 11) None 0) 11%positive (MskData 4 4 1000)
              (demo_full_world [ok 0; ok 0; ok 0; ok 0]) 0 (ok 0) (ok 0) (ok 0) [])
    as (w' & Hrun & _ & Hst & _ & Hsm & Hl);
    [first [ refine (bool_decide_unpack _ _); vm_compute; exact I
           | vm_compute; reflexivity ]..|].
  exists w'. split; [exact Hrun|]. split; [exact Hst|]. split; [exact Hsm|exact Hl].
Defined.

(** One send is posted and the sender services it; one receive is posted,
    the peer stores a message and the receiver services it. *)
Lemma worker_unlinks_a_freed_node_witness :
  (∃ w',
     send_service (Ptr 1) (Ptr 8) (Ptr 5) (demo_send_world [ok 0; ok 0; ok 0]) = Fault w' ∧
     heap w' !! 8%positive = Some (OSem (MskSem CLIENT_SEND_SEM_KEY 9 (Ptr 15) (Ptr 15))) ∧
     (15%positive ∉ live w') ∧ slot_in_use (heap w') (CtxRef (Ptr 3) 0)) ∧
  (∃ w',
     recv_service (Ptr 1) (Ptr 10) (Ptr 5) (demo_recv_world [ok 0; ok 0]) = Fault w' ∧
     heap w' !! 10%positive = Some (OSem (MskSem SERVER_SEND_SEM_KEY 10 (Ptr 15) (Ptr 15))) ∧
     (15%positive ∉ live w') ∧ slot_in_use (heap w') (CtxRef (Ptr 2) 0)).
Proof.
  split.
  - destruct (proj1 (worker_unlinks_a_freed_node 1%positive
              (MskTrans MSK_INIT 0 3000000 2 2 (Some (UserFn 99)) (Ptr 3) (Ptr 2) (Ptr 4))
              4%positive (IbvQp (Ptr 5) (Ptr 7) (Ptr 9)) 5%positive
              (MskShm 7 SHM_KEY SHM_SIZE (Ptr 6) SHM_SEM_KEY 8) 6%positive
              (Segment 0 4096) 8%positive
              (MskSem CLIENT_SEND_SEM_KEY 9 (Ptr 15) (Ptr 15)) 15%positive Null
              3%positive [MskCtx 1 (Ptr 11) (Some (UserFn 1)) 0; zero_ctx] 0%nat
              (MskCtx 1 (Ptr 11) (Some (UserFn 1)) 0) 11%positive (MskData 4 4 1000)
              (demo_send_world [ok 0; ok 0; ok 0])
              ltac:(vm_compute; reflexivity) eq_refl ltac:(vm_compute; reflexivity) eq_refl
              ltac:(vm_compute; reflexivity) eq_refl ltac:(vm_compute; reflexivity)
              ltac:(vm_compute; reflexivity) eq_refl ltac:(vm_compute; reflexivity)
              ltac:(refine (bool_decide_unpack _ _); vm_compute; exact I)
              ltac:(vm_compute; reflexivity) eq_refl ltac:(discriminate) eq_refl
              ltac:(vm_compute; reflexivity))
              7%positive (IbvCq (Ptr 8)) (ok 0) (ok 0) (ok 0) []
              eq_refl ltac:(vm_compute; reflexivity) eq_refl eq_refl)
      as (w' & Hrun & _ & Hsm & Hl & Hu).
    exists w'. split; [exact Hrun|]. split; [exact Hsm|]. split; [exact Hl|exact Hu].
  - destruct (proj2 (worker_unlinks_a_freed_node 1%positive
              (MskTrans MSK_INIT 0 3000000 2 2 (Some (UserFn 99)) (Ptr 3) (Ptr 2) (Ptr 4))
              4%positive (IbvQp (Ptr 5) (Ptr 7) (Ptr 9)) 5%positive
              (MskShm 7 SHM_KEY SHM_SIZE (Ptr 6) SHM_SEM_KEY 8) 6%positive
              (Segment 8 4096) 10%positive
              (MskSem SERVER_SEND_SEM_KEY 10 (Ptr 15) (Ptr 15)) 15%positive Null
              2%positive [MskCtx 1 (Ptr 14) (Some (UserFn 7)) 0; zero_ctx] 0%nat
              (MskCtx 1 (Ptr 14) (Some (UserFn 7)) 0) 14%positive (MskData 4 0 5000)
              (demo_recv_world [ok 0; ok 0])
              ltac:(vm_compute; reflexivity) eq_refl ltac:(vm_compute; reflexivity) eq_refl
              ltac:(vm_compute; reflexivity) eq_refl ltac:(vm_compute; reflexivity)
              ltac:(vm_compute; reflexivity) eq_refl ltac:(vm_compute; reflexivity)
              ltac:(refine (bool_decide_unpack _ _); vm_compute; exact I)
              ltac:(vm_compute; reflexivity) eq_refl ltac:(discriminate) eq_refl
              ltac:(vm_compute; reflexivity))
              (ok 0) (ok 0) [] eq_refl)
      as (w' & Hrun & _ & Hsm & Hl & Hu).
    exists w'. split; [exact Hrun|]. split; [exact Hsm|]. split; [exact Hl|exact Hu].
Defined.

Lemma recv_thread_disconnects_once_witness :
  (_ ← loop 1 (recv_turn (Ptr 1) (Ptr 10) (Ptr 5)); recv_thread_exit (Ptr 1))
    (demo_world [Answer (-1) 43])
  = Ret tt (World (<[1%positive:=OTrans (MskTrans MSK_CLOSED 0 3000000 2 2
                                          (Some (UserFn 99)) (Ptr 3) (Ptr 2) (Ptr 4))]>
                     demo_heap)
              demo_live demo_bytes 43 []
              [EvSemop 10 (-1); EvDisconnect (UserFn 99) (Ptr 1); EvThreadExit]).
Proof.
  apply (proj1 (recv_thread_disconnects_once 1%positive
           (MskTrans MSK_INIT 0 3000000 2 2 (Some (UserFn 99)) (Ptr 3) (Ptr 2) (Ptr 4))
           4%positive (IbvQp (Ptr 5) (Ptr 7) (Ptr 9)) 9%positive (IbvCq (Ptr 10))
           10%positive (MskSem SERVER_SEND_SEM_KEY 10 Null Null) (-1) 43 [] 0%nat
           (Ptr 10) (Ptr 5) (demo_world [Answer (-1) 43])
           eq_refl eq_refl eq_refl eq_refl eq_refl eq_refl eq_refl eq_refl
           ltac:(lia))).
Defined.

Lemma recv_service_copies_mailbox_length_witness :
  ∃ w', recv_transfer (Ptr 1) (Ptr 10) (Ptr 5) (demo_recv_world [ok 0; ok 0])
        = Ret (CtxRef (Ptr 2) 0) w' ∧
        heap w' !! 14%positive = Some (OData (MskData 4 8 5000)) ∧
        bytes w' !! 5004 = Some 66.
Proof.
  destruct (recv_service_copies_mailbox_length 1%positive
              (MskTrans MSK_INIT 0 3000000 2 2 (Some (UserFn 99)) (Ptr 3) (Ptr 2) (Ptr 4))
              4%positive (IbvQp (Ptr 5) (Ptr 7) (Ptr 9)) 5%positive
              (MskShm 7 SHM_KEY SHM_SIZE (Ptr 6) SHM_SEM_KEY 8) 6%positive
              (Segment 8 4096) 10%positive
              (MskSem SERVER_SEND_SEM_KEY 10 (Ptr 15) (Ptr 15)) 15%positive Null
              2%positive [MskCtx 1 (Ptr 14) (Some (UserFn 7)) 0; zero_ctx] 0%nat
              (MskCtx 1 (Ptr 14) (Some (UserFn 7)) 0) 14%positive (MskData 4 0 5000)
              (demo_recv_world [ok 0; ok 0]) (ok 0) (ok 0) [])
    as (w' & Hrun & Hd & Hb & Hover);
    [vm_compute; reflexivity..|].
  exists w'. split; [exact Hrun|]. split; [exact Hd|].
  etrans; [exact (Hover ltac:(cbn; lia))|]. vm_compute. reflexivity.
Defined.

(** ** Setting a connection up *)

Lemma setup_buffer_spec s a t w m1 m2 m3 m4 sg at_ s0 m5 m6 s1 m7 m8 s2 rest
    (Q : Z → world → Prop) :
  heap w !! a = Some (OTrans t) →
  env w = [m1; m2; m3; m4; sg; at_; s0; m5; m6; s1; m7; m8; s2] ++ rest →
  Forall (λ m, a_ret m ≠ 0) [m1; m2; m3; m4; s0; m5; m6; s1; m7; m8; s2] →
  a_ret sg ≠ -1 → a_ret at_ ≠ -1 →
  (∀ k g h',
     c_trans k = a → c_sdepth k = sq_depth t → c_rdepth k = rq_depth t →
     NoDup (a :: conn_blocks k g) →
     Forall (λ l, heap w !! l = None) (conn_blocks k g) →
     built k g t (a_ret sg) (a_ret at_) (a_ret s0) (a_ret s1) (a_ret s2) h' →
     (∀ l, l ∉ a :: conn_blocks k g → h' !! l = heap w !! l) →
     Q 0 (World h' (conn_allocated k ∪ live w) (bytes w) (a_errno s2) rest
            (trace w ++ setup_calls k t (a_ret sg)))) →
  wpx s (msk_setup_buffer (Ptr a)) w Q.
Proof.
  intros Ha He Hm H5 H6 HQ.
  repeat match goal with
         | H : Forall _ (_ :: _) |- _ => apply Forall_cons in H as [? H]
         end.
  repeat match goal with
         | H : _ ≠ _ |- _ => apply Z.eqb_neq in H
         end.
  destruct w as [h lv by0 e en tr]. wsimpl. cbn [app] in He. subst en.
  unfold msk_setup_buffer, malloc, shmat.
  repeat sstep.
  rewrite <- !app_assoc. cbn [app].
  match goal with
  | |- Q 0 {| heap := ?h'; live := {[?rs]} ∪ ({[?rcq]} ∪ ({[?ss]} ∪ ({[?scq]} ∪
             ({[?c]} ∪ ({[?q]} ∪ ({[?sb]} ∪ ({[?rb]} ∪ _))))))) |} =>
      specialize (HQ (Conn a sb rb q scq rcq ss rs c (sq_depth t) (rq_depth t)));
      match h' with
      | context [<[?g:=OSeg _]> _] => specialize (HQ g h')
      end
  end.
  unfold conn_allocated, setup_calls, conn_blocks in HQ. cbn in HQ.
  rewrite <- !(assoc_L (∪)) in HQ.
  apply HQ; clear HQ; try done.
  - distinct.
  - repeat (apply Forall_cons; split; [done|]). apply Forall_nil_2.
  - unfold built. cbn. split_and!; lookup_tac.
  - intros x Hx. rewrite !not_elem_of_cons in Hx. destruct_and!.
    repeat rewrite lookup_insert_ne by (by apply not_eq_sym). reflexivity.
Qed.

(** X1: With every call succeeding, [msk_setup_buffer] returns 0 and leaves
    the connection built: nine new blocks, all distinct (the two pools
    with [rq_depth] and [sq_depth] zeroed slots, the queue pair, the
    segment descriptor, the mapped segment, and a completion queue and a
    semaphore block for each direction), the send key of a client being
    the receive key of a server and the other way round.  The state of
    the connection is not changed, no other block is touched, and the
    anchors of the two queues are not written. *)
Theorem msk_setup_buffer_builds_the_connection
    a t w m1 m2 m3 m4 sg at_ s0 m5 m6 s1 m7 m8 s2 rest :
  heap w !! a = Some (OTrans t) →
  env w = [m1; m2; m3; m4; sg; at_; s0; m5; m6; s1; m7; m8; s2] ++ rest →
  Forall (λ m, a_ret m ≠ 0) [m1; m2; m3; m4; s0; m5; m6; s1; m7; m8; s2] →
  a_ret sg ≠ -1 → a_ret at_ ≠ -1 →
  ∃ k g w',
    msk_setup_buffer (Ptr a) w = Ret 0 w' ∧
    c_trans k = a ∧ c_sdepth k = sq_depth t ∧ c_rdepth k = rq_depth t ∧
    NoDup (a :: conn_blocks k g) ∧
    Forall (λ l, heap w !! l = None) (conn_blocks k g) ∧
    built k g t (a_ret sg) (a_ret at_) (a_ret s0) (a_ret s1) (a_ret s2) (heap w') ∧
    (∀ l, l ∉ a :: conn_blocks k g → heap w' !! l = heap w !! l) ∧
    live w' = conn_allocated k ∪ live w ∧ bytes w' = bytes w ∧
    errno w' = a_errno s2 ∧ env w' = rest ∧
    trace w' = trace w ++ setup_calls k t (a_ret sg).
Proof.
  intros Ha He Hm H5 H6.
  cut (wp (msk_setup_buffer (Ptr a)) w (λ r w', r = 0 ∧ ∃ k g,
      c_trans k = a ∧ c_sdepth k = sq_depth t ∧ c_rdepth k = rq_depth t ∧
      NoDup (a :: conn_blocks k g) ∧
      Forall (λ l, heap w !! l = None) (conn_blocks k g) ∧
      built k g t (a_ret sg) (a_ret at_) (a_ret s0) (a_ret s1) (a_ret s2) (heap w') ∧
      (∀ l, l ∉ a :: conn_blocks k g → heap w' !! l = heap w !! l) ∧
      live w' = conn_allocated k ∪ live w ∧ bytes w' = bytes w ∧
      errno w' = a_errno s2 ∧ env w' = rest ∧
      trace w' = trace w ++ setup_calls k t (a_ret sg))).
  { intros (r & w' & Hrun & -> & k & g & Hk)%wp_elim.
    exists k, g, w'. exact (conj Hrun Hk). }
  eapply setup_buffer_spec; [eassumption..|].
  intros k g h' Hk1 Hk2 Hk3 Hnd Hfr Hb Hframe. split; [reflexivity|].
  exists k, g. split_and!; first [assumption | reflexivity].
Qed.

Lemma msk_setup_buffer_builds_the_connection_witness :
  ∃ k g w',
    msk_setup_buffer (Ptr 1) (init_world demo_setup_script) = Ret 0 w' ∧
    c_trans k = 1%positive ∧
    built k g (MskTrans MSK_INIT 0 3000000 2 5 (Some (UserFn 99)) Null Null Null)
      7 4096 8 9 10 (heap w') ∧
    env w' = [].
Proof.
  destruct (msk_setup_buffer_builds_the_connection 1%positive
              (MskTrans MSK_INIT 0 3000000 2 5 (Some (UserFn 99)) Null Null Null)
              (init_world demo_setup_script)
              (ok 1) (ok 1) (ok 1) (ok 1) (ok 7) (ok 4096) (ok 8) (ok 1) (ok 1) (ok 9)
              (ok 1) (ok 1) (ok 10) [])
    as (k & g & w' & Hrun & Hk & _ & _ & _ & _ & Hb & _ & _ & _ & _ & He & _).
  - reflexivity.
  - reflexivity.
  - repeat (apply Forall_cons; split; [cbn; lia|]). apply Forall_nil_2.
  - cbn. lia.
  - cbn. lia.
  - exists k, g, w'. split_and!; assumption.
Defined.

(** X2: The two posts read the tail anchor of their queue before anything has
    written it: on a connection that setup has just built, with a slot
    free and the node allocated, the test [if (sem->ctx_last)] is on the
    value [malloc] left there. *)
Theorem first_post_reads_an_anchor_never_written
    k g t i1 i2 i3 i4 i5 w pd num_sge mr cb ecb arg r e rest :
  built k g t i1 i2 i3 i4 i5 (heap w) →
  env w = Answer r e :: rest → r ≠ 0 →
  (0 < sq_depth t →
   faults (msk_post_n_send (Ptr (c_trans k)) pd num_sge mr cb ecb arg) w) ∧
  (0 < rq_depth t →
   faults (msk_post_n_recv (Ptr (c_trans k)) pd num_sge mr cb ecb arg) w).
Proof.
  intros (Ht & Hrb & Hsb & Hq & Hc & Hg & Hscq & Hss & Hrcq & Hrs) He Hr.
  apply Z.eqb_neq in Hr.
  destruct w as [h lv by0 e0 en tr]. wsimpl. subst en. split; intros Hd.
  - destruct (Z.to_nat (sq_depth t)) as [|n] eqn:Hn; [lia|].
    unfold msk_post_n_send. fsteps.
    apply faults_bind.
    eapply (find_slot_free _ _ _ _ _ (replicate (S n) zero_ctx) 0%nat);
      [lookup_tac|reflexivity|lookup_tac|cbn [sq_depth]; rewrite Hn; reflexivity
      |cbn [sq_depth]; lia|].
    apply faults_bind. eapply fill_slot_spec; [lookup_tac|reflexivity|]. cbv beta.
    unfold enqueue, malloc. fsteps.
  - destruct (Z.to_nat (rq_depth t)) as [|n] eqn:Hn; [lia|].
    unfold msk_post_n_recv. fsteps.
    apply faults_bind.
    eapply (find_slot_free _ _ _ _ _ (replicate (S n) zero_ctx) 0%nat);
      [lookup_tac|reflexivity|lookup_tac|cbn [rq_depth]; rewrite Hn; reflexivity
      |cbn [rq_depth]; lia|].
    apply faults_bind. eapply fill_slot_spec; [lookup_tac|reflexivity|]. cbv beta.
    unfold enqueue, malloc. fsteps.
Qed.

Lemma demo_built script :
  built demo_built_conn 6
    (MskTrans MSK_INIT 0 3000000 2 5 (Some (UserFn 99)) Null Null Null)
    7 4096 8 9 10 (heap (demo_built_world script)).
Proof. unfold built. split_and!; vm_compute; reflexivity. Qed.

Lemma first_post_reads_an_anchor_never_written_witness :
  faults (msk_post_n_send (Ptr 1) (Ptr 11) 1 Null None None 0) (demo_built_world [ok 1]) ∧
  faults (msk_post_n_recv (Ptr 1) (Ptr 14) 1 Null None None 0) (demo_built_world [ok 1]).
Proof.
  destruct (first_post_reads_an_anchor_never_written demo_built_conn 6
              (MskTrans MSK_INIT 0 3000000 2 5 (Some (UserFn 99)) Null Null Null)
              7 4096 8 9 10 (demo_built_world [ok 1]) (Ptr 11) 1 Null None None 0
              1 0 [] (demo_built [ok 1]) eq_refl ltac:(lia)) as [Hs Hr].
  split.
  - apply Hs. reflexivity.
  - pose proof (first_post_reads_an_anchor_never_written demo_built_conn 6
              (MskTrans MSK_INIT 0 3000000 2 5 (Some (UserFn 99)) Null Null Null)
              7 4096 8 9 10 (demo_built_world [ok 1]) (Ptr 14) 1 Null None None 0
              1 0 [] (demo_built [ok 1]) eq_refl ltac:(lia)) as [_ Hr'].
    apply Hr'. reflexivity.
Defined.

(** ** Connecting *)

(** X3: When setup succeeds, [msk_connect] locks the connection, creates the
    sender and the receiver, adds 1 to the semaphore selected by SHM_SEM
    and returns 0.  It returns with the lock held, it does not look at
    what the semaphore operation returns, and the state of the connection
    is the state it had. *)
Theorem msk_connect_spawns_the_workers
    a t w m1 m2 m3 m4 sg at_ s0 m5 m6 s1 m7 m8 s2 so rest :
  heap w !! a = Some (OTrans t) →
  env w = [m1; m2; m3; m4; sg; at_; s0; m5; m6; s1; m7; m8; s2] ++ so :: rest →
  Forall (λ m, a_ret m ≠ 0) [m1; m2; m3; m4; s0; m5; m6; s1; m7; m8; s2] →
  a_ret sg ≠ -1 → a_ret at_ ≠ -1 →
  ∃ k g w',
    msk_connect (Ptr a) w = Ret 0 w' ∧
    c_trans k = a ∧
    built k g t (a_ret sg) (a_ret at_) (a_ret s0) (a_ret s1) (a_ret s2) (heap w') ∧
    errno w' = a_errno so ∧ env w' = rest ∧
    trace w' = trace w ++ setup_calls k t (a_ret sg) ++
               [EvMutexLock (TransLock (Ptr a)); EvSpawn Sender (Ptr a);
                EvSpawn Receiver (Ptr a); EvSemop SHM_KEY 1].
Proof.
  intros Ha He Hm H5 H6.
  cut (wp (msk_connect (Ptr a)) w (λ r w', r = 0 ∧ ∃ k g,
    c_trans k = a ∧
    built k g t (a_ret sg) (a_ret at_) (a_ret s0) (a_ret s1) (a_ret s2) (heap w') ∧
    errno w' = a_errno so ∧ env w' = rest ∧
    trace w' = trace w ++ setup_calls k t (a_ret sg) ++
               [EvMutexLock (TransLock (Ptr a)); EvSpawn Sender (Ptr a);
                EvSpawn Receiver (Ptr a); EvSemop SHM_KEY 1])).
  { intros (r & w' & Hrun & -> & k & g & Hk)%wp_elim.
    exists k, g, w'. exact (conj Hrun Hk). }
  unfold msk_connect. wsteps.
  eapply setup_buffer_spec; [eassumption..|].
  intros k g h' Hk1 Hk2 Hk3 Hnd Hfr Hb Hframe.
  pose proof Hb as (Ht & Hrb & Hsb & Hq & Hc & _). rewrite Hk1 in Ht.
  wsteps.
  eapply msk_semop_shm; [lookup_tac|reflexivity|lookup_tac|reflexivity|lookup_tac
                        |reflexivity|].
  wsteps. split; [reflexivity|]. exists k, g.
  split_and!; try first [assumption | reflexivity].
  rewrite <- !app_assoc. reflexivity.
Qed.

Lemma msk_connect_spawns_the_workers_witness :
  ∃ w', msk_connect (Ptr 1) (init_world (demo_setup_script ++ [ok 0])) = Ret 0 w' ∧
        env w' = [].
Proof.
  destruct (msk_connect_spawns_the_workers 1%positive
              (MskTrans MSK_INIT 0 3000000 2 5 (Some (UserFn 99)) Null Null Null)
              (init_world (demo_setup_script ++ [ok 0]))
              (ok 1) (ok 1) (ok 1) (ok 1) (ok 7) (ok 4096) (ok 8) (ok 1) (ok 1) (ok 9)
              (ok 1) (ok 1) (ok 10) (ok 0) [])
    as (k & g & w' & Hrun & _ & _ & _ & He & _).
  - reflexivity.
  - reflexivity.
  - repeat (apply Forall_cons; split; [cbn; lia|]). apply Forall_nil_2.
  - cbn. lia.
  - cbn. lia.
  - exists w'. split; assumption.
Defined.

(** X4: [msk_accept_one] does what [msk_connect] does and hides the error
    code: it returns the connection when [msk_connect] returns 0 and NULL
    when it returns an error, and leaves the same world. *)
Theorem msk_accept_one_as_msk_connect trans w :
  msk_accept_one trans w
  = match msk_connect trans w with
    | Ret r w' => Ret (if r =? 0 then trans else Null) w'
    | Blocked w' => Blocked w'
    | Fault w' => Fault w'
    end.
Proof.
  unfold msk_accept_one, msk_connect, mbind, M_bind, bind, mret, M_ret, ret.
  destruct (truthy trans w) as [[] w1| |]; cbn [negb]; try reflexivity.
  destruct (msk_setup_buffer trans w1) as [r w2| |]; try reflexivity.
  destruct (r =? 0) eqn:Hr; cbn [negb]; [|by rewrite Hr].
  repeat match goal with
         | |- context [match ?m ?w with _ => _ end] =>
             destruct (m w) as [? ?| |]; try reflexivity
         end.
Qed.

(** ** Creation that fails, and destruction *)

(** X5: Without memory [msk_init] returns ENOMEM, leaves NULL in [*ptrans]
    and has allocated nothing. *)
Theorem msk_init_without_memory attr w e rest :
  env w = Answer 0 e :: rest →
  msk_init attr w
  = Ret (ENOMEM, Null)
      (World (heap w) (live w) (bytes w) e rest (trace w ++ [EvMalloc Null])).
Proof.
  intros He. destruct w as [h lv by0 e0 en tr]. cbn in He. subst en. reflexivity.
Qed.

Lemma msk_init_without_memory_witness :
  msk_init demo_attr (empty_world [Answer 0 ENOMEM])
  = Ret (ENOMEM, Null) (World ∅ ∅ ∅ ENOMEM [] [EvMalloc Null]).
Proof. apply (msk_init_without_memory demo_attr (empty_world [Answer 0 ENOMEM])
                ENOMEM [] eq_refl).
Defined.

Lemma destroy_trans_without_qp a t w :
  heap w !! a = Some (OTrans t) → qp t = Null →
  faults (msk_destroy_trans (Ptr a)) w.
Proof.
  intros Ha Hq. destruct w as [h lv by0 e en tr].
  unfold msk_destroy_trans, msk_destroy_buffer.
  fsteps.
  destruct (send_buf t) as [| |sb] eqn:Hsb; fsteps.
  - destruct (recv_buf t) as [| |rbv] eqn:Hrb; fsteps.
    destruct (decide (rbv ∈ lv)) as [Hl|Hl].
    + apply faults_bind. apply wpx_release_block; [exact Hl|]. fsteps.
    + apply faults_here. exists (World h lv by0 e en tr).
      unfold release_block. cbn. by rewrite decide_False.
  - destruct (decide (sb ∈ lv)) as [Hl|Hl].
    + apply faults_bind. apply wpx_release_block; [exact Hl|]. fsteps.
      destruct (recv_buf t) as [| |rbv] eqn:Hrb; fsteps.
      match goal with
      | |- faults (mbind _ (release_block _)) ?w0 =>
          destruct (decide (rbv ∈ live w0)) as [Hl2|Hl2]
      end.
      * apply faults_bind. apply wpx_release_block; [exact Hl2|]. fsteps.
      * apply faults_here. eexists. unfold release_block.
        by rewrite decide_False.
    + apply faults_here. exists (World h lv by0 e en tr).
      unfold release_block. cbn. by rewrite decide_False.
Qed.

(** X6: [msk_destroy_buffer] goes through [trans->qp] without testing it
    first: on a connection that has no queue pair, [msk_destroy_trans]
    does not return. *)
Theorem msk_destroy_trans_needs_a_queue_pair a t w :
  heap w !! a = Some (OTrans t) → qp t = Null →
  faults (msk_destroy_trans (Ptr a)) w.
Proof. apply destroy_trans_without_qp. Qed.

Lemma msk_destroy_trans_needs_a_queue_pair_witness :
  faults (msk_destroy_trans (Ptr 1)) (init_world []).
Proof.
  apply (msk_destroy_trans_needs_a_queue_pair 1%positive
           (MskTrans MSK_INIT 0 3000000 2 5 (Some (UserFn 99)) Null Null Null)
           (init_world []) eq_refl eq_refl).
Defined.

(** X7: On its two error paths after the allocation [msk_init] calls
    [msk_destroy_trans] on the connection it has just zeroed: when the
    initialisation of the mutex or of the condition variable fails, it
    does not return the error. *)
Theorem msk_init_does_not_report_a_failed_lock attr w r1 e1 r2 e2 r3 e3 rest :
  env w = Answer r1 e1 :: Answer r2 e2 :: Answer r3 e3 :: rest →
  r1 ≠ 0 → r2 ≠ 0 ∨ r3 ≠ 0 →
  faults (msk_init attr) w.
Proof.
  intros He H1 H23. apply Z.eqb_neq in H1.
  destruct w as [h lv by0 e en tr]. cbn in He. subst en.
  unfold msk_init, malloc. fsteps.
  destruct (r2 =? 0) eqn:H2; cbn [negb].
  - destruct H23 as [H23|H3]; [by apply Z.eqb_neq in H23; congruence|].
    apply Z.eqb_neq in H3. fsteps. cbn [negb].
    eapply faults_here, destroy_trans_without_qp; [lookup_tac|reflexivity].
  - eapply faults_here, destroy_trans_without_qp; [lookup_tac|reflexivity].
Qed.

Lemma msk_init_does_not_report_a_failed_lock_witness :
  faults (msk_init demo_attr) (empty_world [ok 1; Answer EINVAL 0; ok 0]).
Proof.
  apply (msk_init_does_not_report_a_failed_lock demo_attr
           (empty_world [ok 1; Answer EINVAL 0; ok 0]) 1 0 EINVAL 0 0 0 [] eq_refl).
  - lia.
  - left. unfold EINVAL. lia.
Defined.

(** ** Destruction of a connection that was set up *)

Ltac still_live :=
  wsimpl;
  repeat (apply elem_of_difference; split;
          [|apply not_elem_of_singleton; first [assumption | by apply not_eq_sym]]);
  assumption.

Ltac dstep :=
  first [ wstep
        | apply wpx_release_block; [still_live|] ].

Lemma destroy_buffer_spec s a t sb rb q qv c sh scq ss s1 rcq rs s2 w
    (Q : unit → world → Prop) :
  heap w !! a = Some (OTrans t) →
  send_buf t = Ptr sb → recv_buf t = Ptr rb → qp t = Ptr q →
  heap w !! q = Some (OQp qv) →
  qp_context qv = Ptr c → send_cq qv = Ptr scq → recv_cq qv = Ptr rcq →
  heap w !! c = Some (OShm sh) →
  heap w !! scq = Some (OCq (IbvCq (Ptr ss))) → heap w !! ss = Some (OSem s1) →
  heap w !! rcq = Some (OCq (IbvCq (Ptr rs))) → heap w !! rs = Some (OSem s2) →
  NoDup [sb; rb; ss; scq; rs; c; q] →
  Forall (λ l, l ∈ live w) [sb; rb; ss; scq; rs; c; q] →
  Q tt (World (heap w)
          (live w ∖ {[sb]} ∖ {[rb]} ∖ {[ss]} ∖ {[scq]} ∖ {[rs]} ∖ {[c]} ∖ {[q]})
          (bytes w) (errno w) (env w)
          (trace w ++ [EvFree (Ptr sb); EvFree (Ptr rb);
                       EvSemctlRmid (semid s1); EvFree (Ptr ss); EvFree (Ptr scq);
                       EvSemctlRmid (semid s2); EvFree (Ptr rs);
                       EvShmctlRmid (shmid sh); EvFree (Ptr c); EvFree (Ptr q)])) →
  wpx s (msk_destroy_buffer (Ptr a)) w Q.
Proof.
  intros Ha Hsb Hrb Hq Hqv Hc Hscq Hrcq Hsh Hsq Hss Hrq Hrs Hnd Hlive HQ.
  repeat match goal with
         | H : Forall _ (_ :: _) |- _ => apply Forall_cons in H as [? H]
         end.
  repeat match goal with
         | H : NoDup (_ :: _) |- _ =>
             apply NoDup_cons in H as [? H];
             rewrite ?not_elem_of_cons in *
         end.
  destruct_and!.
  destruct w as [h lv by0 e en tr]. wsimpl.
  unfold msk_destroy_buffer.
  repeat dstep.
  rewrite <- !app_assoc. exact HQ.
Qed.

(** X8: On a connection that was set up, [msk_destroy_buffer] frees the two
    pools, removes the semaphore sets of the two directions and the
    segment, and frees the two semaphore blocks, the send completion
    queue, the segment descriptor and the queue pair, in this order.  It
    writes nothing to the connection (its pointers keep their values), it
    does not remove the semaphore set of the mutual exclusion, and the
    receive completion queue stays allocated. *)
Theorem msk_destroy_buffer_keeps_the_receive_queue
    a t sb rb q qv c sh scq ss s1 rcq rs s2 w :
  heap w !! a = Some (OTrans t) →
  send_buf t = Ptr sb → recv_buf t = Ptr rb → qp t = Ptr q →
  heap w !! q = Some (OQp qv) →
  qp_context qv = Ptr c → send_cq qv = Ptr scq → recv_cq qv = Ptr rcq →
  heap w !! c = Some (OShm sh) →
  heap w !! scq = Some (OCq (IbvCq (Ptr ss))) → heap w !! ss = Some (OSem s1) →
  heap w !! rcq = Some (OCq (IbvCq (Ptr rs))) → heap w !! rs = Some (OSem s2) →
  NoDup [rcq; sb; rb; ss; scq; rs; c; q] →
  Forall (λ l, l ∈ live w) [rcq; sb; rb; ss; scq; rs; c; q] →
  ∃ w',
    msk_destroy_buffer (Ptr a) w = Ret tt w' ∧
    heap w' = heap w ∧
    live w' = live w ∖ {[sb]} ∖ {[rb]} ∖ {[ss]} ∖ {[scq]} ∖ {[rs]} ∖ {[c]} ∖ {[q]} ∧
    rcq ∈ live w' ∧
    trace w' = trace w ++ [EvFree (Ptr sb); EvFree (Ptr rb);
                           EvSemctlRmid (semid s1); EvFree (Ptr ss); EvFree (Ptr scq);
                           EvSemctlRmid (semid s2); EvFree (Ptr rs);
                           EvShmctlRmid (shmid sh); EvFree (Ptr c); EvFree (Ptr q)].
Proof.
  intros Ha Hsb Hrb Hq Hqv Hc Hscq Hrcq Hsh Hsq Hss Hrq Hrs Hnd Hlive.
  apply NoDup_cons in Hnd as [Hn1 Hnd]. apply Forall_cons in Hlive as [Hl1 Hlive].
  cut (wp (msk_destroy_buffer (Ptr a)) w (λ _ w',
    heap w' = heap w ∧
    live w' = live w ∖ {[sb]} ∖ {[rb]} ∖ {[ss]} ∖ {[scq]} ∖ {[rs]} ∖ {[c]} ∖ {[q]} ∧
    rcq ∈ live w' ∧
    trace w' = trace w ++ [EvFree (Ptr sb); EvFree (Ptr rb);
                           EvSemctlRmid (semid s1); EvFree (Ptr ss); EvFree (Ptr scq);
                           EvSemctlRmid (semid s2); EvFree (Ptr rs);
                           EvShmctlRmid (shmid sh); EvFree (Ptr c); EvFree (Ptr q)])).
  { intros ([] & w' & Hrun & Hw)%wp_elim. exists w'. exact (conj Hrun Hw). }
  eapply destroy_buffer_spec; [eassumption..|].
  split_and!; try reflexivity. cbn [live].
  rewrite !not_elem_of_cons in Hn1. destruct_and!.
  repeat (apply elem_of_difference; split; [|by apply not_elem_of_singleton]).
  assumption.
Qed.

Lemma msk_destroy_buffer_keeps_the_receive_queue_witness :
  ∃ w', msk_destroy_buffer (Ptr 1) (demo_world []) = Ret tt w' ∧
        heap w' = demo_heap ∧ 9%positive ∈ live w' ∧
        frees (trace w') = [Ptr 3; Ptr 2; Ptr 8; Ptr 7; Ptr 10; Ptr 5; Ptr 4].
Proof.
  destruct (msk_destroy_buffer_keeps_the_receive_queue 1%positive
              (MskTrans MSK_INIT 0 3000000 2 2 (Some (UserFn 99)) (Ptr 3) (Ptr 2) (Ptr 4))
              3%positive 2%positive 4%positive (IbvQp (Ptr 5) (Ptr 7) (Ptr 9)) 5%positive
              (MskShm 7 SHM_KEY SHM_SIZE (Ptr 6) SHM_SEM_KEY 8)
              7%positive 8%positive (MskSem CLIENT_SEND_SEM_KEY 9 Null Null)
              9%positive 10%positive (MskSem SERVER_SEND_SEM_KEY 10 Null Null)
              (demo_world []))
    as (w' & Hrun & Hh & _ & Hl & Htr); try reflexivity.
  - refine (bool_decide_unpack _ _); vm_compute; exact I.
  - repeat (apply Forall_cons; split; [refine (bool_decide_unpack _ _); vm_compute; exact I|]).
    apply Forall_nil_2.
  - exists w'. split_and!; [exact Hrun|exact Hh|exact Hl|].
    rewrite Htr. reflexivity.
Defined.

(** ** A connection from creation to destruction *)

Lemma init_spec s attr w i1 i2 i3 rest (Q : Z * pval → world → Prop) :
  env w = i1 :: i2 :: i3 :: rest →
  a_ret i1 ≠ 0 → a_ret i2 = 0 → a_ret i3 = 0 →
  (∀ l, heap w !! l = None →
     Q (0, Ptr l)
       (World (<[l:=OTrans (MskTrans MSK_INIT (attr_server attr)
                      (if attr_timeout attr =? 0 then 3000000 else attr_timeout attr)
                      (if attr_sq_depth attr =? 0 then 5 else attr_sq_depth attr)
                      (if attr_rq_depth attr =? 0 then 5 else attr_rq_depth attr)
                      (attr_disconnect_callback attr) Null Null Null)]> (heap w))
          ({[l]} ∪ live w) (bytes w) (a_errno i3) rest
          (trace w ++ [EvMalloc (Ptr l); EvMutexInit (TransLock (Ptr l));
                       EvCondInit (Ptr l)]))) →
  wpx s (msk_init attr) w Q.
Proof.
  intros He H1 H2 H3 HQ. apply Z.eqb_neq in H1. apply Z.eqb_eq in H2, H3.
  destruct w as [h lv by0 e en tr]. wsimpl. subst en.
  unfold msk_init, malloc. repeat sstep.
  rewrite !insert_insert_eq, <- !app_assoc. by apply HQ.
Qed.

Lemma all_but_one_freed (a rb sb q c scq ss rcq rs : loc) (lv : gset loc) :
  Forall (λ l, rcq ≠ l) [a; rb; sb; q; c; scq; ss; rs] →
  Forall (λ l, l ∉ lv) [a; rb; sb; q; c; scq; ss; rs] →
  ({[rs]} ∪ ({[rcq]} ∪ ({[ss]} ∪ ({[scq]} ∪ ({[c]} ∪ ({[q]} ∪ ({[sb]} ∪ {[rb]}))))))
   ∪ ({[a]} ∪ lv))
  ∖ {[sb]} ∖ {[rb]} ∖ {[ss]} ∖ {[scq]} ∖ {[rs]} ∖ {[c]} ∖ {[q]} ∖ {[a]}
  = {[rcq]} ∪ lv.
Proof.
  intros Hne Hlv.
  repeat match goal with
         | H : Forall _ (_ :: _) |- _ => apply Forall_cons in H as [? H]
         end.
  clear Hne Hlv. apply set_eq. intros x.
  rewrite !elem_of_difference, !elem_of_union, !elem_of_singleton.
  split.
  - intros (((((((([Hx|Hx] & ?) & ?) & ?) & ?) & ?) & ?) & ?) & ?).
    + destruct_or!; subst; tauto.
    + destruct_or!; subst; tauto.
  - intros [->|Hx].
    + split_and!; try assumption. tauto.
    + split_and!; try (intros ->; contradiction). tauto.
Qed.

(** X9: A connection that is created, connected and destroyed: every call
    returns, and of the nine blocks allocated on the way one, the receive
    completion queue, is still allocated at the end.  The connection is
    destroyed with its lock held and its two workers created and neither
    joined nor cancelled; the segment is not detached and the semaphore
    set of the mutual exclusion is not removed. *)
Theorem create_connect_destroy_leaks_a_block
    attr w i1 i2 i3 m1 m2 m3 m4 sg at_ s0 m5 m6 s1 m7 m8 s2 so rest :
  env w = [i1; i2; i3; m1; m2; m3; m4; sg; at_; s0; m5; m6; s1; m7; m8; s2; so] ++ rest →
  a_ret i1 ≠ 0 → a_ret i2 = 0 → a_ret i3 = 0 →
  Forall (λ m, a_ret m ≠ 0) [m1; m2; m3; m4; s0; m5; m6; s1; m7; m8; s2] →
  a_ret sg ≠ -1 → a_ret at_ ≠ -1 →
  live w ⊆ dom (heap w) →
  ∃ k g t w',
    (r ← msk_init attr; _ ← msk_connect r.2; msk_destroy_trans r.2) w = Ret tt w' ∧
    Forall (λ l, heap w !! l = None) (c_trans k :: conn_blocks k g) ∧
    built k g t (a_ret sg) (a_ret at_) (a_ret s0) (a_ret s1) (a_ret s2) (heap w') ∧
    live w' = {[c_rcq k]} ∪ live w ∧
    trace w' = trace w ++
      [EvMalloc (Ptr (c_trans k)); EvMutexInit (TransLock (Ptr (c_trans k)));
       EvCondInit (Ptr (c_trans k))] ++
      setup_calls k t (a_ret sg) ++
      [EvMutexLock (TransLock (Ptr (c_trans k))); EvSpawn Sender (Ptr (c_trans k));
       EvSpawn Receiver (Ptr (c_trans k)); EvSemop SHM_KEY 1] ++
      destroy_calls k (a_ret sg) (a_ret s1) (a_ret s2) ++
      [EvMutexDestroy (TransLock (Ptr (c_trans k))); EvCondDestroy (Ptr (c_trans k));
       EvFree (Ptr (c_trans k))].
Proof.
  intros He H1 H2 H3 Hm H5 H6 Hwf.
  cut (wp (r ← msk_init attr; _ ← msk_connect r.2; msk_destroy_trans r.2) w (λ _ w',
    ∃ k g t,
    Forall (λ l, heap w !! l = None) (c_trans k :: conn_blocks k g) ∧
    built k g t (a_ret sg) (a_ret at_) (a_ret s0) (a_ret s1) (a_ret s2) (heap w') ∧
    live w' = {[c_rcq k]} ∪ live w ∧
    trace w' = trace w ++
      [EvMalloc (Ptr (c_trans k)); EvMutexInit (TransLock (Ptr (c_trans k)));
       EvCondInit (Ptr (c_trans k))] ++
      setup_calls k t (a_ret sg) ++
      [EvMutexLock (TransLock (Ptr (c_trans k))); EvSpawn Sender (Ptr (c_trans k));
       EvSpawn Receiver (Ptr (c_trans k)); EvSemop SHM_KEY 1] ++
      destroy_calls k (a_ret sg) (a_ret s1) (a_ret s2) ++
      [EvMutexDestroy (TransLock (Ptr (c_trans k))); EvCondDestroy (Ptr (c_trans k));
       EvFree (Ptr (c_trans k))])).
  { intros ([] & w' & Hrun & k & g & t & Hw)%wp_elim.
    exists k, g, t, w'. exact (conj Hrun Hw). }
  destruct w as [h lv by0 e en tr]. cbn [heap live env trace] in *. cbn [app] in He.
  subst en.
  apply wpx_bind. eapply init_spec; [reflexivity|assumption..|].
  intros a Hfa. cbn [snd]. apply wpx_bind.
  unfold msk_connect. wsteps.
  eapply setup_buffer_spec; [lookup_tac|reflexivity|assumption..|].
  intros k g h' Hk1 Hk2 Hk3 Hnd Hfr Hb Hframe.
  pose proof Hb as (Ht & Hrb & Hsb & Hq & Hc & Hg & Hscq & Hss & Hrcq & Hrs).
  subst a. cbn [heap live bytes errno env trace] in *.
  wsteps.
  eapply msk_semop_shm; [lookup_tac|reflexivity|lookup_tac|reflexivity|lookup_tac
                        |reflexivity|].
  wsteps. unfold msk_destroy_trans. apply wpx_bind.
  unfold conn_blocks in Hnd, Hfr.
  repeat match goal with
         | H : Forall _ (_ :: _) |- _ => apply Forall_cons in H as [? H]
         end.
  assert (∀ l, h !! l = None → l ∉ lv) as Hfresh.
  { intros l Hl Hin. apply Hwf, elem_of_dom in Hin as [? ?]. congruence. }
  pose proof Hnd as Hnd'.
  repeat match goal with
         | H : NoDup (_ :: _) |- _ =>
             apply NoDup_cons in H as [? H];
             rewrite ?not_elem_of_cons in *
         end.
  destruct_and!.
  repeat match goal with
         | H : <[_:=_]> _ !! _ = None |- _ => apply lookup_insert_None in H as [H ?]
         end.
  eapply (destroy_buffer_spec _ (c_trans k) _ (c_sbuf k) (c_rbuf k) (c_qp k) _ (c_shm k) _
            (c_scq k) (c_ssem k) _ (c_rcq k) (c_rsem k));
    [exact Ht|reflexivity|reflexivity|reflexivity|exact Hq|reflexivity|reflexivity
    |reflexivity|exact Hc|exact Hscq|exact Hss|exact Hrcq|exact Hrs| | |].
  { distinct. }
  { unfold conn_allocated. cbn [live].
    repeat (apply Forall_cons; split; [in_union|]). apply Forall_nil_2. }
  cbn [heap live bytes errno env trace semid shmid].
  wsteps.
  apply wpx_release_block.
  { cbn [live]. unfold conn_allocated.
    repeat (apply elem_of_difference; split;
            [|apply not_elem_of_singleton; assumption]).
    in_union. }
  wsteps.
  exists k, g. eexists. split_and!.
  - unfold conn_blocks. repeat (apply Forall_cons; split; [assumption|]).
    apply Forall_nil_2.
  - exact Hb.
  - unfold conn_allocated.
    apply all_but_one_freed.
    + repeat (apply Forall_cons; split; [first [assumption | by apply not_eq_sym]|]).
      apply Forall_nil_2.
    + repeat (apply Forall_cons; split; [by apply Hfresh|]). apply Forall_nil_2.
  - rewrite <- !app_assoc. reflexivity.
Qed.

Lemma create_connect_destroy_leaks_a_block_witness :
  ∃ k w',
    (r ← msk_init demo_attr; _ ← msk_connect r.2; msk_destroy_trans r.2)
      (empty_world ([ok 1; ok 0; ok 0] ++ demo_setup_script ++ [ok 0])) = Ret tt w' ∧
    live w' = {[c_rcq k]} ∪ ∅.
Proof.
  destruct (create_connect_destroy_leaks_a_block demo_attr
              (empty_world ([ok 1; ok 0; ok 0] ++ demo_setup_script ++ [ok 0]))
              (ok 1) (ok 0) (ok 0)
              (ok 1) (ok 1) (ok 1) (ok 1) (ok 7) (ok 4096) (ok 8) (ok 1) (ok 1) (ok 9)
              (ok 1) (ok 1) (ok 10) (ok 0) [])
    as (k & g & t & w' & Hrun & _ & _ & Hl & _).
  - reflexivity.
  - cbn. lia.
  - reflexivity.
  - reflexivity.
  - repeat (apply Forall_cons; split; [cbn; lia|]). apply Forall_nil_2.
  - cbn. lia.
  - cbn. lia.
  - cbn. apply empty_subseteq.
  - exists k, w'. split; assumption.
Defined.

(** ** The two workers *)

(** X10: A worker that is started on a connection without a queue pair, or on
    no connection at all, ends at once: it makes no call but
    [pthread_exit].  The receiver that ends this way does not close the
    connection and does not call the disconnect callback. *)
Theorem workers_end_at_once_without_a_queue_pair fuel a t w :
  heap w !! a = Some (OTrans t) → qp t = Null →
  msk_send_thread fuel (Ptr a) w = Ret tt (set_trace (trace w ++ [EvThreadExit]) w) ∧
  msk_recv_thread fuel (Ptr a) w = Ret tt (set_trace (trace w ++ [EvThreadExit]) w) ∧
  msk_send_thread fuel Null w = Ret tt (set_trace (trace w ++ [EvThreadExit]) w) ∧
  msk_recv_thread fuel Null w = Ret tt (set_trace (trace w ++ [EvThreadExit]) w).
Proof.
  intros Ha Hq.
  unfold msk_send_thread, msk_recv_thread, send_thread_unready, recv_thread_unready,
    null_or, load_trans, load_as, load, pthread_exit, emit,
    mbind, M_bind, bind, mret, M_ret, ret.
  cbn [truthy]. unfold mret, M_ret, ret. rewrite Ha. cbn [as_trans]. rewrite Hq.
  cbn [truthy]. unfold mret, M_ret, ret. done.
Qed.

Lemma workers_end_at_once_without_a_queue_pair_witness :
  msk_recv_thread 3 (Ptr 1) (init_world [])
  = Ret tt (set_trace (trace (init_world []) ++ [EvThreadExit]) (init_world [])).
Proof.
  apply (workers_end_at_once_without_a_queue_pair 3 1%positive
           (MskTrans MSK_INIT 0 3000000 2 5 (Some (UserFn 99)) Null Null Null)
           (init_world []) eq_refl eq_refl).
Defined.

(** What the sender leaves alone. *)
Ltac kstep :=
  autounfold with mdefs; cbn beta iota;
  lazymatch goal with
  | |- pres _ (mbind _ _) => apply pres_bind; [|intros ?]
  | |- pres _ (mret _) => apply pres_ret
  | |- pres _ fault => apply pres_fault
  | |- pres _ block => apply pres_block
  | |- pres _ ask => apply keeps_ask
  | |- pres _ (load _) => apply keeps_load
  | |- pres _ (load_as _ _) => apply keeps_load_as
  | |- pres _ (load_ctx _) => apply keeps_load_ctx
  | |- pres _ (upd_as _ _ _ _) => by apply keeps_upd_as
  | |- pres _ (upd_ctx _ _) => apply keeps_upd_ctx
  | |- pres _ (truthy _) => apply keeps_truthy
  | |- pres _ (free _) => apply keeps_free
  | |- pres _ get_bytes => apply keeps_get_bytes
  | |- pres _ (put_bytes _) => apply keeps_put_bytes
  | |- pres _ (emit _) => by apply keeps_emit
  | |- pres _ (msk_semop _ _ _) => apply keeps_msk_semop
  | |- pres _ (call_callback _ _ _ _ _) => apply keeps_call_callback
  | |- pres _ (drop_head _) => apply keeps_drop_head
  | |- pres _ (loop _ _) => apply pres_loop
  | |- pres _ (match ?x with _ => _ end) => first [apply pres_if | destruct x]
  end.

Lemma keeps_send_turn a t0 d trans sem shmp :
  pres (keeps a t0 d) (send_turn trans sem shmp).
Proof.
  unfold send_turn, send_service, send_transfer, send_release. repeat kstep.
Qed.

Lemma keeps_msk_send_thread a t0 d fuel arg :
  pres (keeps a t0 d) (msk_send_thread fuel arg).
Proof.
  unfold msk_send_thread, send_thread_unready, null_or.
  repeat first [ apply keeps_send_turn | kstep ].
Qed.

(** X11: When its wait on the condition variable fails the sender ends, and the
    sender that has ended has not changed the connection block: the state
    is not set to CLOSED and the disconnect callback is not called,
    however the thread came to its end. *)
Theorem sender_ends_without_closing a t0 b qv c cq sm sh r e rest fuel w :
  heap w !! a = Some (OTrans t0) → qp t0 = Ptr b →
  heap w !! b = Some (OQp qv) → send_cq qv = Ptr c → qp_context qv = Ptr sh →
  heap w !! c = Some (OCq cq) → cq_context cq = Ptr sm →
  env w = Answer r e :: rest → r ≠ 0 →
  msk_send_thread (S fuel) (Ptr a) w
  = Ret tt (World (heap w) (live w) (bytes w) e rest
              (trace w ++ [EvCondWait (Ptr a); EvThreadExit]))
  ∧ ∀ fuel' w0 w',
      heap w0 !! a = Some (OTrans t0) →
      msk_send_thread fuel' (Ptr a) w0 = Ret tt w' →
      heap w' !! a = Some (OTrans t0) ∧
      disconnects (trace w') = disconnects (trace w0).
Proof.
  intros Ha Hq Hb Hc Hsh Hcq Hsm He Hr. split.
  - match goal with |- ?m w = Ret tt ?w1 =>
      cut (wp m w (λ _ w', w' = w1)) end.
    { intros ([] & w' & -> & ->)%wp_elim. reflexivity. }
    apply Z.eqb_neq in Hr.
    destruct w as [h lv by0 e0 en tr]. wsimpl. subst en.
    unfold msk_send_thread, send_thread_unready, null_or. wsteps.
    cbn [loop]. unfold send_turn. repeat sstep.
    by rewrite <- !app_assoc.
  - intros fuel' w0 w' Ha0 Hrun.
    exact (wlp_elim _ _ _ _ _
             (keeps_msk_send_thread a t0 (disconnects (trace w0)) fuel' (Ptr a) w0
                (conj Ha0 eq_refl)) Hrun).
Qed.

Lemma sender_ends_without_closing_witness :
  msk_send_thread 1 (Ptr 1) (demo_world [Answer 1 4])
  = Ret tt (World demo_heap demo_live demo_bytes 4 []
              [EvCondWait (Ptr 1); EvThreadExit]).
Proof.
  apply (proj1 (sender_ends_without_closing 1%positive
           (MskTrans MSK_INIT 0 3000000 2 2 (Some (UserFn 99)) (Ptr 3) (Ptr 2) (Ptr 4))
           4%positive (IbvQp (Ptr 5) (Ptr 7) (Ptr 9)) 7%positive (IbvCq (Ptr 8))
           8%positive 5%positive 1 4 [] 0%nat (demo_world [Answer 1 4])
           eq_refl eq_refl eq_refl eq_refl eq_refl eq_refl eq_refl eq_refl
           ltac:(lia))).
Defined.
(** ** What the sender puts into the segment *)



(** ** From one connection to its peer *)

(** X13: A message goes through the segment unchanged: when the sender of one
    connection services its head request and the receiver of a connection
    attached to the same segment then services its head request, the
    receiver's descriptor has the length of the sender's message and the
    receiver's buffer holds the bytes of the sender's buffer. *)
Theorem message_arrives_as_sent
    a1 t1 b1 qv1 c1 sh1 scq1 cq1 sm1 s1 n1 nx1 sb slots1 i1 cx1 d1 dd1
    a2 t2 b2 qv2 c2 sh2 sm2 s2 n2 nx2 rb slots2 i2 cx2 d2 dd2
    g sg w o1 o2 o3 o4 o5 rest :
  heap w !! a1 = Some (OTrans t1) → qp t1 = Ptr b1 →
  heap w !! b1 = Some (OQp qv1) → qp_context qv1 = Ptr c1 → send_cq qv1 = Ptr scq1 →
  heap w !! scq1 = Some (OCq cq1) → cq_context cq1 = Ptr sm1 →
  heap w !! c1 = Some (OShm sh1) → shm sh1 = Ptr g →
  heap w !! sm1 = Some (OSem s1) → ctx_head s1 = Ptr n1 →
  heap w !! n1 = Some (ONode (MskList (CtxRef (Ptr sb) i1) nx1)) →
  heap w !! sb = Some (OCtxs slots1) → slots1 !! i1 = Some cx1 →
  pdata cx1 = Ptr d1 → heap w !! d1 = Some (OData dd1) →
  heap w !! a2 = Some (OTrans t2) → qp t2 = Ptr b2 →
  heap w !! b2 = Some (OQp qv2) → qp_context qv2 = Ptr c2 →
  heap w !! c2 = Some (OShm sh2) → shm sh2 = Ptr g →
  heap w !! sm2 = Some (OSem s2) → ctx_head s2 = Ptr n2 →
  heap w !! n2 = Some (ONode (MskList (CtxRef (Ptr rb) i2) nx2)) →
  heap w !! rb = Some (OCtxs slots2) → slots2 !! i2 = Some cx2 →
  pdata cx2 = Ptr d2 → heap w !! d2 = Some (OData dd2) →
  heap w !! g = Some (OSeg sg) →
  env w = o1 :: o2 :: o3 :: o4 :: o5 :: rest →
  ∃ w',
    (_ ← send_transfer (Ptr a1) (Ptr sm1) (Ptr c1);
     recv_transfer (Ptr a2) (Ptr sm2) (Ptr c2)) w = Ret (CtxRef (Ptr rb) i2) w' ∧
    heap w' !! d2 = Some (OData (MskData (max_size dd2) (size dd1) (data dd2))) ∧
    ∀ j, 0 ≤ j < size dd1 →
         bytes w' !! (data dd2 + j) = Some (default 0 (bytes w !! (data dd1 + j))).
Proof.
  intros Ha1 Hq1 Hb1 Hc1 Hscq1 Hcq1 Hcx1 Hs1 Hg1 Hsm1 Hhd1 Hn1 Hsb Hi1 Hpd1 Hd1.
  intros Ha2 Hq2 Hb2 Hc2 Hs2 Hg2 Hsm2 Hhd2 Hn2 Hrb Hi2 Hpd2 Hd2.
  intros Hg He.
  eexists. split.
  - apply bind_outcome. eapply wpx_of_eq; [by eapply send_transfer_returns|].
    eapply (recv_transfer_returns a2 t2 b2 qv2 c2 sh2 g
              (Segment (size dd1) (seg_payload sg)) sm2 s2 n2 nx2 rb slots2 i2 cx2 d2 dd2);
      unfold sent; cbn [heap env];
      first [ eassumption | reflexivity | apply lookup_insert_eq
            | rewrite lookup_insert_ne; [eassumption|congruence] ].
  - unfold received, sent. cbn [heap bytes seg_size seg_payload]. split.
    + apply lookup_insert_eq.
    + intros j Hj. rewrite memcpy_bytes, decide_True by lia.
      rewrite memcpy_bytes, decide_True by lia. cbn [default from_option id].
      do 3 f_equal. lia.
Qed.

Lemma message_arrives_as_sent_witness :
  ∃ w',
    (_ ← send_transfer (Ptr 1) (Ptr 8) (Ptr 5); recv_transfer (Ptr 21) (Ptr 30) (Ptr 25))
      (demo_pair_world [ok 0; ok 0; ok 0; ok 0; ok 0]) = Ret (CtxRef (Ptr 22) 0) w' ∧
    heap w' !! 14%positive = Some (OData (MskData 4 4 5000)) ∧
    bytes w' !! 5001 = Some 65.
Proof.
  destruct (message_arrives_as_sent
              1%positive
              (MskTrans MSK_INIT 0 3000000 2 2 (Some (UserFn 99)) (Ptr 3) (Ptr 2) (Ptr 4))
              4%positive (IbvQp (Ptr 5) (Ptr 7) (Ptr 9)) 5%positive
              (MskShm 7 SHM_KEY SHM_SIZE (Ptr 6) SHM_SEM_KEY 8)
              7%positive (IbvCq (Ptr 8)) 8%positive
              (MskSem CLIENT_SEND_SEM_KEY 9 (Ptr 15) (Ptr 15)) 15%positive Null
              3%positive [MskCtx 1 (Ptr 11) (Some (UserFn 1)) 0; zero_ctx] 0%nat
              (MskCtx 1 (Ptr 11) (Some (UserFn 1)) 0) 11%positive (MskData 4 4 1000)
              21%positive (MskTrans MSK_INIT 1 3000000 2 2 None (Ptr 23) (Ptr 22) (Ptr 24))
              24%positive (IbvQp (Ptr 25) (Ptr 27) (Ptr 29)) 25%positive
              (MskShm 7 SHM_KEY SHM_SIZE (Ptr 6) SHM_SEM_KEY 8)
              30%positive (MskSem CLIENT_SEND_SEM_KEY 9 (Ptr 31) (Ptr 31)) 31%positive Null
              22%positive [MskCtx 1 (Ptr 14) (Some (UserFn 7)) 0; zero_ctx] 0%nat
              (MskCtx 1 (Ptr 14) (Some (UserFn 7)) 0) 14%positive (MskData 4 0 5000)
              6%positive (Segment 0 4096)
              (demo_pair_world [ok 0; ok 0; ok 0; ok 0; ok 0])
              (ok 0) (ok 0) (ok 0) (ok 0) (ok 0) [])
    as (w' & Hrun & Hd & Hb);
    [vm_compute; reflexivity..|].
  exists w'. split; [exact Hrun|]. split; [exact Hd|].
  etrans; [exact (Hb 1 ltac:(cbn; lia))|]. vm_compute. reflexivity.
Defined.
(** ** Posting when every slot is in use *)

Lemma first_unused_full l n j :
  (j + n)%nat = length l → Forall (λ c, used c ≠ 0) (drop j l) →
  first_unused l n j = Some (j + n)%nat.
Proof.
  revert j. induction n as [|n IH]; intros j Hlen Hall; cbn [first_unused].
  - f_equal. lia.
  - destruct (l !! j) as [c|] eqn:Hj; [|apply lookup_ge_None in Hj; lia].
    rewrite (drop_S _ _ _ Hj) in Hall. apply Forall_cons in Hall as [Hc Hall].
    apply Z.eqb_neq in Hc. rewrite Hc, IH by (done || lia). f_equal. lia.
Qed.

(** A scan of a pool whose slots are all in use ends in a wait, and so
    does every scan after a wait that returns: the caller is suspended
    when the script has no answer left. *)
Lemma find_slot_full a t b slots (buf : msk_trans → pval) (depth : msk_trans → Z)
    h lv by0 en :
  h !! a = Some (OTrans t) → buf t = Ptr b → h !! b = Some (OCtxs slots) →
  Z.of_nat (length slots) = depth t → Forall (λ c, used c ≠ 0) slots →
  ∀ n e tr, (length en < n)%nat →
    find_slot n (Ptr a) buf depth (World h lv by0 e en tr)
    = Blocked (World h lv by0 (default e (a_errno <$> last en)) []
                 (tr ++ replicate (S (length en)) (EvCondWait (Ptr a)))).
Proof.
  intros Ha Hb Hs Hlen Hall.
  assert (first_unused slots (Z.to_nat (depth t)) 0 = Some (length slots)) as Hscan.
  { rewrite <- Hlen, Nat2Z.id. by apply (first_unused_full slots (length slots) 0). }
  induction en as [|x en IH]; intros n e tr Hn; (destruct n as [|n]; [cbn in Hn; lia|]).
  - cbn [find_slot]. osteps. rewrite Hscan, Hlen, Z.eqb_refl. osteps.
    reflexivity.
  - cbn [find_slot]. osteps. rewrite Hscan, Hlen, Z.eqb_refl.
    osteps. rewrite IH by (cbn in Hn; lia).
    f_equal. f_equal.
    + destruct en as [|y en']; [done|].
      change (last (x :: y :: en')) with (last (y :: en')).
      destruct (last (y :: en')) eqn:Hlast; [done|]. by apply last_None in Hlast.
    + by rewrite <- app_assoc.
Qed.

(** X14: With every slot of the pool in use a post does not return.  It takes
    the lock of the connection and waits on the condition; each time the
    wait returns it scans the pool again, finds it as it was and waits
    again, whatever the waits return.  Nothing is queued, no slot is
    written and no node is allocated. *)
Theorem post_waits_when_every_slot_is_in_use a t w pd num_sge mr cb ecb arg :
  heap w !! a = Some (OTrans t) →
  (∀ sb slots,
     send_buf t = Ptr sb → heap w !! sb = Some (OCtxs slots) →
     Z.of_nat (length slots) = sq_depth t → Forall (λ c, used c ≠ 0) slots →
     msk_post_n_send (Ptr a) pd num_sge mr cb ecb arg w
     = Blocked (World (heap w) (live w) (bytes w)
                  (default (errno w) (a_errno <$> last (env w))) []
                  (trace w ++ EvMutexLock (TransLock (Ptr a)) ::
                     replicate (S (length (env w))) (EvCondWait (Ptr a))))) ∧
  (∀ rb slots,
     recv_buf t = Ptr rb → heap w !! rb = Some (OCtxs slots) →
     Z.of_nat (length slots) = rq_depth t → Forall (λ c, used c ≠ 0) slots →
     msk_post_n_recv (Ptr a) pd num_sge mr cb ecb arg w
     = Blocked (World (heap w) (live w) (bytes w)
                  (default (errno w) (a_errno <$> last (env w))) []
                  (trace w ++ EvMutexLock (TransLock (Ptr a)) ::
                     replicate (S (length (env w))) (EvCondWait (Ptr a))))).
Proof.
  intros Ha. destruct w as [h lv by0 e0 en tr]. wsimpl.
  split; intros buf slots Hbuf Hslots Hlen Hall.
  - unfold msk_post_n_send. osteps. apply blocked_outcome.
    rewrite (find_slot_full a t buf slots send_buf sq_depth) by (done || lia).
    by rewrite <- app_assoc.
  - unfold msk_post_n_recv. osteps. apply blocked_outcome.
    rewrite (find_slot_full a t buf slots recv_buf rq_depth) by (done || lia).
    by rewrite <- app_assoc.
Qed.

(** Both slots are in use and the wait returns twice. *)
Lemma post_waits_when_every_slot_is_in_use_witness :
  msk_post_n_send (Ptr 1) (Ptr 13) 1 Null None None 0 (demo_full_world [ok 0; ok 0])
  = Blocked (World (heap (demo_full_world [])) (live (demo_full_world []))
               demo_bytes 0 []
               (trace (demo_full_world []) ++
                [EvMutexLock (TransLock (Ptr 1)); EvCondWait (Ptr 1); EvCondWait (Ptr 1);
                 EvCondWait (Ptr 1)])).
Proof.
  apply (proj1 (post_waits_when_every_slot_is_in_use 1%positive
           (MskTrans MSK_INIT 0 3000000 2 2 (Some (UserFn 99)) (Ptr 3) (Ptr 2) (Ptr 4))
           (demo_full_world [ok 0; ok 0]) (Ptr 13) 1 Null None None 0
           ltac:(vm_compute; reflexivity))
           3%positive [MskCtx 1 (Ptr 11) None 0; MskCtx 1 (Ptr 12) None 0]).
  - reflexivity.
  - vm_compute. reflexivity.
  - reflexivity.
  - repeat (apply Forall_cons; split; [cbn; lia|]). apply Forall_nil_2.
Defined.

(** ** A turn of a worker that finds its queue empty *)

(** X15: A worker that is woken while its queue is empty does nothing and
    waits again.  For the receiver this means that the peer's signal is
    used up: the message it announced stays in the segment, and a receive
    posted later is serviced only when the peer signals again. *)
Theorem turn_on_an_empty_queue a t b qv rcq rcv ss rs s1 s2 shmp e rest w :
  heap w !! a = Some (OTrans t) → qp t = Ptr b →
  heap w !! b = Some (OQp qv) → recv_cq qv = Ptr rcq →
  heap w !! rcq = Some (OCq rcv) → cq_context rcv = Ptr rs →
  heap w !! rs = Some (OSem s2) → ctx_head s2 = Null →
  heap w !! ss = Some (OSem s1) → ctx_head s1 = Null →
  env w = Answer 0 e :: rest →
  send_turn (Ptr a) (Ptr ss) shmp w
  = Ret true (World (heap w) (live w) (bytes w) e rest
                (trace w ++ [EvCondWait (Ptr a)])) ∧
  recv_turn (Ptr a) (Ptr rs) shmp w
  = Ret true (World (heap w) (live w) (bytes w) e rest
                (trace w ++ [EvSemop (semid s2) (-1)])).
Proof.
  intros Ha Hq Hb Hrcq Hc Hcx Hrs Hh2 Hss Hh1 He.
  destruct w as [h lv by0 e0 en tr]. wsimpl. subst en. split.
  - unfold send_turn, send_service. osteps. reflexivity.
  - unfold recv_turn, recv_service. osteps. reflexivity.
Qed.

Lemma turn_on_an_empty_queue_witness :
  recv_turn (Ptr 1) (Ptr 10) (Ptr 5) (demo_world [ok 0])
  = Ret true (World demo_heap demo_live demo_bytes 0 [] [EvSemop 10 (-1)]).
Proof.
  apply (proj2 (turn_on_an_empty_queue 1%positive
           (MskTrans MSK_INIT 0 3000000 2 2 (Some (UserFn 99)) (Ptr 3) (Ptr 2) (Ptr 4))
           4%positive (IbvQp (Ptr 5) (Ptr 7) (Ptr 9)) 9%positive (IbvCq (Ptr 10))
           8%positive 10%positive (MskSem CLIENT_SEND_SEM_KEY 9 Null Null)
           (MskSem SERVER_SEND_SEM_KEY 10 Null Null) (Ptr 5) 0 [] (demo_world [ok 0])
           eq_refl eq_refl eq_refl eq_refl eq_refl eq_refl eq_refl eq_refl eq_refl
           eq_refl eq_refl)).
Defined.

(** ** The semaphore an operation goes to *)

(** X16: On a connection that was set up, [msk_semop] issues the operation on
    the semaphore set of the send direction for SEND_SEM and of the
    receive direction for RECV_SEM, and returns what [semop] returns.  For
    SHM_SEM the identifier is taken from the segment descriptor where an
    [msk_sem_t] has its [semid]: the operation goes to the identifier
    equal to the key of the segment, not to the semaphore set the
    descriptor records.  Any other selector gives EINVAL and no
    operation. *)
Theorem msk_semop_selects_the_semaphore
    a t b qv scq rcq scv rcv ss rs s1 s2 c sh op r e rest w :
  heap w !! a = Some (OTrans t) → qp t = Ptr b →
  heap w !! b = Some (OQp qv) →
  send_cq qv = Ptr scq → recv_cq qv = Ptr rcq → qp_context qv = Ptr c →
  heap w !! scq = Some (OCq scv) → cq_context scv = Ptr ss →
  heap w !! rcq = Some (OCq rcv) → cq_context rcv = Ptr rs →
  heap w !! ss = Some (OSem s1) → heap w !! rs = Some (OSem s2) →
  heap w !! c = Some (OShm sh) →
  env w = Answer r e :: rest →
  msk_semop (Ptr a) SEND_SEM op w
  = Ret r (World (heap w) (live w) (bytes w) e rest (trace w ++ [EvSemop (semid s1) op])) ∧
  msk_semop (Ptr a) RECV_SEM op w
  = Ret r (World (heap w) (live w) (bytes w) e rest (trace w ++ [EvSemop (semid s2) op])) ∧
  msk_semop (Ptr a) SHM_SEM op w
  = Ret r (World (heap w) (live w) (bytes w) e rest (trace w ++ [EvSemop (shmkey sh) op])) ∧
  ∀ trans sel, sel ≠ SEND_SEM → sel ≠ RECV_SEM → sel ≠ SHM_SEM →
               msk_semop trans sel op w = Ret EINVAL w.
Proof.
  intros Ha Hq Hb Hscq Hrcq Hc Hsv Hss Hrv Hrs Hs1 Hs2 Hsh He.
  destruct w as [h lv by0 e0 en tr]. wsimpl. subst en.
  split_and!.
  - match goal with |- ?m ?w = Ret ?r ?w1 =>
      cut (wp m w (λ r' w', r' = r ∧ w' = w1)) end.
    { intros (r' & w' & -> & -> & ->)%wp_elim. reflexivity. }
    eapply msk_semop_send; [eassumption..|reflexivity|]. by split.
  - match goal with |- ?m ?w = Ret ?r ?w1 =>
      cut (wp m w (λ r' w', r' = r ∧ w' = w1)) end.
    { intros (r' & w' & -> & -> & ->)%wp_elim. reflexivity. }
    eapply msk_semop_recv; [eassumption..|reflexivity|]. by split.
  - match goal with |- ?m ?w = Ret ?r ?w1 =>
      cut (wp m w (λ r' w', r' = r ∧ w' = w1)) end.
    { intros (r' & w' & -> & -> & ->)%wp_elim. reflexivity. }
    eapply msk_semop_shm; [eassumption..|reflexivity|]. by split.
  - intros trans sel H1 H2 H3. unfold msk_semop.
    apply Z.eqb_neq in H1, H2, H3. by rewrite H1, H2, H3.
Qed.

Lemma msk_semop_selects_the_semaphore_witness :
  msk_semop (Ptr 1) SHM_SEM 1 (demo_world [ok 0])
  = Ret 0 (World demo_heap demo_live demo_bytes 0 [] [EvSemop SHM_KEY 1]).
Proof.
  apply (proj1 (proj2 (proj2 (msk_semop_selects_the_semaphore 1%positive
           (MskTrans MSK_INIT 0 3000000 2 2 (Some (UserFn 99)) (Ptr 3) (Ptr 2) (Ptr 4))
           4%positive (IbvQp (Ptr 5) (Ptr 7) (Ptr 9)) 7%positive 9%positive
           (IbvCq (Ptr 8)) (IbvCq (Ptr 10)) 8%positive 10%positive
           (MskSem CLIENT_SEND_SEM_KEY 9 Null Null)
           (MskSem SERVER_SEND_SEM_KEY 10 Null Null) 5%positive
           (MskShm 7 SHM_KEY SHM_SIZE (Ptr 6) SHM_SEM_KEY 8) 1 0 0 [] (demo_world [ok 0])
           eq_refl eq_refl eq_refl eq_refl eq_refl eq_refl eq_refl eq_refl eq_refl
           eq_refl eq_refl eq_refl eq_refl eq_refl)))).
Defined.


(** ** A post that finds a free slot *)

Lemma first_unused_least l n j i c :
  l !! i = Some c → used c = 0 → (j ≤ i < j + n)%nat →
  (∀ x c', (j ≤ x < i)%nat → l !! x = Some c' → used c' ≠ 0) →
  first_unused l n j = Some i.
Proof.
  intros Hi Hc. revert j. induction n as [|n IH]; intros j Hj Hbefore; [lia|].
  cbn [first_unused]. destruct (decide (j = i)) as [->|Hne].
  - rewrite Hi. apply Z.eqb_eq in Hc. by rewrite Hc.
  - destruct (l !! j) as [c'|] eqn:Hlj.
    + assert (used c' ≠ 0) as Hu by (apply (Hbefore j c'); [lia|done]).
      apply Z.eqb_neq in Hu. rewrite Hu. apply IH; [lia|].
      intros x c'' Hx. apply Hbefore. lia.
    + apply lookup_ge_None in Hlj. apply lookup_lt_Some in Hi. lia.
Qed.

Lemma enqueue_total s buf sem sv ns i w r e rest (Q : unit → world → Prop) :
  heap w !! sem = Some (OSem sv) →
  chain (heap w) (Ptr buf) (ctx_head sv) ns → ctx_last sv = last_ptr ns →
  env w = Answer r e :: rest → r ≠ 0 →
  (∀ n, heap w !! n = None →
     Q tt (World (enqueued (heap w) buf sem sv ns n i) ({[n]} ∪ live w) (bytes w)
             e rest (trace w ++ [EvMalloc (Ptr n)]))) →
  wpx s (enqueue (Ptr sem) (CtxRef (Ptr buf) i)) w Q.
Proof.
  intros Hs Hc Hl He Hr HQ. apply Z.eqb_neq in Hr.
  destruct w as [h lv by0 e0 en tr]. wsimpl. subst en.
  unfold enqueue, malloc. repeat sstep. rename l into n.
  specialize (HQ n H). unfold enqueued in HQ.
  unfold junk_node. wsimpl.
  rewrite Hl. unfold last_ptr. destruct (last ns) as [[ln li]|] eqn:Hlast.
  - assert (∃ nx, h !! ln = Some (ONode (MskList (CtxRef (Ptr buf) li) nx))) as [nx Hln].
    { apply (chain_lookup _ _ _ _ (ln, li) Hc). by apply last_Some_elem_of. }
    cbn [fst]. wsteps. by rewrite !insert_insert_eq.
  - wsteps. by rewrite !insert_insert_eq.
Qed.

(** The queue after a post: the slot [i], which was free, holds [cnew],
    and a node for it at the new address [n] is at the tail. *)
Lemma conn_ok_posted_send k h sns rns scs rcs slots i c cnew n s :
  conn_ok k h sns rns scs rcs →
  h !! c_sbuf k = Some (OCtxs slots) → slots !! i = Some c → used c = 0 →
  used cnew ≠ 0 → h !! n = None → h !! c_ssem k = Some (OSem s) →
  conn_ok k (enqueued (<[c_sbuf k:=OCtxs (<[i:=cnew]> slots)]> h)
               (c_sbuf k) (c_ssem k) s sns n i)
    (sns ++ [(n, i)]) rns (scs ++ [cnew]) rcs.
Proof.
  intros Hok Hb Hi Hu Hnew Hn Hsem. pose proof Hok as (Hk & Hs & Hr & Hd).
  pose proof Hk as (tr & qv & Ht & Hsb & Hrb & Hqp & Hsd & Hrd & Hq & Hscq & Hrcq & Hshm
                    & Hcs & Hcr & Hbne & Hsne).
  set (h1 := <[c_sbuf k:=OCtxs (<[i:=cnew]> slots)]> h).
  assert (i ∉ sns.*2) as Hin by (by eapply queue_ok_used).
  assert (i < length slots)%nat as Hlt by (by eapply lookup_lt_Some).
  assert (conn_ok k h1 sns rns scs rcs) as Hok1.
  { eapply conn_ok_update_send; [exact Hok|by eapply queue_ok_slot| |done].
    intros a ? ? ? ?. by apply frame_slot. }
  assert (h1 !! n = None) as Hn1.
  { subst h1. rewrite lookup_insert_ne; [done|congruence]. }
  assert (h1 !! c_ssem k = Some (OSem s)) as Hsem1.
  { subst h1. rewrite lookup_insert_ne; [done|congruence]. }
  eapply conn_ok_update_send; [exact Hok1| | |].
  - eapply (queue_ok_enqueue h1 _ _ _ sns scs s (<[i:=cnew]> slots) i cnew n);
      [by apply Hok1|done| | |done|done|done].
    + subst h1. apply lookup_insert_eq.
    + by apply list_lookup_insert_eq.
  - intros a ? ? ? ?. by apply frame_enqueued.
  - rewrite fmap_app. intros x [Hx|Hx]%elem_of_app Hx'; [by eapply Hd|].
    cbn in Hx. apply list_elem_of_singleton in Hx as ->.
    destruct Hok1 as (_ & _ & Hr1 & _). by eapply queue_ok_fresh.
Qed.

Lemma conn_ok_posted_recv k h sns rns scs rcs slots i c cnew n s :
  conn_ok k h sns rns scs rcs →
  h !! c_rbuf k = Some (OCtxs slots) → slots !! i = Some c → used c = 0 →
  used cnew ≠ 0 → h !! n = None → h !! c_rsem k = Some (OSem s) →
  conn_ok k (enqueued (<[c_rbuf k:=OCtxs (<[i:=cnew]> slots)]> h)
               (c_rbuf k) (c_rsem k) s rns n i)
    sns (rns ++ [(n, i)]) scs (rcs ++ [cnew]).
Proof.
  intros Hok Hb Hi Hu Hnew Hn Hsem. pose proof Hok as (Hk & Hs & Hr & Hd).
  pose proof Hk as (tr & qv & Ht & Hsb & Hrb & Hqp & Hsd & Hrd & Hq & Hscq & Hrcq & Hshm
                    & Hcs & Hcr & Hbne & Hsne).
  set (h1 := <[c_rbuf k:=OCtxs (<[i:=cnew]> slots)]> h).
  assert (i ∉ rns.*2) as Hin by (by eapply queue_ok_used).
  assert (i < length slots)%nat as Hlt by (by eapply lookup_lt_Some).
  assert (conn_ok k h1 sns rns scs rcs) as Hok1.
  { eapply conn_ok_update_recv; [exact Hok|by eapply queue_ok_slot| |done].
    intros a ? ? ? ?. by apply frame_slot. }
  assert (h1 !! n = None) as Hn1.
  { subst h1. rewrite lookup_insert_ne; [done|congruence]. }
  assert (h1 !! c_rsem k = Some (OSem s)) as Hsem1.
  { subst h1. rewrite lookup_insert_ne; [done|congruence]. }
  eapply conn_ok_update_recv; [exact Hok1| | |].
  - eapply (queue_ok_enqueue h1 _ _ _ rns rcs s (<[i:=cnew]> slots) i cnew n);
      [by apply Hok1|done| | |done|done|done].
    + subst h1. apply lookup_insert_eq.
    + by apply list_lookup_insert_eq.
  - intros a ? ? ? ?. by apply frame_enqueued.
  - rewrite fmap_app. intros x Hx' [Hx|Hx]%elem_of_app; [by eapply Hd|].
    cbn in Hx. apply list_elem_of_singleton in Hx as ->.
    destruct Hok1 as (_ & Hs1 & _ & _). by eapply queue_ok_fresh.
Qed.

Lemma post_send_returns
    k sns rns scs rcs slots i c s w pd num_sge mr cb ecb arg r e rest :
  conn_ok k (heap w) sns rns scs rcs →
  heap w !! c_sbuf k = Some (OCtxs slots) → slots !! i = Some c → used c = 0 →
  (∀ j c', (j < i)%nat → slots !! j = Some c' → used c' ≠ 0) →
  heap w !! c_ssem k = Some (OSem s) →
  env w = Answer r e :: rest → r ≠ 0 →
  ∃ n,
    heap w !! n = None ∧
    msk_post_n_send (Ptr (c_trans k)) pd num_sge mr cb ecb arg w
    = Ret 0 (World (enqueued (<[c_sbuf k:=OCtxs (<[i:=MskCtx 1 pd cb arg]> slots)]> (heap w))
                      (c_sbuf k) (c_ssem k) s sns n i)
               ({[n]} ∪ live w) (bytes w) e rest
               (trace w ++ [EvMutexLock (TransLock (Ptr (c_trans k))); EvMalloc (Ptr n);
                            EvCondBroadcast (Ptr (c_trans k));
                           EvMutexUnlock (TransLock (Ptr (c_trans k)))])) ∧
    conn_ok k (enqueued (<[c_sbuf k:=OCtxs (<[i:=MskCtx 1 pd cb arg]> slots)]> (heap w))
                 (c_sbuf k) (c_ssem k) s sns n i)
      (sns ++ [(n, i)]) rns (scs ++ [MskCtx 1 pd cb arg]) rcs.
Proof.
  intros Hok Hsb Hi Hc Hleast Hsem0 He Hr.
  pose proof Hok as (Hk & Hs & _).
  destruct Hk as (tr & qv & Ht & Hsbuf & Hrbuf & Hqp & Hsd & Hrd & Hq & Hscq & Hrcq & Hshm
                  & Hcs & Hcr & Hbne & Hsne).
  pose proof Hs as (s' & slots' & Hsem & Hch & Hl & Hb & Hlen & Hf & Hn1 & Hn2).
  assert (slots' = slots) as -> by congruence.
  assert (s' = s) as -> by congruence.
  assert (i < length slots)%nat as Hlt by (by eapply lookup_lt_Some).
  cut (wp (msk_post_n_send (Ptr (c_trans k)) pd num_sge mr cb ecb arg) w (λ r' w',
    r' = 0 ∧ ∃ n,
      heap w !! n = None ∧
      w' = World (enqueued (<[c_sbuf k:=OCtxs (<[i:=MskCtx 1 pd cb arg]> slots)]> (heap w))
                    (c_sbuf k) (c_ssem k) s sns n i)
             ({[n]} ∪ live w) (bytes w) e rest
             (trace w ++ [EvMutexLock (TransLock (Ptr (c_trans k))); EvMalloc (Ptr n);
                          EvCondBroadcast (Ptr (c_trans k));
                           EvMutexUnlock (TransLock (Ptr (c_trans k)))]))).
  { intros (r' & w' & Hrun & -> & n & Hn & ->)%wp_elim.
    exists n. split_and!; try done. by eapply conn_ok_posted_send. }
  destruct w as [h lv by0 e0 en tr0]. wsimpl. subst en.
  unfold msk_post_n_send. wsteps.
  eapply (find_slot_free _ _ _ _ _ slots i);
    [lookup_tac|eassumption|lookup_tac| |cbn [sq_depth]; lia|].
  { cbn [sq_depth]. rewrite Hsd, <- Hlen.
    apply (first_unused_least slots (length slots) 0 i c); [done|done|lia|].
    intros x c' Hx. apply Hleast. lia. }
  apply wpx_bind. eapply fill_slot_spec; [done..|]. wsimpl. wsteps.
  eapply enqueue_total; [lookup_tac| | |reflexivity|done|].
  - eapply chain_frame; [|exact Hch]. intros n Hn. wsimpl.
    rewrite lookup_insert_ne; [done|]. intros <-.
    destruct (chain_node _ _ _ _ _ Hch Hn) as [nd Hnd]. congruence.
  - done.
  - intros n Hn. wsimpl. apply lookup_insert_None in Hn as [Hn Hne].
    assert (enqueued (<[c_sbuf k:=OCtxs (<[i:=MskCtx 1 pd cb arg]> slots)]> h)
              (c_sbuf k) (c_ssem k) s sns n i !! c_trans k = Some (OTrans tr)) as Ht'.
    { rewrite frame_enqueued;
        [rewrite lookup_insert_ne; [done|congruence]
        |rewrite lookup_insert_ne; [done|congruence]
        |congruence
        |eapply queue_ok_not_node; [exact Hs|exact Ht|done]
        |rewrite lookup_insert_ne; [by rewrite Ht|congruence]]. }
    wsteps. split; [done|]. exists n. split; [done|].
    by rewrite <- !app_assoc.
Qed.

(** X18: With a slot free and memory for the node, [msk_post_n_send]
    returns 0: it has taken the free slot of lowest index, filled it with
    the descriptor, the completion callback and its argument, and
    appended a node for it at the tail of the queue.  The error callback,
    the number of segments and the memory region it is given are not
    used. *)
Theorem post_send_takes_the_first_free_slot
    k sns rns scs rcs slots i c w pd num_sge mr cb ecb arg r e rest :
  conn_ok k (heap w) sns rns scs rcs →
  heap w !! c_sbuf k = Some (OCtxs slots) → slots !! i = Some c → used c = 0 →
  (∀ j c', (j < i)%nat → slots !! j = Some c' → used c' ≠ 0) →
  env w = Answer r e :: rest → r ≠ 0 →
  ∃ n w',
    msk_post_n_send (Ptr (c_trans k)) pd num_sge mr cb ecb arg w = Ret 0 w' ∧
    heap w !! n = None ∧
    heap w' !! c_sbuf k = Some (OCtxs (<[i:=MskCtx 1 pd cb arg]> slots)) ∧
    conn_ok k (heap w') (sns ++ [(n, i)]) rns (scs ++ [MskCtx 1 pd cb arg]) rcs ∧
    live w' = {[n]} ∪ live w ∧ bytes w' = bytes w ∧ env w' = rest ∧
    trace w' = trace w ++ [EvMutexLock (TransLock (Ptr (c_trans k))); EvMalloc (Ptr n);
                           EvCondBroadcast (Ptr (c_trans k));
                           EvMutexUnlock (TransLock (Ptr (c_trans k)))].
Proof.
  intros Hok Hsb Hi Hc Hleast He Hr.
  pose proof Hok as (Hk & Hqs & Hqr & _).
  pose proof Hqs as (s & _ & Hsem & _).
  destruct (post_send_returns k sns rns scs rcs slots i c s w pd num_sge mr cb ecb arg
              r e rest Hok Hsb Hi Hc Hleast Hsem He Hr) as (n & Hn & Hrun & Hok').
  eexists n, _. split; [exact Hrun|]. cbn [heap live bytes env trace].
  split_and!; try done.
  rewrite frame_enqueued;
    [apply lookup_insert_eq
    |rewrite lookup_insert_ne; [done|congruence]
    |congruence
    |eapply queue_ok_not_node; [exact Hqs|exact Hsb|done]
    |by rewrite lookup_insert_eq].
Qed.

Lemma post_recv_returns
    k sns rns scs rcs slots i c s w pd num_sge mr cb ecb arg r e rest :
  conn_ok k (heap w) sns rns scs rcs →
  heap w !! c_rbuf k = Some (OCtxs slots) → slots !! i = Some c → used c = 0 →
  (∀ j c', (j < i)%nat → slots !! j = Some c' → used c' ≠ 0) →
  heap w !! c_rsem k = Some (OSem s) →
  env w = Answer r e :: rest → r ≠ 0 →
  ∃ n,
    heap w !! n = None ∧
    msk_post_n_recv (Ptr (c_trans k)) pd num_sge mr cb ecb arg w
    = Ret 0 (World (enqueued (<[c_rbuf k:=OCtxs (<[i:=MskCtx 1 pd cb arg]> slots)]> (heap w))
                      (c_rbuf k) (c_rsem k) s rns n i)
               ({[n]} ∪ live w) (bytes w) e rest
               (trace w ++ [EvMutexLock (TransLock (Ptr (c_trans k))); EvMalloc (Ptr n);
                            EvMutexUnlock (TransLock (Ptr (c_trans k)))])) ∧
    conn_ok k (enqueued (<[c_rbuf k:=OCtxs (<[i:=MskCtx 1 pd cb arg]> slots)]> (heap w))
                 (c_rbuf k) (c_rsem k) s rns n i)
      sns (rns ++ [(n, i)]) scs (rcs ++ [MskCtx 1 pd cb arg]).
Proof.
  intros Hok Hsb Hi Hc Hleast Hsem0 He Hr.
  pose proof Hok as (Hk & _ & Hs & _).
  destruct Hk as (tr & qv & Ht & Hsbuf & Hrbuf & Hqp & Hsd & Hrd & Hq & Hscq & Hrcq & Hshm
                  & Hcs & Hcr & Hbne & Hsne).
  pose proof Hs as (s' & slots' & Hsem & Hch & Hl & Hb & Hlen & Hf & Hn1 & Hn2).
  assert (slots' = slots) as -> by congruence.
  assert (s' = s) as -> by congruence.
  assert (i < length slots)%nat as Hlt by (by eapply lookup_lt_Some).
  cut (wp (msk_post_n_recv (Ptr (c_trans k)) pd num_sge mr cb ecb arg) w (λ r' w',
    r' = 0 ∧ ∃ n,
      heap w !! n = None ∧
      w' = World (enqueued (<[c_rbuf k:=OCtxs (<[i:=MskCtx 1 pd cb arg]> slots)]> (heap w))
                    (c_rbuf k) (c_rsem k) s rns n i)
             ({[n]} ∪ live w) (bytes w) e rest
             (trace w ++ [EvMutexLock (TransLock (Ptr (c_trans k))); EvMalloc (Ptr n);
                          EvMutexUnlock (TransLock (Ptr (c_trans k)))]))).
  { intros (r' & w' & Hrun & -> & n & Hn & ->)%wp_elim.
    exists n. split_and!; try done. by eapply conn_ok_posted_recv. }
  destruct w as [h lv by0 e0 en tr0]. wsimpl. subst en.
  unfold msk_post_n_recv. wsteps.
  eapply (find_slot_free _ _ _ _ _ slots i);
    [lookup_tac|eassumption|lookup_tac| |cbn [rq_depth]; lia|].
  { cbn [rq_depth]. rewrite Hrd, <- Hlen.
    apply (first_unused_least slots (length slots) 0 i c); [done|done|lia|].
    intros x c' Hx. apply Hleast. lia. }
  apply wpx_bind. eapply fill_slot_spec; [done..|]. wsimpl. wsteps.
  eapply enqueue_total; [lookup_tac| | |reflexivity|done|].
  - eapply chain_frame; [|exact Hch]. intros n Hn. wsimpl.
    rewrite lookup_insert_ne; [done|]. intros <-.
    destruct (chain_node _ _ _ _ _ Hch Hn) as [nd Hnd]. congruence.
  - done.
  - intros n Hn. wsimpl. apply lookup_insert_None in Hn as [Hn Hne].
    assert (enqueued (<[c_rbuf k:=OCtxs (<[i:=MskCtx 1 pd cb arg]> slots)]> h)
              (c_rbuf k) (c_rsem k) s rns n i !! c_trans k = Some (OTrans tr)) as Ht'.
    { rewrite frame_enqueued;
        [rewrite lookup_insert_ne; [done|congruence]
        |rewrite lookup_insert_ne; [done|congruence]
        |congruence
        |eapply queue_ok_not_node; [exact Hs|exact Ht|done]
        |rewrite lookup_insert_ne; [by rewrite Ht|congruence]]. }
    wsteps. split; [done|]. exists n. split; [done|].
    by rewrite <- !app_assoc.
Qed.

(** X19: With a slot free and memory for the node, [msk_post_n_recv]
    returns 0: it has taken the free slot of lowest index of the receive
    pool, filled it with the descriptor, the completion callback and its
    argument, and appended a node for it at the tail of the receive queue.
    Unlike [msk_post_n_send] it does not signal the condition variable. *)
Theorem post_recv_takes_the_first_free_slot
    k sns rns scs rcs slots i c w pd num_sge mr cb ecb arg r e rest :
  conn_ok k (heap w) sns rns scs rcs →
  heap w !! c_rbuf k = Some (OCtxs slots) → slots !! i = Some c → used c = 0 →
  (∀ j c', (j < i)%nat → slots !! j = Some c' → used c' ≠ 0) →
  env w = Answer r e :: rest → r ≠ 0 →
  ∃ n w',
    msk_post_n_recv (Ptr (c_trans k)) pd num_sge mr cb ecb arg w = Ret 0 w' ∧
    heap w !! n = None ∧
    heap w' !! c_rbuf k = Some (OCtxs (<[i:=MskCtx 1 pd cb arg]> slots)) ∧
    conn_ok k (heap w') sns (rns ++ [(n, i)]) scs (rcs ++ [MskCtx 1 pd cb arg]) ∧
    live w' = {[n]} ∪ live w ∧ bytes w' = bytes w ∧ env w' = rest ∧
    trace w' = trace w ++ [EvMutexLock (TransLock (Ptr (c_trans k))); EvMalloc (Ptr n);
                           EvMutexUnlock (TransLock (Ptr (c_trans k)))].
Proof.
  intros Hok Hsb Hi Hc Hleast He Hr.
  pose proof Hok as (Hk & Hqs & Hqr & _).
  pose proof Hqr as (s & _ & Hsem & _).
  destruct (post_recv_returns k sns rns scs rcs slots i c s w pd num_sge mr cb ecb arg
              r e rest Hok Hsb Hi Hc Hleast Hsem He Hr) as (n & Hn & Hrun & Hok').
  eexists n, _. split; [exact Hrun|]. cbn [heap live bytes env trace].
  split_and!; try done.
  rewrite frame_enqueued;
    [apply lookup_insert_eq
    |rewrite lookup_insert_ne; [done|congruence]
    |congruence
    |eapply queue_ok_not_node; [exact Hqr|exact Hsb|done]
    |by rewrite lookup_insert_eq].
Qed.

Lemma post_send_takes_the_first_free_slot_witness :
  ∃ n w',
    msk_post_n_send (Ptr 1) (Ptr 11) 1 Null (Some (UserFn 1)) None 0 (demo_world [ok 1])
    = Ret 0 w' ∧
    heap w' !! 3%positive = Some (OCtxs [MskCtx 1 (Ptr 11) (Some (UserFn 1)) 0; zero_ctx]) ∧
    live w' = {[n]} ∪ demo_live.
Proof.
  destruct (post_send_takes_the_first_free_slot demo_conn [] [] [] []
              [zero_ctx; zero_ctx] 0%nat zero_ctx (demo_world [ok 1])
              (Ptr 11) 1 Null (Some (UserFn 1)) None 0 1 0 []
              (demo_idle [ok 1]) eq_refl eq_refl eq_refl)
    as (n & w' & Hrun & _ & Hslot & _ & Hlive & _).
  - intros j c' Hj. lia.
  - reflexivity.
  - lia.
  - exists n, w'. split_and!; assumption.
Defined.

Lemma post_recv_takes_the_first_free_slot_witness :
  ∃ n w',
    msk_post_n_recv (Ptr 1) (Ptr 14) 1 Null (Some (UserFn 7)) None 0 (demo_world [ok 1])
    = Ret 0 w' ∧
    heap w' !! 2%positive = Some (OCtxs [MskCtx 1 (Ptr 14) (Some (UserFn 7)) 0; zero_ctx]) ∧
    live w' = {[n]} ∪ demo_live.
Proof.
  destruct (post_recv_takes_the_first_free_slot demo_conn [] [] [] []
              [zero_ctx; zero_ctx] 0%nat zero_ctx (demo_world [ok 1])
              (Ptr 14) 1 Null (Some (UserFn 7)) None 0 1 0 []
              (demo_idle [ok 1]) eq_refl eq_refl eq_refl)
    as (n & w' & Hrun & _ & Hslot & _ & Hlive & _).
  - intros j c' Hj. lia.
  - reflexivity.
  - lia.
  - exists n, w'. split_and!; assumption.
Defined.

(** ** Posting and waiting *)





(** ** Destroying twice *)

(** X21: [msk_destroy_buffer] leaves in the connection the pointers to the
    blocks it has freed: called a second time it frees the send pool
    again. *)
Theorem msk_destroy_buffer_twice_frees_twice
    a t sb rb q qv c sh scq ss s1 rcq rs s2 w :
  heap w !! a = Some (OTrans t) →
  send_buf t = Ptr sb → recv_buf t = Ptr rb → qp t = Ptr q →
  heap w !! q = Some (OQp qv) →
  qp_context qv = Ptr c → send_cq qv = Ptr scq → recv_cq qv = Ptr rcq →
  heap w !! c = Some (OShm sh) →
  heap w !! scq = Some (OCq (IbvCq (Ptr ss))) → heap w !! ss = Some (OSem s1) →
  heap w !! rcq = Some (OCq (IbvCq (Ptr rs))) → heap w !! rs = Some (OSem s2) →
  NoDup [sb; rb; ss; scq; rs; c; q] →
  Forall (λ l, l ∈ live w) [sb; rb; ss; scq; rs; c; q] →
  faults (_ ← msk_destroy_buffer (Ptr a); msk_destroy_buffer (Ptr a)) w.
Proof.
  intros Ha Hsb Hrb Hq Hqv Hc Hscq Hrcq Hsh Hsq Hss Hrq Hrs Hnd Hlive.
  apply faults_bind. eapply destroy_buffer_spec; [eassumption..|].
  unfold msk_destroy_buffer. fsteps.
  repeat apply faults_here. eexists. unfold release_block.
  rewrite decide_False; [reflexivity|].
  cbn [live]. intros Hin.
  repeat apply elem_of_difference in Hin as [Hin ?].
  by match goal with H : sb ∉ {[sb]} |- _ => apply H, elem_of_singleton end.
Qed.

Lemma msk_destroy_buffer_twice_frees_twice_witness :
  faults (_ ← msk_destroy_buffer (Ptr 1); msk_destroy_buffer (Ptr 1)) (demo_world []).
Proof.
  apply (msk_destroy_buffer_twice_frees_twice 1%positive
           (MskTrans MSK_INIT 0 3000000 2 2 (Some (UserFn 99)) (Ptr 3) (Ptr 2) (Ptr 4))
           3%positive 2%positive 4%positive (IbvQp (Ptr 5) (Ptr 7) (Ptr 9)) 5%positive
           (MskShm 7 SHM_KEY SHM_SIZE (Ptr 6) SHM_SEM_KEY 8)
           7%positive 8%positive (MskSem CLIENT_SEND_SEM_KEY 9 Null Null)
           9%positive 10%positive (MskSem SERVER_SEND_SEM_KEY 10 Null Null)
           (demo_world [])); try reflexivity.
  - refine (bool_decide_unpack _ _); vm_compute; exact I.
  - repeat (apply Forall_cons; split; [refine (bool_decide_unpack _ _); vm_compute; exact I|]).
    apply Forall_nil_2.
Defined.

(** ** Memory regions *)

(** X22: A region that is registered and deregistered leaves nothing
    allocated; without memory the registration returns NULL and changes
    nothing, and deregistering NULL returns 0.  The connection and the
    access flags given to the registration are not used. *)
Theorem register_then_deregister trans memaddr size access w :
  reg_live w ⊆ dom (reg_heap w) →
  (∃ l h',
     msk_reg_mr true trans memaddr size access w
     = (Ptr l, RegWorld h' ({[l]} ∪ reg_live w)) ∧
     reg_heap w !! l = None ∧
     h' !! l = Some (BMr (IbvMr (Some memaddr) (Some size) None)) ∧
     msk_dereg_mr (Ptr l) (RegWorld h' ({[l]} ∪ reg_live w))
     = Some (0, RegWorld h' (reg_live w))) ∧
  msk_reg_mr false trans memaddr size access w = (Null, w) ∧
  msk_dereg_mr Null w = Some (0, w).
Proof.
  intros Hwf. split; [|done].
  set (l := fresh (dom (reg_heap w))).
  assert (reg_heap w !! l = None) as Hl by apply not_elem_of_dom, is_fresh.
  exists l, (<[l:=BMr (IbvMr (Some memaddr) (Some size) None)]>
               (<[l:=BMr (IbvMr None None None)]> (reg_heap w))).
  split_and!; [done|done|by rewrite lookup_insert_eq|].
  unfold msk_dereg_mr. rewrite decide_True by (apply elem_of_union_l, elem_of_singleton_2; done).
  assert (l ∉ reg_live w) as Hnl.
  { intros Hin. apply Hwf, elem_of_dom in Hin as [? ?]. congruence. }
  assert (({[l]} ∪ reg_live w) ∖ {[l]} = reg_live w) as Heq.
  { apply set_eq. intros x.
    rewrite elem_of_difference, elem_of_union, elem_of_singleton.
    split; [tauto|]. intros Hx. split; [tauto|]. by intros ->. }
  cbn [reg_live reg_heap]. by rewrite Heq.
Qed.

Lemma register_then_deregister_witness :
  msk_reg_mr false Null 1000 4 0 (RegWorld ∅ ∅) = (Null, RegWorld ∅ ∅) ∧
  msk_dereg_mr Null (RegWorld ∅ ∅) = Some (0, RegWorld ∅ ∅).
Proof.
  apply (proj2 (register_then_deregister Null 1000 4 0 (RegWorld ∅ ∅)
                  (empty_subseteq _))).
Defined.

(** X23: The remote location made from a region has the address and the size
    it is given and the key of the region; [msk_reg_mr] does not set a
    key, so the key of a location made from a region it has registered is
    the value [malloc] left in the region.  The region is not tested: with
    memory for the location and NULL for the region, [msk_make_rloc] does
    not return. *)
Theorem make_rloc_copies_a_key_never_set trans memaddr size access addr rsize w :
  (∃ m l w1 w2,
     msk_reg_mr true trans memaddr size access w = (Ptr m, w1) ∧
     msk_make_rloc true (Ptr m) addr rsize w1 = Some (Ptr l, w2) ∧
     m ≠ l ∧
     reg_heap w2 !! l = Some (BRloc (MskRloc (Some addr) None (Some rsize))) ∧
     reg_heap w2 !! m = Some (BMr (IbvMr (Some memaddr) (Some size) None))) ∧
  msk_make_rloc true Null addr rsize w = None ∧
  msk_make_rloc false Null addr rsize w = Some (Null, w).
Proof.
  split; [|done].
  set (m := fresh (dom (reg_heap w))).
  set (h1 := <[m:=BMr (IbvMr (Some memaddr) (Some size) None)]>
               (<[m:=BMr (IbvMr None None None)]> (reg_heap w))).
  set (l := fresh (dom h1)).
  assert (h1 !! l = None) as Hl by apply not_elem_of_dom, is_fresh.
  assert (m ≠ l) as Hne.
  { intros <-. subst h1. by rewrite lookup_insert_eq in Hl. }
  exists m, l, (RegWorld h1 ({[m]} ∪ reg_live w)). eexists. split_and!.
  - reflexivity.
  - unfold msk_make_rloc, reg_malloc. cbn [reg_heap reg_live]. fold l.
    rewrite lookup_insert_ne by (by apply not_eq_sym).
    subst h1. rewrite lookup_insert_eq. reflexivity.
  - done.
  - cbn [reg_heap]. by rewrite lookup_insert_eq.
  - cbn [reg_heap]. rewrite !lookup_insert_ne by (by apply not_eq_sym).
    subst h1. by rewrite lookup_insert_eq.
Qed.

(** ** Starting a client and a server *)

(** X24: A client that is created, connected and finalized adds 1 to the
    semaphore selected by SHM_SEM, takes 1 and waits for zero; a server
    that is created, bound, accepted and finalized adds 1, takes 1, waits
    for zero and adds 1 again.  Every call of the two sequences
    returns. *)
Theorem client_and_server_start
    attr w i1 i2 i3 m1 m2 m3 m4 sg at_ s0 m5 m6 s1 m7 m8 s2 so f1 f2 f3 rest :
  env w = [i1; i2; i3; m1; m2; m3; m4; sg; at_; s0; m5; m6; s1; m7; m8; s2; so;
           f1; f2; f3] ++ rest →
  a_ret i1 ≠ 0 → a_ret i2 = 0 → a_ret i3 = 0 →
  Forall (λ m, a_ret m ≠ 0) [m1; m2; m3; m4; s0; m5; m6; s1; m7; m8; s2] →
  a_ret sg ≠ -1 → a_ret at_ ≠ -1 →
  (∃ w',
     (r ← msk_init attr; _ ← msk_connect r.2; msk_finalize_connect r.2) w = Ret 0 w' ∧
     semops SHM_KEY (trace w') = semops SHM_KEY (trace w) ++ [1; -1; 0] ∧
     env w' = f3 :: rest) ∧
  (∃ w',
     (r ← msk_init attr; _ ← msk_bind_server r.2; _ ← msk_start_cm_thread r.2;
      p ← msk_accept_one r.2; msk_finalize_accept p) w = Ret 0 w' ∧
     semops SHM_KEY (trace w') = semops SHM_KEY (trace w) ++ [1; -1; 0; 1] ∧
     env w' = rest).
Proof.
  intros He H1 H2 H3 Hm H5 H6.
  destruct w as [h lv by0 e en tr]. cbn [heap live env trace] in *. cbn [app] in He.
  subst en. split.
  - cut (wp (r ← msk_init attr; _ ← msk_connect r.2; msk_finalize_connect r.2)
           (World h lv by0 e
              (i1 :: i2 :: i3 :: m1 :: m2 :: m3 :: m4 :: sg :: at_ :: s0 :: m5 :: m6 :: s1
               :: m7 :: m8 :: s2 :: so :: f1 :: f2 :: f3 :: rest) tr)
           (λ r w', r = 0 ∧ semops SHM_KEY (trace w') = semops SHM_KEY tr ++ [1; -1; 0] ∧
                    env w' = f3 :: rest)).
    { intros (r & w' & Hrun & -> & Hw)%wp_elim. exists w'. exact (conj Hrun Hw). }
    apply wpx_bind. eapply init_spec; [reflexivity|assumption..|].
    intros a Hfa. cbn [snd]. apply wpx_bind.
    unfold msk_connect. wsteps.
    eapply setup_buffer_spec; [lookup_tac|reflexivity|assumption..|].
    intros k g h' Hk1 Hk2 Hk3 Hnd Hfr Hb Hframe.
    pose proof Hb as (Ht & Hrb & Hsb & Hq & Hc & _).
    subst a. clear Hnd Hfr Hframe. wsteps.
    eapply msk_semop_shm; [lookup_tac|reflexivity|lookup_tac|reflexivity|lookup_tac
                          |reflexivity|].
    wsteps. unfold msk_finalize_connect.
    apply wpx_bind.
    eapply msk_semop_shm; [lookup_tac|reflexivity|lookup_tac|reflexivity|lookup_tac
                          |reflexivity|].
    wsimpl. apply wpx_bind.
    eapply msk_semop_shm; [lookup_tac|reflexivity|lookup_tac|reflexivity|lookup_tac
                          |reflexivity|].
    wsteps. split_and!; [reflexivity| |reflexivity].
    rewrite !semops_app. cbn. rewrite !app_nil_r, <- !app_assoc. reflexivity.
  - cut (wp (r ← msk_init attr; _ ← msk_bind_server r.2; _ ← msk_start_cm_thread r.2;
             p ← msk_accept_one r.2; msk_finalize_accept p)
           (World h lv by0 e
              (i1 :: i2 :: i3 :: m1 :: m2 :: m3 :: m4 :: sg :: at_ :: s0 :: m5 :: m6 :: s1
               :: m7 :: m8 :: s2 :: so :: f1 :: f2 :: f3 :: rest) tr)
           (λ r w', r = 0 ∧ semops SHM_KEY (trace w') = semops SHM_KEY tr ++ [1; -1; 0; 1] ∧
                    env w' = rest)).
    { intros (r & w' & Hrun & -> & Hw)%wp_elim. exists w'. exact (conj Hrun Hw). }
    apply wpx_bind. eapply init_spec; [reflexivity|assumption..|].
    intros a Hfa. cbn [snd]. unfold msk_bind_server, msk_start_cm_thread.
    do 2 (apply wpx_bind, wpx_ret). apply wpx_bind.
    unfold msk_accept_one. wsteps.
    eapply setup_buffer_spec; [lookup_tac|reflexivity|assumption..|].
    intros k g h' Hk1 Hk2 Hk3 Hnd Hfr Hb Hframe.
    pose proof Hb as (Ht & Hrb & Hsb & Hq & Hc & _).
    subst a. clear Hnd Hfr Hframe. wsteps.
    eapply msk_semop_shm; [lookup_tac|reflexivity|lookup_tac|reflexivity|lookup_tac
                          |reflexivity|].
    wsteps. unfold msk_finalize_accept.
    apply wpx_bind.
    eapply msk_semop_shm; [lookup_tac|reflexivity|lookup_tac|reflexivity|lookup_tac
                          |reflexivity|].
    wsimpl. apply wpx_bind.
    eapply msk_semop_shm; [lookup_tac|reflexivity|lookup_tac|reflexivity|lookup_tac
                          |reflexivity|].
    wsimpl. apply wpx_bind.
    eapply msk_semop_shm; [lookup_tac|reflexivity|lookup_tac|reflexivity|lookup_tac
                          |reflexivity|].
    wsteps. split_and!; [reflexivity| |reflexivity].
    rewrite !semops_app. cbn. rewrite !app_nil_r, <- !app_assoc. reflexivity.
Qed.

Lemma client_and_server_start_witness :
  ∃ w',
    (r ← msk_init demo_attr; _ ← msk_bind_server r.2; _ ← msk_start_cm_thread r.2;
     p ← msk_accept_one r.2; msk_finalize_accept p)
      (empty_world ([ok 1; ok 0; ok 0] ++ demo_setup_script ++ [ok 0; ok 0; ok 0; ok 0]))
    = Ret 0 w' ∧
    semops SHM_KEY (trace w') = [1; -1; 0; 1].
Proof.
  destruct (proj2 (client_and_server_start demo_attr
              (empty_world ([ok 1; ok 0; ok 0] ++ demo_setup_script
                            ++ [ok 0; ok 0; ok 0; ok 0]))
              (ok 1) (ok 0) (ok 0)
              (ok 1) (ok 1) (ok 1) (ok 1) (ok 7) (ok 4096) (ok 8) (ok 1) (ok 1) (ok 9)
              (ok 1) (ok 1) (ok 10) (ok 0) (ok 0) (ok 0) (ok 0) []
              eq_refl ltac:(cbn; lia) eq_refl eq_refl
              ltac:(repeat (apply Forall_cons; split; [cbn; lia|]); apply Forall_nil_2)
              ltac:(cbn; lia) ltac:(cbn; lia)))
    as (w' & Hrun & Hs & _).
  exists w'. split; [exact Hrun|exact Hs].
Defined.
